(** * The Kalman filter of the JDE tracker (PeekingDuck, jdev1/jde_files/utils/kalman_filter.py)

    A shallow embedding of [KalmanFilter] and of the NumPy / SciPy calls
    it makes, followed by the properties of the filter.

    Numbers.  The program computes on binary64 arrays.  In the main
    embedding a scalar is a real number and every operation is exact:
    it speaks about the algebra of the filter (what is multiplied with
    what, in which order, and which call can raise), and its theorems
    about values are statements about the formulas the methods
    evaluate.  Where a statement is about the very numbers that come
    back (two results equal bit for bit, a result symmetric, a literal
    value), the module [b64] gives [initiate], [predict], [project]
    and [multi_predict] on binary64 numbers.  Whether the Cholesky
    factorisation passes depends on the numbers too; the statements
    about [update] and the metric "maha" take as a hypothesis that the
    covariance [project] returned is positive definite.

    Arrays.  A one-dimensional array is a list of scalars, a
    two-dimensional array the list of its rows, a three-dimensional array
    the list of its matrices.  NumPy raises on an index out of bounds and
    on operands whose shapes do not agree; the model returns the same
    exceptions through the [result] type.  A list of rows does not
    record the width of an array without rows; [gating_distance] passes
    that width on where it transposes, and the statements about
    [multi_predict] are made for N >= 1 rows. *)

From Stdlib Require Import String.
From Stdlib Require Import PrimFloat SpecFloat FloatOps.
From Stdlib Require Import Reals Lra Lia List Arith Bool Psatz.
Import ListNotations.
Local Open Scope R_scope.

Set Implicit Arguments.
Set Warnings "-inexact-float".

(* ================================================================= *)
(** ** Exceptions *)

Inductive exn : Type :=
| IndexError
| ValueError (msg : string)
| LinAlgError (msg : string).

Inductive result (A : Type) : Type :=
| Ok (a : A)
| Raise (e : exn).

Arguments Ok {A} a.
Arguments Raise {A} e.

Definition bind {A B : Type} (r : result A) (k : A -> result B) : result B :=
  match r with
  | Ok a => k a
  | Raise e => Raise e
  end.

Notation "x <- r ;; k" := (bind r (fun x => k))
  (at level 61, r at next level, right associativity).
Notation "' p <- r ;; k" := (bind r (fun p => k))
  (at level 61, p pattern, r at next level, right associativity).

Fixpoint mapM {A B : Type} (f : A -> result B) (l : list A) : result (list B) :=
  match l with
  | [] => Ok []
  | a :: l' => b <- f a ;; bs <- mapM f l' ;; Ok (b :: bs)
  end.

Fixpoint zipM {A B C : Type} (f : A -> B -> result C)
  (l1 : list A) (l2 : list B) : result (list C) :=
  match l1, l2 with
  | a :: l1', b :: l2' => c <- f a b ;; cs <- zipM f l1' l2' ;; Ok (c :: cs)
  | _, _ => Ok []
  end.

(* ================================================================= *)
(** ** Finite sums *)

(** [rsum n f] is f 0 + ... + f (n-1). *)
Fixpoint rsum (n : nat) (f : nat -> R) : R :=
  match n with
  | O => 0
  | S k => rsum k f + f k
  end.

(* ================================================================= *)
(** ** Arrays *)

Definition vector := list R.
Definition matrix := list (list R).

Definition vget (v : vector) (i : nat) : R := nth i v 0.
Definition mget (M : matrix) (i j : nat) : R := nth j (nth i M []) 0.

Definition nrows (M : matrix) : nat := length M.
Definition ncols (M : matrix) : nat := length (hd [] M).

Definition mk_vec (n : nat) (f : nat -> R) : vector := map f (seq 0 n).
Definition mk_mat (n m : nat) (f : nat -> nat -> R) : matrix :=
  map (fun i => mk_vec m (f i)) (seq 0 n).

(** The shape of an array: [is_mat n m M] says that M is an n x m array. *)
Definition is_vec (n : nat) (v : vector) : Prop := length v = n.
Definition is_mat (n m : nat) (M : matrix) : Prop :=
  length M = n /\ Forall (fun row => length row = m) M.

(** Python's [a[i]] on a one-dimensional array. *)
Definition getitem (v : vector) (i : nat) : result R :=
  match nth_error v i with
  | Some x => Ok x
  | None => Raise IndexError
  end.

(** Python's [M[i, j] = x] for indices in range. *)
Definition setitem2 (M : matrix) (i j : nat) (x : R) : matrix :=
  mk_mat (nrows M) (ncols M)
    (fun a b => if (a =? i)%nat && (b =? j)%nat then x else mget M a b).

Definition scale (c : R) (v : vector) : vector := map (Rmult c) v.

(** Elementwise operation on two one-dimensional arrays with NumPy's
    broadcasting: equal lengths, or one operand of length one. *)
Definition broadcast1 (f : R -> R -> R) (u v : vector) : result vector :=
  if (length u =? length v)%nat then Ok (map (fun p => f (fst p) (snd p)) (combine u v))
  else if (length u =? 1)%nat then Ok (map (f (vget u 0)) v)
  else if (length v =? 1)%nat then Ok (map (fun x => f x (vget v 0)) u)
  else Raise (ValueError "operands could not be broadcast together").

(** The arithmetic of the array operations, on operands whose shapes
    agree; the shape checks are added in [np] below. *)
Definition vec_mat (v : vector) (M : matrix) : vector :=
  mk_vec (ncols M) (fun j => rsum (length v) (fun k => vget v k * mget M k j)).

Definition mat_vec (M : matrix) (v : vector) : vector :=
  mk_vec (nrows M) (fun i => rsum (ncols M) (fun k => mget M i k * vget v k)).

Definition mat_mul (A B : matrix) : matrix :=
  mk_mat (nrows A) (ncols B) (fun i j => rsum (ncols A) (fun k => mget A i k * mget B k j)).

Definition mat_map2 (f : R -> R -> R) (A B : matrix) : matrix :=
  mk_mat (nrows A) (ncols A) (fun i j => f (mget A i j) (mget B i j)).

Definition transpose (M : matrix) : matrix :=
  mk_mat (ncols M) (nrows M) (fun i j => mget M j i).

(** Elementwise operation on two two-dimensional arrays of the same shape. *)
Definition elementwise2 (f : R -> R -> R) (A B : matrix) : result matrix :=
  if (nrows A =? nrows B)%nat && (ncols A =? ncols B)%nat
  then Ok (mat_map2 f A B)
  else Raise (ValueError "operands could not be broadcast together").

(* ================================================================= *)
(** ** Triangular solves and the Cholesky factorisation

    What LAPACK computes behind [np.linalg.cholesky],
    [scipy.linalg.cho_factor], [cho_solve] and [solve_triangular], in the
    lower-triangular convention the filter uses.  Only the lower
    triangle of the argument is read. *)

Module lapack.

(** Forward substitution, [L y = b]: the first [i] entries of y. *)
Fixpoint forward_subst (L : matrix) (b : vector) (i : nat) : vector :=
  match i with
  | O => []
  | S k =>
      let y := forward_subst L b k in
      y ++ [(vget b k - rsum k (fun j => mget L k j * vget y j)) / mget L k k]
  end.

(** Backward substitution with the transpose, [L^T z = y], for L of
    order n: the last [t] entries of z. *)
Fixpoint backward_subst (L : matrix) (y : vector) (n t : nat) : vector :=
  match t with
  | O => []
  | S t' =>
      let zs := backward_subst L y n t' in
      let i := (n - S t')%nat in
      (vget y i - rsum t' (fun s => mget L (i + 1 + s) i * vget zs s)) / mget L i i
        :: zs
  end.

(** The factorisation, row by row: the first [i] rows of the factor.
    Row k is the solution of [L_k y = a[k, :k]] followed by the square
    root of the pivot [a[k, k] - y.y]; the entries right of the
    diagonal are left as they are in [a].  [None] when a pivot is not
    positive. *)
Fixpoint potrf (a : matrix) (i : nat) : option matrix :=
  match i with
  | O => Some []
  | S k =>
      match potrf a k with
      | None => None
      | Some Ls =>
          let y := forward_subst Ls (nth k a []) k in
          let d := mget a k k - rsum k (fun j => vget y j * vget y j) in
          if Rlt_dec 0 d
          then Some (Ls ++ [y ++ sqrt d :: skipn (S k) (nth k a [])])
          else None
      end
  end.

(** The lower triangle of a square array, zero above the diagonal. *)
Definition tril (L : matrix) : matrix :=
  mk_mat (nrows L) (ncols L) (fun i j => if (j <=? i)%nat then mget L i j else 0).

End lapack.

Module np.

Definition eye (n m : nat) : matrix :=
  mk_mat n m (fun i j => if (i =? j)%nat then 1 else 0).

Definition zeros_like (v : vector) : vector := map (fun _ => 0) v.
Definition ones_like (v : vector) : vector := map (fun _ => 1) v.

Definition r_ {A : Type} (a b : list A) : list A := a ++ b.

Definition square (v : vector) : vector := map (fun x => x * x) v.

Definition diag (v : vector) : matrix :=
  mk_mat (length v) (length v) (fun i j => if (i =? j)%nat then vget v i else 0).

(** [M.T] *)
Definition T (M : matrix) : matrix := transpose M.

(** [M.T] for an array of m columns.  The list of the rows of an array
    without rows does not record its number of columns; where the
    source transposes an array that can be empty, that number is
    passed: the transpose of a 0 x m array is m x 0, m empty rows.  On
    an array with rows this is [T]. *)
Definition T_of_width (m : nat) (M : matrix) : matrix :=
  match M with
  | [] => repeat [] m
  | _ :: _ => T M
  end.

(** [np.dot] of a one-dimensional array and a matrix. *)
Definition dot_vm (v : vector) (M : matrix) : result vector :=
  if (length v =? nrows M)%nat
  then Ok (vec_mat v M)
  else Raise (ValueError "shapes not aligned").

(** [np.dot] of a matrix and a one-dimensional array. *)
Definition dot_mv (M : matrix) (v : vector) : result vector :=
  if (ncols M =? length v)%nat
  then Ok (mat_vec M v)
  else Raise (ValueError "shapes not aligned").

(** [np.dot] of two matrices. *)
Definition dot (A B : matrix) : result matrix :=
  if (ncols A =? nrows B)%nat
  then Ok (mat_mul A B)
  else Raise (ValueError "shapes not aligned").

(** [np.dot] of a matrix and a stack of matrices:
    [dot(A, C)[i, k, m] = sum_j A[i, j] * C[k, j, m]]. *)
Definition dot_m3 (A : matrix) (C : list matrix) : result (list (list vector)) :=
  if forallb (fun Ck => (ncols A =? nrows Ck)%nat) C
  then Ok (map (fun i =>
                  map (fun Ck => mk_vec (ncols Ck)
                                   (fun m => rsum (ncols A) (fun j => mget A i j * mget Ck j m)))
                      C)
               (seq 0 (nrows A)))
  else Raise (ValueError "shapes not aligned").

(** [X.transpose((1, 0, 2))] on a three-dimensional array. *)
Definition transpose102 (X : list (list vector)) : list (list vector) :=
  map (fun k => map (fun i => nth k (nth i X []) []) (seq 0 (length X)))
      (seq 0 (length (hd [] X))).

(** [np.dot] of a stack of matrices and a matrix:
    [dot(X, B)[k, i, n] = sum_m X[k, i, m] * B[m, n]]. *)
Definition dot_3m (X : list matrix) (B : matrix) : result (list matrix) :=
  mapM (fun Xk => dot Xk B) X.

Definition add (u v : vector) : result vector := broadcast1 Rplus u v.
Definition subtract (u v : vector) : result vector := broadcast1 Rminus u v.

Definition add2 (A B : matrix) : result matrix := elementwise2 Rplus A B.
Definition subtract2 (A B : matrix) : result matrix := elementwise2 Rminus A B.

(** A two-dimensional array minus a one-dimensional one: the vector is
    broadcast over the rows. *)
Definition subtract_rows (M : matrix) (v : vector) : result matrix :=
  mapM (fun row => subtract row v) M.

(** A stack of matrices plus a stack of matrices, as [multi_predict]
    adds them: the right operand is [np.asarray] of a Python list of
    matrices.  Made from an empty list it has shape (0,), which does
    not broadcast against (N, 8, 8); otherwise the stacks are added
    matrix by matrix, a stack of one matrix being broadcast over the
    other stack. *)
Definition add3 (X Y : list matrix) : result (list matrix) :=
  if (length Y =? 0)%nat
  then Raise (ValueError "operands could not be broadcast together")
  else if (length X =? length Y)%nat then zipM add2 X Y
  else if (length X =? 1)%nat then mapM (fun Yk => add2 (hd [] X) Yk) Y
  else if (length Y =? 1)%nat then mapM (fun Xk => add2 Xk (hd [] Y)) X
  else Raise (ValueError "operands could not be broadcast together").

Definition multiply2 (A B : matrix) : result matrix := elementwise2 Rmult A B.

(** [np.sum(M, axis=1)]: one sum per row. *)
Definition sum_axis1 (M : matrix) : vector :=
  map (fun row => rsum (length row) (vget row)) M.

(** [np.sum(M, axis=0)]: one sum per column. *)
Definition sum_axis0 (M : matrix) : vector :=
  mk_vec (ncols M) (fun j => rsum (nrows M) (fun i => mget M i j)).

Module linalg.

(** [np.linalg.multi_dot] of three matrices: the cheaper of the two
    parenthesisations, the right one on a tie. *)
Definition multi_dot (A B C : matrix) : result matrix :=
  let a0 := nrows A in
  let a1b0 := ncols A in
  let b1c0 := nrows C in
  let c1 := ncols C in
  let cost1 := (a0 * b1c0 * (a1b0 + c1))%nat in
  let cost2 := (a1b0 * c1 * (a0 + b1c0))%nat in
  if (cost1 <? cost2)%nat
  then AB <- dot A B ;; dot AB C
  else BC <- dot B C ;; dot A BC.

(** [np.linalg.cholesky]: the lower factor, zero above the diagonal. *)
Definition cholesky (a : matrix) : result matrix :=
  if negb (nrows a =? ncols a)%nat
  then Raise (LinAlgError "Last 2 dimensions of the array must be square")
  else
    match lapack.potrf a (nrows a) with
    | Some c => Ok (lapack.tril c)
    | None => Raise (LinAlgError "Matrix is not positive definite")
    end.

End linalg.

End np.

Module scipy.
Module linalg.

(** [scipy.linalg.cho_factor(a, lower)]: the factor in the triangle
    asked for, the other triangle as LAPACK leaves it. *)
Definition cho_factor (a : matrix) (lower : bool) : result (matrix * bool) :=
  if negb (nrows a =? ncols a)%nat
  then Raise (ValueError "expected square matrix")
  else
    match lapack.potrf (if lower then a else np.T a) (nrows a) with
    | Some c => Ok (if lower then c else np.T c, lower)
    | None => Raise (LinAlgError "leading minor of the array is not positive definite")
    end.

(** [scipy.linalg.cho_solve((c, lower), b)] for a two-dimensional
    [b]: every column of b is solved by a forward and a backward
    substitution. *)
Definition cho_solve (c_and_lower : matrix * bool) (b : matrix) : result matrix :=
  let '(c, lower) := c_and_lower in
  if negb (nrows c =? ncols c)%nat
  then Raise (ValueError "the factored matrix c is not square")
  else if negb (ncols c =? nrows b)%nat
  then Raise (ValueError "incompatible dimensions")
  else
    let L := if lower then c else np.T c in
    let n := nrows c in
    Ok (np.T (map (fun col =>
                     lapack.backward_subst L (lapack.forward_subst L col n) n n)
                  (np.T b))).

(** [scipy.linalg.solve_triangular(a, b, lower=True)] for a
    two-dimensional [b]; a zero on the diagonal is reported as a
    singular matrix.  Every column of b is solved by a forward
    substitution; the solutions, [nrows a] long each, are the columns
    of the result. *)
Definition solve_triangular (a b : matrix) : result matrix :=
  if negb (nrows a =? ncols a)%nat
  then Raise (ValueError "expected square matrix")
  else if negb (nrows a =? nrows b)%nat
  then Raise (ValueError "shapes of a and b are incompatible")
  else if existsb (fun i => if Req_dec_T (mget a i i) 0 then true else false)
            (seq 0 (nrows a))
  then Raise (LinAlgError "singular matrix")
  else Ok (np.T_of_width (nrows a)
             (map (fun col => lapack.forward_subst a col (nrows a)) (np.T b))).

End linalg.
End scipy.

(* ================================================================= *)
(** ** The filter *)

(** The attributes the constructor sets. *)
Record KalmanFilter : Type := {
  _motion_mat : matrix;
  _update_mat : matrix;
  _std_weight_position : R;
  _std_weight_velocity : R
}.

(** [KalmanFilter.__init__]: the identity with the time step written at
    [i, ndim + i], the leading 4 x 8 identity, and the two weights. *)
Definition __init__ : KalmanFilter :=
  let ndim := 4%nat in
  let delta_time_step := 1.0 in
  let motion_mat :=
    fold_left (fun M i => setitem2 M i (ndim + i) delta_time_step)
      (seq 0 ndim) (np.eye (2 * ndim) (2 * ndim)) in
  {| _motion_mat := motion_mat;
     _update_mat := np.eye ndim (2 * ndim);
     _std_weight_position := 1.0 / 20;
     _std_weight_velocity := 1.0 / 160 |}.

(** [KalmanFilter.initiate].  [measurement[3]] is the one index that can
    be out of bounds. *)
Definition initiate (self : KalmanFilter) (measurement : vector)
  : result (vector * matrix) :=
  let mean_pos := measurement in
  let mean_vel := np.zeros_like mean_pos in
  let mean := np.r_ mean_pos mean_vel in
  h <- getitem measurement 3 ;;
  let std := [
    2 * _std_weight_position self * h;
    2 * _std_weight_position self * h;
    1e-2;
    2 * _std_weight_position self * h;
    10 * _std_weight_velocity self * h;
    10 * _std_weight_velocity self * h;
    1e-5;
    10 * _std_weight_velocity self * h
  ] in
  let covariance := np.diag (np.square std) in
  Ok (mean, covariance).

(** [KalmanFilter.predict]. *)
Definition predict (self : KalmanFilter) (mean : vector) (covariance : matrix)
  : result (vector * matrix) :=
  h <- getitem mean 3 ;;
  let std_pos := [
    _std_weight_position self * h;
    _std_weight_position self * h;
    1e-2;
    _std_weight_position self * h
  ] in
  let std_vel := [
    _std_weight_velocity self * h;
    _std_weight_velocity self * h;
    1e-5;
    _std_weight_velocity self * h
  ] in
  let motion_cov := np.diag (np.square (np.r_ std_pos std_vel)) in
  mean <- np.dot_vm mean (np.T (_motion_mat self)) ;;
  c <- np.linalg.multi_dot (_motion_mat self) covariance (np.T (_motion_mat self)) ;;
  covariance <- np.add2 c motion_cov ;;
  Ok (mean, covariance).

(** [KalmanFilter.project]. *)
Definition project (self : KalmanFilter) (mean : vector) (covariance : matrix)
  : result (vector * matrix) :=
  h <- getitem mean 3 ;;
  let std := [
    _std_weight_position self * h;
    _std_weight_position self * h;
    1e-1;
    _std_weight_position self * h
  ] in
  let innovation_cov := np.diag (np.square std) in
  mean <- np.dot_mv (_update_mat self) mean ;;
  covariance <- np.linalg.multi_dot (_update_mat self) covariance
                  (np.T (_update_mat self)) ;;
  r <- np.add2 covariance innovation_cov ;;
  Ok (mean, r).

(** [KalmanFilter.multi_predict]: [mean] is N x 8, [covariance] is
    N x 8 x 8; [h] is the column [mean[:, 3]]. *)
Definition multi_predict (self : KalmanFilter) (mean : matrix) (covariance : list matrix)
  : result (matrix * list matrix) :=
  h <- mapM (fun row => getitem row 3) mean ;;
  let std_pos := [
    scale (_std_weight_position self) h;
    scale (_std_weight_position self) h;
    scale 1e-2 (np.ones_like h);
    scale (_std_weight_position self) h
  ] in
  let std_vel := [
    scale (_std_weight_velocity self) h;
    scale (_std_weight_velocity self) h;
    scale 1e-5 (np.ones_like h);
    scale (_std_weight_velocity self) h
  ] in
  let sqr := np.T (map np.square (np.r_ std_pos std_vel)) in
  let motion_cov := map (fun i => np.diag (nth i sqr [])) (seq 0 (length mean)) in
  mean <- np.dot mean (np.T (_motion_mat self)) ;;
  y <- np.dot_m3 (_motion_mat self) covariance ;;
  let left := np.transpose102 y in
  c <- np.dot_3m left (np.T (_motion_mat self)) ;;
  covariance <- np.add3 c motion_cov ;;
  Ok (mean, covariance).

(** [KalmanFilter.update]. *)
Definition update (self : KalmanFilter) (mean : vector) (covariance : matrix)
  (measurement : vector) : result (vector * matrix) :=
  '(projected_mean, projected_cov) <- project self mean covariance ;;
  factor <- scipy.linalg.cho_factor projected_cov true ;;
  b <- np.dot covariance (np.T (_update_mat self)) ;;
  x <- scipy.linalg.cho_solve factor (np.T b) ;;
  let kalman_gain := np.T x in
  innovation <- np.subtract measurement projected_mean ;;
  d <- np.dot_vm innovation (np.T kalman_gain) ;;
  new_mean <- np.add mean d ;;
  ksk <- np.linalg.multi_dot kalman_gain projected_cov (np.T kalman_gain) ;;
  new_covariance <- np.subtract2 covariance ksk ;;
  Ok (new_mean, new_covariance).

(** [KalmanFilter.gating_distance].  The metric is compared after the
    projection, the restriction and the subtraction, as in the source.
    [dist] has the width of the mean it was subtracted from, also for a
    batch without measurements. *)
Definition gating_distance (self : KalmanFilter) (mean : vector) (covariance : matrix)
  (measurements : matrix) (only_position : bool) (metric : string) : result vector :=
  '(mean, covariance) <- project self mean covariance ;;
  let '(mean, covariance, measurements) :=
    if only_position
    then (firstn 2 mean, map (firstn 2) (firstn 2 covariance), map (firstn 2) measurements)
    else (mean, covariance, measurements) in
  dist <- np.subtract_rows measurements mean ;;
  if (metric =? "gaussian")%string then
    sq <- np.multiply2 dist dist ;;
    Ok (np.sum_axis1 sq)
  else if (metric =? "maha")%string then
    cholesky_factor <- np.linalg.cholesky covariance ;;
    maha <- scipy.linalg.solve_triangular cholesky_factor
              (np.T_of_width (length mean) dist) ;;
    sq <- np.multiply2 maha maha ;;
    let squared_maha := np.sum_axis0 sq in
    Ok squared_maha
  else Raise (ValueError "Invalid distance metric.").

(* ================================================================= *)
(** ** The filter in binary64

    The same methods on the scalars the program computes with: IEEE 754
    binary64 numbers, every operation rounded to nearest.  [np.dot]
    leaves the order of a sum to the BLAS library; here a sum is
    accumulated from its first term on.  The statements made on this
    model are about sums with at most two terms that are not zero, on
    which every order gives the same result. *)

Module b64.

Local Open Scope float_scope.

Definition vector := list float.
Definition matrix := list (list float).

Definition vget (v : vector) (i : nat) : float := nth i v 0.
Definition mget (M : matrix) (i j : nat) : float := nth j (nth i M []) 0.

Definition nrows (M : matrix) : nat := length M.
Definition ncols (M : matrix) : nat := length (hd [] M).

Definition is_vec (n : nat) (v : vector) : Prop := length v = n.
Definition is_mat (n m : nat) (M : matrix) : Prop :=
  length M = n /\ Forall (fun row => length row = m) M.

(** f 0 + ... + f (n-1), rounded after every addition. *)
Fixpoint fsum (n : nat) (f : nat -> float) : float :=
  match n with
  | O => 0
  | S k => fsum k f + f k
  end.

Definition mk_vec (n : nat) (f : nat -> float) : vector := map f (seq 0 n).
Definition mk_mat (n m : nat) (f : nat -> nat -> float) : matrix :=
  map (fun i => mk_vec m (f i)) (seq 0 n).

Definition getitem (v : vector) (i : nat) : result float :=
  match nth_error v i with
  | Some x => Ok x
  | None => Raise IndexError
  end.

Definition setitem2 (M : matrix) (i j : nat) (x : float) : matrix :=
  mk_mat (nrows M) (ncols M)
    (fun a b => if (a =? i)%nat && (b =? j)%nat then x else mget M a b).

Definition scale (c : float) (v : vector) : vector := map (fun x => c * x) v.

Definition vec_mat (v : vector) (M : matrix) : vector :=
  mk_vec (ncols M) (fun j => fsum (length v) (fun k => vget v k * mget M k j)).

Definition mat_vec (M : matrix) (v : vector) : vector :=
  mk_vec (nrows M) (fun i => fsum (ncols M) (fun k => mget M i k * vget v k)).

Definition mat_mul (A B : matrix) : matrix :=
  mk_mat (nrows A) (ncols B) (fun i j => fsum (ncols A) (fun k => mget A i k * mget B k j)).

Definition mat_map2 (f : float -> float -> float) (A B : matrix) : matrix :=
  mk_mat (nrows A) (ncols A) (fun i j => f (mget A i j) (mget B i j)).

Definition transpose (M : matrix) : matrix :=
  mk_mat (ncols M) (nrows M) (fun i j => mget M j i).

Definition elementwise2 (f : float -> float -> float) (A B : matrix) : result matrix :=
  if (nrows A =? nrows B)%nat && (ncols A =? ncols B)%nat
  then Ok (mat_map2 f A B)
  else Raise (ValueError "operands could not be broadcast together").

Module np.

Definition eye (n m : nat) : matrix :=
  mk_mat n m (fun i j => if (i =? j)%nat then 1 else 0).

Definition zeros_like (v : vector) : vector := map (fun _ => 0) v.
Definition ones_like (v : vector) : vector := map (fun _ => 1) v.

Definition r_ {A : Type} (a b : list A) : list A := a ++ b.

Definition square (v : vector) : vector := map (fun x => x * x) v.

Definition diag (v : vector) : matrix :=
  mk_mat (length v) (length v) (fun i j => if (i =? j)%nat then vget v i else 0).

Definition T (M : matrix) : matrix := transpose M.

Definition dot_vm (v : vector) (M : matrix) : result vector :=
  if (length v =? nrows M)%nat
  then Ok (vec_mat v M)
  else Raise (ValueError "shapes not aligned").

Definition dot_mv (M : matrix) (v : vector) : result vector :=
  if (ncols M =? length v)%nat
  then Ok (mat_vec M v)
  else Raise (ValueError "shapes not aligned").

Definition dot (A B : matrix) : result matrix :=
  if (ncols A =? nrows B)%nat
  then Ok (mat_mul A B)
  else Raise (ValueError "shapes not aligned").

Definition dot_m3 (A : matrix) (C : list matrix) : result (list (list vector)) :=
  if forallb (fun Ck => (ncols A =? nrows Ck)%nat) C
  then Ok (map (fun i =>
                  map (fun Ck => mk_vec (ncols Ck)
                                   (fun m => fsum (ncols A) (fun j => mget A i j * mget Ck j m)))
                      C)
               (seq 0 (nrows A)))
  else Raise (ValueError "shapes not aligned").

Definition transpose102 (X : list (list vector)) : list (list vector) :=
  map (fun k => map (fun i => nth k (nth i X []) []) (seq 0 (length X)))
      (seq 0 (length (hd [] X))).

Definition dot_3m (X : list matrix) (B : matrix) : result (list matrix) :=
  mapM (fun Xk => dot Xk B) X.

Definition add2 (A B : matrix) : result matrix := elementwise2 add A B.

Definition add3 (X Y : list matrix) : result (list matrix) :=
  if (length Y =? 0)%nat
  then Raise (ValueError "operands could not be broadcast together")
  else if (length X =? length Y)%nat then zipM add2 X Y
  else if (length X =? 1)%nat then mapM (fun Yk => add2 (hd [] X) Yk) Y
  else if (length Y =? 1)%nat then mapM (fun Xk => add2 Xk (hd [] Y)) X
  else Raise (ValueError "operands could not be broadcast together").

Module linalg.

Definition multi_dot (A B C : matrix) : result matrix :=
  let a0 := nrows A in
  let a1b0 := ncols A in
  let b1c0 := nrows C in
  let c1 := ncols C in
  let cost1 := (a0 * b1c0 * (a1b0 + c1))%nat in
  let cost2 := (a1b0 * c1 * (a0 + b1c0))%nat in
  if (cost1 <? cost2)%nat
  then AB <- dot A B ;; dot AB C
  else BC <- dot B C ;; dot A BC.

End linalg.

End np.

Record KalmanFilter : Type := {
  _motion_mat : matrix;
  _update_mat : matrix;
  _std_weight_position : float;
  _std_weight_velocity : float
}.

Definition __init__ : KalmanFilter :=
  let ndim := 4%nat in
  let delta_time_step := 1.0 in
  let motion_mat :=
    fold_left (fun M i => setitem2 M i (ndim + i) delta_time_step)
      (seq 0 ndim) (np.eye (2 * ndim) (2 * ndim)) in
  {| _motion_mat := motion_mat;
     _update_mat := np.eye ndim (2 * ndim);
     _std_weight_position := 1.0 / 20;
     _std_weight_velocity := 1.0 / 160 |}.

Definition initiate (self : KalmanFilter) (measurement : vector)
  : result (vector * matrix) :=
  let mean_pos := measurement in
  let mean_vel := np.zeros_like mean_pos in
  let mean := np.r_ mean_pos mean_vel in
  h <- getitem measurement 3 ;;
  let std := [
    2 * _std_weight_position self * h;
    2 * _std_weight_position self * h;
    1e-2;
    2 * _std_weight_position self * h;
    10 * _std_weight_velocity self * h;
    10 * _std_weight_velocity self * h;
    1e-5;
    10 * _std_weight_velocity self * h
  ] in
  let covariance := np.diag (np.square std) in
  Ok (mean, covariance).

Definition predict (self : KalmanFilter) (mean : vector) (covariance : matrix)
  : result (vector * matrix) :=
  h <- getitem mean 3 ;;
  let std_pos := [
    _std_weight_position self * h;
    _std_weight_position self * h;
    1e-2;
    _std_weight_position self * h
  ] in
  let std_vel := [
    _std_weight_velocity self * h;
    _std_weight_velocity self * h;
    1e-5;
    _std_weight_velocity self * h
  ] in
  let motion_cov := np.diag (np.square (np.r_ std_pos std_vel)) in
  mean <- np.dot_vm mean (np.T (_motion_mat self)) ;;
  c <- np.linalg.multi_dot (_motion_mat self) covariance (np.T (_motion_mat self)) ;;
  covariance <- np.add2 c motion_cov ;;
  Ok (mean, covariance).

Definition project (self : KalmanFilter) (mean : vector) (covariance : matrix)
  : result (vector * matrix) :=
  h <- getitem mean 3 ;;
  let std := [
    _std_weight_position self * h;
    _std_weight_position self * h;
    1e-1;
    _std_weight_position self * h
  ] in
  let innovation_cov := np.diag (np.square std) in
  mean <- np.dot_mv (_update_mat self) mean ;;
  covariance <- np.linalg.multi_dot (_update_mat self) covariance
                  (np.T (_update_mat self)) ;;
  r <- np.add2 covariance innovation_cov ;;
  Ok (mean, r).

Definition multi_predict (self : KalmanFilter) (mean : matrix) (covariance : list matrix)
  : result (matrix * list matrix) :=
  h <- mapM (fun row => getitem row 3) mean ;;
  let std_pos := [
    scale (_std_weight_position self) h;
    scale (_std_weight_position self) h;
    scale 1e-2 (np.ones_like h);
    scale (_std_weight_position self) h
  ] in
  let std_vel := [
    scale (_std_weight_velocity self) h;
    scale (_std_weight_velocity self) h;
    scale 1e-5 (np.ones_like h);
    scale (_std_weight_velocity self) h
  ] in
  let sqr := np.T (map np.square (np.r_ std_pos std_vel)) in
  let motion_cov := map (fun i => np.diag (nth i sqr [])) (seq 0 (length mean)) in
  mean <- np.dot mean (np.T (_motion_mat self)) ;;
  y <- np.dot_m3 (_motion_mat self) covariance ;;
  let left := np.transpose102 y in
  c <- np.dot_3m left (np.T (_motion_mat self)) ;;
  covariance <- np.add3 c motion_cov ;;
  Ok (mean, covariance).

End b64.

(* ================================================================= *)
(** * Notions used in the statements *)

(** The process noise of [predict] for a state whose height is h. *)
Definition process_noise (self : KalmanFilter) (h : R) : matrix :=
  np.diag (np.square (np.r_
    [_std_weight_position self * h; _std_weight_position self * h; 1e-2;
     _std_weight_position self * h]
    [_std_weight_velocity self * h; _std_weight_velocity self * h; 1e-5;
     _std_weight_velocity self * h])).

(** The transition matrix in the words of the specification: the
    identity, with A[i, 4+i] = 1 for i < 4. *)
Definition spec_transition : matrix :=
  mk_mat 8 8 (fun i j =>
    if (i =? j)%nat then 1
    else if (i <? 4)%nat && (j =? 4 + i)%nat then 1 else 0).

(** The process noise in the words of the specification: diagonal, the
    entries the squares of the weighted height, the aspect-ratio entries
    fixed. *)
Definition spec_process_noise (mean : vector) : matrix :=
  let position_weight := 1 / 20 in
  let velocity_weight := 1 / 160 in
  let h := vget mean 3 in
  let std := [position_weight * h; position_weight * h; 1e-2; position_weight * h;
              velocity_weight * h; velocity_weight * h; 1e-5; velocity_weight * h] in
  mk_mat 8 8 (fun i j => if (i =? j)%nat then vget std i * vget std i else 0).

(** The standard deviations [initiate] squares, for a box of height h. *)
Definition initiate_std (h : R) : vector :=
  [2 * (1 / 20) * h; 2 * (1 / 20) * h; 1e-2; 2 * (1 / 20) * h;
   10 * (1 / 160) * h; 10 * (1 / 160) * h; 1e-5; 10 * (1 / 160) * h].

(** The claim C7 as it is worded: every diagonal entry of the initial
    covariance is proportional to the height of the measured box. *)
Definition initiate_variances_proportional_to_height : Prop :=
  exists c : nat -> R,
    forall (measurement mean : vector) (covariance : matrix),
      is_vec 4 measurement -> 0 < vget measurement 3 ->
      initiate __init__ measurement = Ok (mean, covariance) ->
      forall i, (i < 8)%nat -> mget covariance i i = c i * vget measurement 3.

(** The lower triangle of L as a function of the indices. *)
Definition low (L : matrix) (i j : nat) : R :=
  if (j <=? i)%nat then mget L i j else 0.

Definition symmetric (n : nat) (M : matrix) : Prop :=
  forall i j, (i < n)%nat -> (j < n)%nat -> mget M i j = mget M j i.

(** The quadratic form x^T M x. *)
Definition quad_form (n : nat) (M : matrix) (x : vector) : R :=
  rsum n (fun i => rsum n (fun j => vget x i * mget M i j * vget x j)).

Definition positive_semidefinite (n : nat) (M : matrix) : Prop :=
  forall x, is_vec n x -> 0 <= quad_form n M x.

Definition positive_definite (n : nat) (M : matrix) : Prop :=
  forall x, is_vec n x -> (exists i, (i < n)%nat /\ vget x i <> 0) -> 0 < quad_form n M x.


(** What holds of the first i rows of the factor. *)
Definition cholesky_rows (a : matrix) (n i : nat) (Ls : matrix) : Prop :=
  is_mat i n Ls
  /\ (forall r, (r < i)%nat -> 0 < mget Ls r r)
  /\ (forall r c, (r < i)%nat -> (c <= r)%nat ->
        rsum (S c) (fun j => mget Ls r j * mget Ls c j) = mget a r c).

(** The observation noise of [project] for a state whose height is h. *)
Definition innovation_cov (self : KalmanFilter) (h : R) : matrix :=
  np.diag (np.square
    [_std_weight_position self * h; _std_weight_position self * h; 1e-1;
     _std_weight_position self * h]).

(** The Kalman gain [update] computes from the factor c of the projected
    covariance: row i solves the system against row i of P.H^T. *)
Definition gain_of (c covariance : matrix) : matrix :=
  map (fun col => lapack.backward_subst c (lapack.forward_subst c col 4) 4 4)
      (mat_mul covariance (transpose (_update_mat __init__))).

(** u^T M v for M, u and v given by their entries. *)
Definition bil (n : nat) (M : nat -> nat -> R) (u v : nat -> R) : R :=
  rsum n (fun i => rsum n (fun j => u i * M i j * v j)).

(** A state to try the correction step on: the track that [initiate]
    opens on the box (100, 50, 0.5, 200). *)
Definition sample_mean : vector := [100; 50; 0.5; 200; 0; 0; 0; 0].

Definition sample_covariance : matrix := np.diag (np.square (initiate_std 200)).

Definition sample_projection : vector * matrix :=
  (mat_vec (_update_mat __init__) sample_mean,
   mat_map2 Rplus
     (mat_mul (_update_mat __init__)
        (mat_mul sample_covariance (transpose (_update_mat __init__))))
     (innovation_cov __init__ (vget sample_mean 3))).

(** The difference of a measurement and the projected mean. *)
Definition diff (mean z : vector) : vector :=
  map (fun p => fst p - snd p) (combine z mean).

(** What [gating_distance] computes once the projection is restricted
    (or not) to the position: the lines of the method from
    [dist = measurements - mean] on, with the differences taken. *)
Definition gating_kernel (mean : vector) (covariance measurements : matrix)
  (metric : string) : result vector :=
  let dist := map (diff mean) measurements in
  if (metric =? "gaussian")%string then
    sq <- np.multiply2 dist dist ;; Ok (np.sum_axis1 sq)
  else if (metric =? "maha")%string then
    cholesky_factor <- np.linalg.cholesky covariance ;;
    maha <- scipy.linalg.solve_triangular cholesky_factor
              (np.T_of_width (length mean) dist) ;;
    sq <- np.multiply2 maha maha ;;
    Ok (np.sum_axis0 sq)
  else Raise (ValueError "Invalid distance metric.").

(** The claim C6 as it is worded: whatever the arguments, an
    unrecognised metric is what the call fails on. *)
Definition gating_rejects_metric_before_anything_else : Prop :=
  forall (mean : vector) (covariance measurements : matrix) (only_position : bool)
         (metric : string),
    metric <> "gaussian"%string -> metric <> "maha"%string ->
    gating_distance __init__ mean covariance measurements only_position metric
    = Raise (ValueError "Invalid distance metric.").

(** The squared distances in the words of the specification, one
    measurement at a time: the sum of the squared differences, or the
    sum of the squares of the solution of the triangular system of the
    Cholesky factor against the difference. *)
Definition spec_squared_distances (mean : vector) (covariance measurements : matrix)
  (metric : string) : result vector :=
  let d := length mean in
  if (metric =? "gaussian")%string then
    Ok (map (fun z => rsum d (fun k => vget (diff mean z) k * vget (diff mean z) k))
            measurements)
  else if (metric =? "maha")%string then
    L <- np.linalg.cholesky covariance ;;
    Ok (map (fun z =>
               let y := lapack.forward_subst L (diff mean z) d in
               rsum d (fun k => vget y k * vget y k))
            measurements)
  else Raise (ValueError "Invalid distance metric.").

(** [predict] called n times in a row, the way a track is carried over
    the frames in which nothing is associated with it. *)
Fixpoint coast (self : KalmanFilter) (n : nat) (mean : vector) (covariance : matrix)
  : result (vector * matrix) :=
  match n with
  | O => Ok (mean, covariance)
  | S k => '(m, c) <- coast self k mean covariance ;; predict self m c
  end.

(** The number of leading components [gating_distance] compares: two
    with [only_position], four without. *)
Definition gating_dim (only_position : bool) : nat := if only_position then 2 else 4.

(** ** The claims about results, read on the binary64 arrays *)








(** The claim C5 as it is worded, on the arrays the program computes
    with: the diagonal is exactly the numbers listed, 1e-10 among
    them. *)
Definition initiate_diagonal_exact_in_binary64 : Prop :=
  b64.initiate b64.__init__ [100; 50; 0.5; 200]%float
  = Ok ([100; 50; 0.5; 200; 0; 0; 0; 0]%float,
        b64.np.diag [400; 400; 1e-4; 400; 156.25; 156.25; 1e-10; 156.25]%float).

(* ================================================================= *)
(** * Properties *)

(** ** Sums *)

Lemma rsum_ext (n : nat) (f g : nat -> R) :
  (forall k, (k < n)%nat -> f k = g k) -> rsum n f = rsum n g.
Proof.
  induction n as [|n IH]; intros H; simpl; [reflexivity|].
  rewrite IH by (intros; apply H; lia).
  rewrite (H n) by lia. reflexivity.
Qed.

Lemma rsum_zero (n : nat) (f : nat -> R) :
  (forall k, (k < n)%nat -> f k = 0) -> rsum n f = 0.
Proof.
  induction n as [|n IH]; intros H; simpl; [reflexivity|].
  rewrite IH by (intros; apply H; lia).
  rewrite (H n) by lia. lra.
Qed.

Lemma rsum_plus (n : nat) (f g : nat -> R) :
  rsum n (fun k => f k + g k) = rsum n f + rsum n g.
Proof. induction n as [|n IH]; simpl; [|rewrite IH]; lra. Qed.

Lemma rsum_minus (n : nat) (f g : nat -> R) :
  rsum n (fun k => f k - g k) = rsum n f - rsum n g.
Proof. induction n as [|n IH]; simpl; [|rewrite IH]; lra. Qed.

Lemma rsum_mult_l (n : nat) (c : R) (f : nat -> R) :
  rsum n (fun k => c * f k) = c * rsum n f.
Proof. induction n as [|n IH]; simpl; [|rewrite IH]; lra. Qed.

Lemma rsum_mult_r (n : nat) (c : R) (f : nat -> R) :
  rsum n (fun k => f k * c) = rsum n f * c.
Proof. induction n as [|n IH]; simpl; [|rewrite IH]; lra. Qed.

Lemma rsum_swap (n m : nat) (f : nat -> nat -> R) :
  rsum n (fun i => rsum m (fun j => f i j)) = rsum m (fun j => rsum n (fun i => f i j)).
Proof.
  induction n as [|n IH]; simpl.
  - symmetry. apply rsum_zero. reflexivity.
  - rewrite IH, <- rsum_plus. reflexivity.
Qed.

Lemma rsum_nonneg (n : nat) (f : nat -> R) :
  (forall k, (k < n)%nat -> 0 <= f k) -> 0 <= rsum n f.
Proof.
  induction n as [|n IH]; intros H; simpl; [lra|].
  assert (0 <= rsum n f) by (apply IH; intros; apply H; lia).
  assert (0 <= f n) by (apply H; lia). lra.
Qed.

Lemma rsum_delta (n i : nat) (f : nat -> R) :
  (i < n)%nat -> rsum n (fun k => if (k =? i)%nat then f k else 0) = f i.
Proof.
  induction n as [|n IH]; intros Hi; [lia|]. simpl.
  destruct (Nat.eqb_spec n i) as [->|Hne].
  - rewrite rsum_zero; [lra|]. intros k Hk.
    destruct (Nat.eqb_spec k i); [lia|reflexivity].
  - rewrite IH by lia. lra.
Qed.

Lemma rsum_extend (n m : nat) (f : nat -> R) :
  (n <= m)%nat -> (forall k, (n <= k < m)%nat -> f k = 0) -> rsum m f = rsum n f.
Proof.
  induction m as [|m IH]; intros Hle Hz.
  - replace n with 0%nat by lia. reflexivity.
  - destruct (Nat.eq_dec n (S m)) as [->|Hne]; [reflexivity|].
    simpl. rewrite IH by (try lia; intros; apply Hz; lia).
    rewrite Hz by lia. lra.
Qed.

(** ** Arrays built from their entries *)

Lemma length_mk_vec (n : nat) (f : nat -> R) : length (mk_vec n f) = n.
Proof. unfold mk_vec. rewrite length_map, length_seq. reflexivity. Qed.

Lemma vget_mk_vec (n : nat) (f : nat -> R) (i : nat) :
  (i < n)%nat -> vget (mk_vec n f) i = f i.
Proof.
  intros Hi. unfold vget, mk_vec.
  rewrite (nth_indep _ 0 (f 0%nat)) by (rewrite length_map, length_seq; exact Hi).
  rewrite map_nth, seq_nth by exact Hi. reflexivity.
Qed.

Lemma mk_vec_ext (n : nat) (f g : nat -> R) :
  (forall i, (i < n)%nat -> f i = g i) -> mk_vec n f = mk_vec n g.
Proof.
  intros H. unfold mk_vec. apply map_ext_in.
  intros i Hi. apply in_seq in Hi. apply H. lia.
Qed.

Lemma vec_eta (n : nat) (v : vector) : is_vec n v -> v = mk_vec n (vget v).
Proof.
  intros Hv. apply (nth_ext _ _ 0 0).
  - rewrite length_mk_vec. exact Hv.
  - intros i Hi. change (vget v i = vget (mk_vec n (vget v)) i).
    rewrite vget_mk_vec; [reflexivity|]. unfold is_vec in Hv. lia.
Qed.

Lemma vec_ext (n : nat) (u v : vector) :
  is_vec n u -> is_vec n v ->
  (forall i, (i < n)%nat -> vget u i = vget v i) -> u = v.
Proof.
  intros Hu Hv H. rewrite (vec_eta Hu), (vec_eta Hv). apply mk_vec_ext, H.
Qed.

Lemma is_mat_mk_mat (n m : nat) (f : nat -> nat -> R) : is_mat n m (mk_mat n m f).
Proof.
  unfold is_mat, mk_mat. split.
  - rewrite length_map, length_seq. reflexivity.
  - apply Forall_forall. intros row Hrow.
    apply in_map_iff in Hrow. destruct Hrow as [i [<- _]]. apply length_mk_vec.
Qed.

Lemma nth_mk_mat (n m : nat) (f : nat -> nat -> R) (i : nat) :
  (i < n)%nat -> nth i (mk_mat n m f) [] = mk_vec m (f i).
Proof.
  intros Hi. unfold mk_mat.
  rewrite (nth_indep _ [] (mk_vec m (f 0%nat))) by (rewrite length_map, length_seq; exact Hi).
  rewrite (map_nth (fun i => mk_vec m (f i))), seq_nth by exact Hi. reflexivity.
Qed.

Lemma mget_mk_mat (n m : nat) (f : nat -> nat -> R) (i j : nat) :
  (i < n)%nat -> (j < m)%nat -> mget (mk_mat n m f) i j = f i j.
Proof.
  intros Hi Hj. unfold mget. rewrite nth_mk_mat by exact Hi.
  apply (vget_mk_vec (f i) Hj).
Qed.

Lemma mk_mat_ext (n m : nat) (f g : nat -> nat -> R) :
  (forall i j, (i < n)%nat -> (j < m)%nat -> f i j = g i j) -> mk_mat n m f = mk_mat n m g.
Proof.
  intros H. unfold mk_mat. apply map_ext_in.
  intros i Hi. apply in_seq in Hi. apply mk_vec_ext. intros j Hj. apply H; lia.
Qed.

Lemma is_mat_row (n m : nat) (M : matrix) (i : nat) :
  is_mat n m M -> (i < n)%nat -> length (nth i M []) = m.
Proof.
  intros [Hn Hrows] Hi. rewrite Forall_forall in Hrows.
  apply Hrows, nth_In. lia.
Qed.

Lemma nrows_is_mat (n m : nat) (M : matrix) : is_mat n m M -> nrows M = n.
Proof. intros [Hn _]. exact Hn. Qed.

Lemma ncols_is_mat (n m : nat) (M : matrix) :
  is_mat n m M -> (0 < n)%nat -> ncols M = m.
Proof.
  intros HM Hn. unfold ncols. rewrite <- (is_mat_row (i := 0) HM Hn).
  destruct M; reflexivity.
Qed.

Lemma mat_eta (n m : nat) (M : matrix) : is_mat n m M -> M = mk_mat n m (mget M).
Proof.
  intros HM. apply (nth_ext _ _ [] []).
  - destruct HM as [Hn _]. unfold mk_mat. rewrite length_map, length_seq. exact Hn.
  - intros i Hi. assert (Hin : (i < n)%nat) by (destruct HM; lia).
    rewrite nth_mk_mat by exact Hin.
    apply (vec_eta (n := m)). apply (is_mat_row HM Hin).
Qed.

Lemma mat_ext (n m : nat) (A B : matrix) :
  is_mat n m A -> is_mat n m B ->
  (forall i j, (i < n)%nat -> (j < m)%nat -> mget A i j = mget B i j) -> A = B.
Proof.
  intros HA HB H. rewrite (mat_eta HA), (mat_eta HB). apply mk_mat_ext, H.
Qed.

(** ** Normal forms of the array operations *)

Lemma transpose_eq (n m : nat) (M : matrix) :
  is_mat n m M -> (0 < n)%nat ->
  transpose M = mk_mat m n (fun i j => mget M j i).
Proof.
  intros HM Hn. unfold transpose.
  rewrite (nrows_is_mat HM), (ncols_is_mat HM Hn). reflexivity.
Qed.

Lemma mat_mul_eq (n m p : nat) (A B : matrix) :
  is_mat n m A -> is_mat m p B -> (0 < n)%nat -> (0 < m)%nat ->
  mat_mul A B = mk_mat n p (fun i j => rsum m (fun k => mget A i k * mget B k j)).
Proof.
  intros HA HB Hn Hm. unfold mat_mul.
  rewrite (nrows_is_mat HA), (ncols_is_mat HA Hn), (ncols_is_mat HB Hm). reflexivity.
Qed.

Lemma mat_vec_eq (n m : nat) (M : matrix) (v : vector) :
  is_mat n m M -> (0 < n)%nat ->
  mat_vec M v = mk_vec n (fun i => rsum m (fun k => mget M i k * vget v k)).
Proof.
  intros HM Hn. unfold mat_vec.
  rewrite (nrows_is_mat HM), (ncols_is_mat HM Hn). reflexivity.
Qed.

Lemma vec_mat_eq (n m : nat) (v : vector) (M : matrix) :
  is_vec n v -> is_mat n m M -> (0 < n)%nat ->
  vec_mat v M = mk_vec m (fun j => rsum n (fun k => vget v k * mget M k j)).
Proof.
  intros Hv HM Hn. unfold vec_mat.
  rewrite Hv, (ncols_is_mat HM Hn). reflexivity.
Qed.

Lemma mat_map2_eq (f : R -> R -> R) (n m : nat) (A B : matrix) :
  is_mat n m A -> (0 < n)%nat ->
  mat_map2 f A B = mk_mat n m (fun i j => f (mget A i j) (mget B i j)).
Proof.
  intros HA Hn. unfold mat_map2.
  rewrite (nrows_is_mat HA), (ncols_is_mat HA Hn). reflexivity.
Qed.

Lemma is_mat_transpose (n m : nat) (M : matrix) :
  is_mat n m M -> (0 < n)%nat -> is_mat m n (transpose M).
Proof. intros HM Hn. rewrite (transpose_eq HM Hn). apply is_mat_mk_mat. Qed.

Lemma is_mat_mat_mul (n m p : nat) (A B : matrix) :
  is_mat n m A -> is_mat m p B -> (0 < n)%nat -> (0 < m)%nat -> is_mat n p (mat_mul A B).
Proof. intros HA HB Hn Hm. rewrite (mat_mul_eq HA HB Hn Hm). apply is_mat_mk_mat. Qed.

Lemma mget_transpose (n m : nat) (M : matrix) (i j : nat) :
  is_mat n m M -> (i < m)%nat -> (j < n)%nat -> mget (transpose M) i j = mget M j i.
Proof.
  intros HM Hi Hj. rewrite (transpose_eq HM) by lia.
  rewrite mget_mk_mat by assumption. reflexivity.
Qed.

Lemma mget_mat_mul (n m p : nat) (A B : matrix) (i j : nat) :
  is_mat n m A -> is_mat m p B -> (0 < m)%nat -> (i < n)%nat -> (j < p)%nat ->
  mget (mat_mul A B) i j = rsum m (fun k => mget A i k * mget B k j).
Proof.
  intros HA HB Hm Hi Hj. rewrite (mat_mul_eq HA HB) by lia.
  rewrite mget_mk_mat by assumption. reflexivity.
Qed.

Lemma mat_mul_assoc (n m p q : nat) (A B C : matrix) :
  is_mat n m A -> is_mat m p B -> is_mat p q C ->
  (0 < n)%nat -> (0 < m)%nat -> (0 < p)%nat ->
  mat_mul (mat_mul A B) C = mat_mul A (mat_mul B C).
Proof.
  intros HA HB HC Hn Hm Hp.
  pose proof (is_mat_mat_mul HA HB Hn Hm) as HAB.
  pose proof (is_mat_mat_mul HB HC Hm Hp) as HBC.
  rewrite (mat_mul_eq HAB HC Hn Hp), (mat_mul_eq HA HBC Hn Hm).
  apply mk_mat_ext. intros i j Hi Hj.
  rewrite (rsum_ext _ (fun k => rsum m (fun l => mget A i l * mget B l k * mget C k j))).
  2:{ intros k Hk. rewrite (mget_mat_mul HA HB Hm Hi Hk), <- rsum_mult_r. reflexivity. }
  rewrite rsum_swap. apply rsum_ext. intros l Hl.
  rewrite (mget_mat_mul HB HC Hp Hl Hj), <- rsum_mult_l.
  apply rsum_ext. intros k Hk. ring.
Qed.

Lemma transpose_mat_mul (n m p : nat) (A B : matrix) :
  is_mat n m A -> is_mat m p B -> (0 < n)%nat -> (0 < m)%nat -> (0 < p)%nat ->
  transpose (mat_mul A B) = mat_mul (transpose B) (transpose A).
Proof.
  intros HA HB Hn Hm Hp.
  pose proof (is_mat_mat_mul HA HB Hn Hm) as HAB.
  pose proof (is_mat_transpose HA Hn) as HAt.
  pose proof (is_mat_transpose HB Hm) as HBt.
  rewrite (transpose_eq HAB Hn), (mat_mul_eq HBt HAt Hp Hm).
  apply mk_mat_ext. intros i j Hi Hj.
  rewrite (mget_mat_mul HA HB Hm Hj Hi).
  apply rsum_ext. intros k Hk.
  rewrite (mget_transpose HB Hi Hk), (mget_transpose HA Hk Hj). ring.
Qed.

Lemma transpose_involutive (n m : nat) (M : matrix) :
  is_mat n m M -> (0 < n)%nat -> (0 < m)%nat -> transpose (transpose M) = M.
Proof.
  intros HM Hn Hm.
  pose proof (is_mat_transpose HM Hn) as HMt.
  rewrite (transpose_eq HMt Hm). symmetry. rewrite (mat_eta HM) at 1.
  apply mk_mat_ext. intros i j Hi Hj. symmetry. apply (mget_transpose HM Hj Hi).
Qed.

(** ** The NumPy calls on operands of the right shape *)

Lemma np_dot_ok (n m p : nat) (A B : matrix) :
  is_mat n m A -> is_mat m p B -> (0 < n)%nat ->
  np.dot A B = Ok (mat_mul A B).
Proof.
  intros HA HB Hn. unfold np.dot.
  rewrite (ncols_is_mat HA Hn), (nrows_is_mat HB), Nat.eqb_refl. reflexivity.
Qed.

Lemma np_dot_mv_ok (n m : nat) (M : matrix) (v : vector) :
  is_mat n m M -> is_vec m v -> (0 < n)%nat ->
  np.dot_mv M v = Ok (mat_vec M v).
Proof.
  intros HM Hv Hn. unfold np.dot_mv.
  rewrite (ncols_is_mat HM Hn), Hv, Nat.eqb_refl. reflexivity.
Qed.

Lemma np_dot_vm_ok (n m : nat) (v : vector) (M : matrix) :
  is_vec n v -> is_mat n m M ->
  np.dot_vm v M = Ok (vec_mat v M).
Proof.
  intros Hv HM. unfold np.dot_vm.
  rewrite Hv, (nrows_is_mat HM), Nat.eqb_refl. reflexivity.
Qed.

Lemma elementwise2_ok (f : R -> R -> R) (n m : nat) (A B : matrix) :
  is_mat n m A -> is_mat n m B -> (0 < n)%nat ->
  elementwise2 f A B = Ok (mat_map2 f A B).
Proof.
  intros HA HB Hn. unfold elementwise2.
  rewrite (nrows_is_mat HA), (nrows_is_mat HB), (ncols_is_mat HA Hn), (ncols_is_mat HB Hn).
  rewrite !Nat.eqb_refl. reflexivity.
Qed.

Lemma multi_dot_ok (n m p q : nat) (A B C : matrix) :
  is_mat n m A -> is_mat m p B -> is_mat p q C ->
  (0 < n)%nat -> (0 < m)%nat -> (0 < p)%nat ->
  np.linalg.multi_dot A B C = Ok (mat_mul A (mat_mul B C)).
Proof.
  intros HA HB HC Hn Hm Hp. unfold np.linalg.multi_dot.
  destruct (_ <? _)%nat.
  - rewrite (np_dot_ok HA HB Hn). cbn [bind].
    rewrite (np_dot_ok (is_mat_mat_mul HA HB Hn Hm) HC Hn).
    rewrite (mat_mul_assoc HA HB HC Hn Hm Hp). reflexivity.
  - rewrite (np_dot_ok HB HC Hm). cbn [bind].
    rewrite (np_dot_ok HA (is_mat_mat_mul HB HC Hm Hp) Hn). reflexivity.
Qed.

(** ** The model matrices *)

(** The transition matrix as the constructor leaves it. *)
Lemma motion_mat_eq :
  _motion_mat __init__
  = mk_mat 8 8 (fun i j => if ((i =? j) || (j =? i + 4))%nat then 1 else 0).
Proof.
  cbv [__init__ _motion_mat fold_left seq Nat.mul Nat.add np.eye setitem2 mk_mat mk_vec
       map nrows ncols length hd mget nth Nat.eqb andb orb].
  repeat (f_equal; try lra).
Qed.

Lemma update_mat_eq :
  _update_mat __init__ = mk_mat 4 8 (fun i j => if (i =? j)%nat then 1 else 0).
Proof. reflexivity. Qed.

Lemma is_mat_motion_mat : is_mat 8 8 (_motion_mat __init__).
Proof. rewrite motion_mat_eq. apply is_mat_mk_mat. Qed.

Lemma is_mat_update_mat : is_mat 4 8 (_update_mat __init__).
Proof. rewrite update_mat_eq. apply is_mat_mk_mat. Qed.

Lemma mget_motion_mat (i j : nat) :
  (i < 8)%nat -> (j < 8)%nat ->
  mget (_motion_mat __init__) i j = if ((i =? j) || (j =? i + 4))%nat then 1 else 0.
Proof. intros Hi Hj. rewrite motion_mat_eq, mget_mk_mat by assumption. reflexivity. Qed.

Lemma mget_update_mat (i j : nat) :
  (i < 4)%nat -> (j < 8)%nat ->
  mget (_update_mat __init__) i j = if (i =? j)%nat then 1 else 0.
Proof. intros Hi Hj. rewrite update_mat_eq, mget_mk_mat by assumption. reflexivity. Qed.

Lemma getitem_ok (n : nat) (v : vector) (i : nat) :
  is_vec n v -> (i < n)%nat -> getitem v i = Ok (vget v i).
Proof.
  intros Hv Hi. unfold getitem, vget.
  destruct (nth_error v i) as [x|] eqn:E.
  - rewrite (nth_error_nth _ _ _ E). reflexivity.
  - apply nth_error_None in E. unfold is_vec in Hv. lia.
Qed.

Lemma is_mat_diag (n : nat) (v : vector) : is_vec n v -> is_mat n n (np.diag v).
Proof. intros <-. apply is_mat_mk_mat. Qed.

Lemma mget_diag (v : vector) (i j : nat) :
  (i < length v)%nat -> (j < length v)%nat ->
  mget (np.diag v) i j = if (i =? j)%nat then vget v i else 0.
Proof. intros Hi Hj. unfold np.diag. rewrite mget_mk_mat by assumption. reflexivity. Qed.

Lemma predict_ok (mean : vector) (covariance : matrix) :
  is_vec 8 mean -> is_mat 8 8 covariance ->
  predict __init__ mean covariance
  = Ok (vec_mat mean (transpose (_motion_mat __init__)),
        mat_map2 Rplus
          (mat_mul (_motion_mat __init__)
             (mat_mul covariance (transpose (_motion_mat __init__))))
          (process_noise __init__ (vget mean 3))).
Proof.
  intros Hm Hc. unfold predict.
  pose proof is_mat_motion_mat as HA.
  assert (HAt : is_mat 8 8 (transpose (_motion_mat __init__)))
    by (apply (is_mat_transpose HA); lia).
  rewrite (getitem_ok Hm) by lia. cbn [bind].
  unfold np.T. rewrite (np_dot_vm_ok Hm HAt). cbn [bind].
  rewrite (multi_dot_ok HA Hc HAt) by lia. cbn [bind].
  unfold np.add2. rewrite (@elementwise2_ok Rplus 8 8); try lia.
  - reflexivity.
  - apply (is_mat_mat_mul HA); try lia. apply (is_mat_mat_mul Hc HAt); lia.
  - apply is_mat_diag. reflexivity.
Qed.

Lemma vec_mat_transpose (n m : nat) (M : matrix) (v : vector) :
  is_mat n m M -> is_vec m v -> (0 < n)%nat -> (0 < m)%nat ->
  vec_mat v (transpose M) = mat_vec M v.
Proof.
  intros HM Hv Hn Hm.
  rewrite (vec_mat_eq Hv (is_mat_transpose HM Hn) Hm), (mat_vec_eq v HM Hn).
  apply mk_vec_ext. intros i Hi. apply rsum_ext. intros k Hk.
  rewrite (mget_transpose HM Hk Hi). ring.
Qed.

(** Case analysis on an index below a numeral. *)
Ltac below i H :=
  repeat (destruct i as [|i]; [|try (exfalso; clear - H; lia)]).

Lemma motion_mat_spec : _motion_mat __init__ = spec_transition.
Proof.
  rewrite motion_mat_eq. apply mk_mat_ext. intros i j Hi Hj.
  destruct (Nat.eqb_spec i j); [reflexivity|]. cbn [orb].
  destruct (Nat.eqb_spec j (i + 4)), (Nat.ltb_spec i 4), (Nat.eqb_spec j (4 + i));
    cbn [andb]; try reflexivity; lia.
Qed.

Lemma process_noise_spec (mean : vector) :
  process_noise __init__ (vget mean 3) = spec_process_noise mean.
Proof.
  unfold process_noise, spec_process_noise, np.diag. cbn [np.r_ app np.square map length].
  apply mk_mat_ext. intros i j Hi Hj.
  destruct (Nat.eqb_spec i j); [|reflexivity]. subst j.
  below i Hi; cbn [vget nth __init__ _std_weight_position _std_weight_velocity]; lra.
Qed.

(** C4.  [predict] returns A.mean and A.covariance.A^T + Q, with A the
    constant-velocity transition matrix and Q the diagonal process noise
    scaled by the current height mean[3]. *)
Theorem predict_is_transition_plus_noise (mean : vector) (covariance : matrix) :
  is_vec 8 mean -> is_mat 8 8 covariance ->
  predict __init__ mean covariance
  = Ok (mat_vec spec_transition mean,
        mat_map2 Rplus
          (mat_mul (mat_mul spec_transition covariance) (transpose spec_transition))
          (spec_process_noise mean)).
Proof.
  intros Hm Hc. rewrite (predict_ok Hm Hc).
  pose proof is_mat_motion_mat as HA.
  assert (HAt : is_mat 8 8 (transpose (_motion_mat __init__)))
    by (apply (is_mat_transpose HA); lia).
  rewrite (vec_mat_transpose HA Hm) by lia.
  rewrite <- (mat_mul_assoc HA Hc HAt) by lia.
  rewrite process_noise_spec, motion_mat_spec. reflexivity.
Qed.

Lemma predict_is_transition_plus_noise_witness :
  predict __init__ [100; 50; 0.5; 200; 0; 0; 0; 0] (np.eye 8 8)
  = Ok (mat_vec spec_transition [100; 50; 0.5; 200; 0; 0; 0; 0],
        mat_map2 Rplus
          (mat_mul (mat_mul spec_transition (np.eye 8 8)) (transpose spec_transition))
          (spec_process_noise [100; 50; 0.5; 200; 0; 0; 0; 0])).
Proof.
  apply predict_is_transition_plus_noise.
  - reflexivity.
  - apply is_mat_mk_mat.
Defined.

Lemma binary64_differ (x y : float) :
  PrimFloat.eqb x x = true -> PrimFloat.eqb x y = false -> x <> y.
Proof. intros Hx H E. rewrite <- E in H. rewrite Hx in H. discriminate. Qed.

(** C5, as worded, fails: the last but one entry of the diagonal is the
    square of the binary64 number nearest to 1e-5, which is not the
    binary64 number nearest to 1e-10 but the next one,
    0x1.b7cdfd9d7bdbcp-34, printed 1.0000000000000002e-10. *)
Lemma initiate_diagonal_not_exact_in_binary64 : ~ initiate_diagonal_exact_in_binary64.
Proof.
  unfold initiate_diagonal_exact_in_binary64. intros H.
  assert (E : forall r r' : result (b64.vector * b64.matrix), r = r' ->
            match r, r' with
            | Ok (_, c), Ok (_, c') => b64.mget c 6 6 = b64.mget c' 6 6
            | _, _ => True
            end).
  { intros r r' ->. destruct r' as [[m c]|e]; [reflexivity|exact I]. }
  apply E in H. vm_compute in H.
  revert H. apply binary64_differ; reflexivity.
Qed.

(** C5, amended.  On the measurement (100, 50, 0.5, 200) [initiate]
    returns, in binary64, the mean (100, 50, 0.5, 200, 0, 0, 0, 0) and
    the diagonal covariance with diagonal 400, 400, 1e-4, 400, 156.25,
    156.25, 1.0000000000000002e-10, 156.25; the formula it evaluates
    gives 1e-10 for the last but one entry, from which the binary64
    result differs by the rounding of one multiplication. *)
Theorem initiate_concrete :
  b64.initiate b64.__init__ [100; 50; 0.5; 200]%float
  = Ok ([100; 50; 0.5; 200; 0; 0; 0; 0]%float,
        b64.np.diag [400; 400; 1e-4; 400; 156.25; 156.25;
                     1.0000000000000002e-10; 156.25]%float)
  /\ (exists covariance,
        initiate __init__ [100; 50; 0.5; 200]
        = Ok ([100; 50; 0.5; 200; 0; 0; 0; 0], covariance)
        /\ covariance = np.diag [400; 400; 1e-4; 400; 156.25; 156.25; 1e-10; 156.25]).
Proof.
  split; [vm_compute; reflexivity|].
  eexists. split.
  - reflexivity.
  - cbn [__init__ _std_weight_position _std_weight_velocity np.square map].
    f_equal. repeat (f_equal; try lra).
Qed.

Lemma initiate_ok (measurement : vector) :
  is_vec 4 measurement ->
  initiate __init__ measurement
  = Ok (measurement ++ [0; 0; 0; 0], np.diag (np.square (initiate_std (vget measurement 3)))).
Proof.
  intros Hm. unfold initiate. rewrite (getitem_ok Hm) by lia. cbn [bind].
  unfold np.r_, np.zeros_like.
  destruct measurement as [|x [|y [|a [|h [|]]]]]; try discriminate Hm.
  cbn [map]. do 2 f_equal.
  cbn [__init__ _std_weight_position _std_weight_velocity initiate_std np.square map].
  repeat (f_equal; try lra).
Qed.

(** C7, as worded, fails: the aspect-ratio variance is the same 1e-4 for
    the boxes (0, 0, 1, 1) and (0, 0, 1, 2), whose heights differ. *)
Lemma initiate_variances_not_proportional :
  ~ initiate_variances_proportional_to_height.
Proof.
  intros [c Hc].
  assert (H1 := Hc [0; 0; 1; 1] _ _ eq_refl ltac:(cbn; lra)
                  (initiate_ok (measurement := [0; 0; 1; 1]) eq_refl) 2%nat ltac:(lia)).
  assert (H2 := Hc [0; 0; 1; 2] _ _ eq_refl ltac:(cbn; lra)
                  (initiate_ok (measurement := [0; 0; 1; 2]) eq_refl) 2%nat ltac:(lia)).
  cbn in H1, H2. lra.
Qed.

(** C7, amended.  For a measurement of positive height [initiate]
    returns the measurement followed by four zero velocities and a
    diagonal 8 x 8 covariance whose diagonal entries are squares, so
    never negative: those of 2.(1/20).h and 10.(1/160).h, proportional
    to the square of the height, and the constants 1e-4 and 1e-10 for
    the aspect ratio and its velocity.  (That the squares are positive
    is true of the formula; in binary64 they are zero for a height as
    small as 1e-200.) *)
Theorem initiate_zero_velocity_diagonal_of_squares (measurement : vector) :
  is_vec 4 measurement -> 0 < vget measurement 3 ->
  exists mean covariance,
    initiate __init__ measurement = Ok (mean, covariance)
    /\ is_vec 8 mean
    /\ (forall i, (i < 4)%nat -> vget mean i = vget measurement i)
    /\ (forall i, (4 <= i < 8)%nat -> vget mean i = 0)
    /\ is_mat 8 8 covariance
    /\ (forall i j, (i < 8)%nat -> (j < 8)%nat -> i <> j -> mget covariance i j = 0)
    /\ (forall i, (i < 8)%nat -> 0 <= mget covariance i i)
    /\ (forall i, (i < 8)%nat ->
          mget covariance i i
          = let h := vget measurement 3 in
            nth i [(h / 10) ^ 2; (h / 10) ^ 2; 1e-4; (h / 10) ^ 2;
                   (h / 16) ^ 2; (h / 16) ^ 2; 1e-10; (h / 16) ^ 2] 0).
Proof.
  intros Hm Hh. rewrite (initiate_ok Hm).
  eexists _, _. split; [reflexivity|].
  destruct measurement as [|x [|y [|a [|h [|]]]]]; try discriminate Hm.
  cbn [vget nth] in Hh.
  split; [reflexivity|].
  split; [intros i Hi; below i Hi; reflexivity|].
  split; [intros i Hi; destruct Hi as [Hi4 Hi]; below i Hi; try lia; reflexivity|].
  split; [apply is_mat_diag; reflexivity|].
  split.
  { intros i j Hi Hj Hne. rewrite mget_diag by assumption.
    destruct (Nat.eqb_spec i j); [contradiction|reflexivity]. }
  assert (E : forall i, (i < 8)%nat ->
            mget (np.diag (np.square (initiate_std (vget [x; y; a; h] 3)))) i i
            = nth i [(h / 10) ^ 2; (h / 10) ^ 2; 1e-4; (h / 10) ^ 2;
                     (h / 16) ^ 2; (h / 16) ^ 2; 1e-10; (h / 16) ^ 2] 0).
  { intros i Hi. rewrite mget_diag by assumption. rewrite Nat.eqb_refl.
    below i Hi; cbn [vget nth initiate_std np.square map]; lra. }
  split.
  - intros i Hi. rewrite (E i Hi). below i Hi; cbn [nth]; nra.
  - intros i Hi. rewrite (E i Hi). reflexivity.
Qed.

Lemma initiate_zero_velocity_diagonal_of_squares_witness :
  exists mean covariance,
    initiate __init__ [100; 50; 0.5; 200] = Ok (mean, covariance)
    /\ is_vec 8 mean
    /\ (forall i, (i < 4)%nat -> vget mean i = vget [100; 50; 0.5; 200] i)
    /\ (forall i, (4 <= i < 8)%nat -> vget mean i = 0)
    /\ is_mat 8 8 covariance
    /\ (forall i j, (i < 8)%nat -> (j < 8)%nat -> i <> j -> mget covariance i j = 0)
    /\ (forall i, (i < 8)%nat -> 0 <= mget covariance i i)
    /\ (forall i, (i < 8)%nat ->
          mget covariance i i
          = let h := vget [100; 50; 0.5; 200] 3 in
            nth i [(h / 10) ^ 2; (h / 10) ^ 2; 1e-4; (h / 10) ^ 2;
                   (h / 16) ^ 2; (h / 16) ^ 2; 1e-10; (h / 16) ^ 2] 0).
Proof.
  apply initiate_zero_velocity_diagonal_of_squares.
  - reflexivity.
  - cbn. lra.
Defined.

(** The positive entries of the formula are lost to underflow: for a
    box of height 1e-200 the six variances that scale with the height
    are exactly zero in binary64. *)
Lemma initiate_variances_underflow_in_binary64 :
  b64.initiate b64.__init__ [0; 0; 1; 1e-200]%float
  = Ok ([0; 0; 1; 1e-200; 0; 0; 0; 0]%float,
        b64.np.diag [0; 0; 1e-4; 0; 0; 0; 1.0000000000000002e-10; 0]%float).
Proof. vm_compute. reflexivity. Qed.

(** ** Entries of the predicted state *)

Lemma is_mat_spec_transition : is_mat 8 8 spec_transition.
Proof. apply is_mat_mk_mat. Qed.

(** A row of the transition matrix against any column: position i picks
    up entry i and, for i < 4, the velocity entry 4 + i. *)
Lemma transition_row_sum (f : nat -> R) (i : nat) :
  (i < 8)%nat ->
  rsum 8 (fun k => mget spec_transition i k * f k)
  = f i + (if (i <? 4)%nat then f (4 + i)%nat else 0).
Proof.
  intros Hi.
  rewrite (rsum_ext _ (fun k => (if (k =? i)%nat then f k else 0)
                               + (if (k =? 4 + i)%nat
                                  then (if (i <? 4)%nat then f k else 0) else 0))).
  2:{ intros k Hk. unfold spec_transition. rewrite mget_mk_mat by assumption.
      destruct (Nat.eqb_spec i k), (Nat.eqb_spec k i), (Nat.eqb_spec k (4 + i)),
        (Nat.ltb_spec i 4); cbn [andb]; try lia; lra. }
  rewrite rsum_plus, rsum_delta by exact Hi.
  destruct (Nat.ltb_spec i 4).
  - rewrite rsum_delta by lia. reflexivity.
  - rewrite rsum_zero; [reflexivity|]. intros k Hk. destruct (k =? 4 + i)%nat; reflexivity.
Qed.

Lemma predict_mean_entry (mean : vector) (i : nat) :
  (i < 8)%nat ->
  vget (mat_vec spec_transition mean) i
  = vget mean i + (if (i <? 4)%nat then vget mean (4 + i) else 0).
Proof.
  intros Hi. rewrite (mat_vec_eq mean is_mat_spec_transition) by lia.
  rewrite vget_mk_vec by exact Hi. apply (transition_row_sum (vget mean) Hi).
Qed.

Lemma predict_cov_entry (P : matrix) (i j : nat) :
  is_mat 8 8 P -> (i < 8)%nat -> (j < 8)%nat ->
  mget (mat_mul (mat_mul spec_transition P) (transpose spec_transition)) i j
  = mget P i j
    + (if (i <? 4)%nat then mget P (4 + i) j else 0)
    + (if (j <? 4)%nat
       then mget P i (4 + j) + (if (i <? 4)%nat then mget P (4 + i) (4 + j) else 0)
       else 0).
Proof.
  intros HP Hi Hj.
  pose proof is_mat_spec_transition as HA.
  assert (HAP : is_mat 8 8 (mat_mul spec_transition P)) by (apply (is_mat_mat_mul HA HP); lia).
  assert (HAt : is_mat 8 8 (transpose spec_transition)) by (apply (is_mat_transpose HA); lia).
  assert (E : forall k, (k < 8)%nat ->
            mget (mat_mul spec_transition P) i k
            = mget P i k + (if (i <? 4)%nat then mget P (4 + i) k else 0)).
  { intros k Hk. rewrite (mget_mat_mul HA HP) by lia.
    apply (transition_row_sum (fun l => mget P l k) Hi). }
  rewrite (mget_mat_mul HAP HAt) by lia.
  rewrite (rsum_ext _ (fun k => mget spec_transition j k * mget (mat_mul spec_transition P) i k)).
  2:{ intros k Hk. rewrite (mget_transpose HA Hk Hj). ring. }
  rewrite (transition_row_sum (fun k => mget (mat_mul spec_transition P) i k) Hj).
  rewrite (E j Hj). destruct (Nat.ltb_spec j 4) as [Hj4|Hj4].
  - rewrite (E (4 + j)%nat) by lia. ring.
  - ring.
Qed.

(** C8.  One [predict] on the state that [initiate] builds from the
    measurement (100, 50, 0.5, 200) keeps the four position and shape
    components of the mean and makes every diagonal entry of the
    covariance strictly larger. *)
Theorem predict_after_initiate_concrete :
  exists mean0 covariance0 mean1 covariance1,
    initiate __init__ [100; 50; 0.5; 200] = Ok (mean0, covariance0)
    /\ predict __init__ mean0 covariance0 = Ok (mean1, covariance1)
    /\ (forall i, (i < 4)%nat -> vget mean1 i = vget mean0 i)
    /\ (forall i, (i < 8)%nat -> mget covariance0 i i < mget covariance1 i i).
Proof.
  assert (Hz : is_vec 4 [100; 50; 0.5; 200]) by reflexivity.
  assert (Hm : is_vec 8 ([100; 50; 0.5; 200] ++ [0; 0; 0; 0])) by reflexivity.
  set (cov0 := np.diag (np.square (initiate_std (vget [100; 50; 0.5; 200] 3)))).
  assert (Hc : is_mat 8 8 cov0) by (apply is_mat_diag; reflexivity).
  pose proof is_mat_spec_transition as HA.
  exists ([100; 50; 0.5; 200] ++ [0; 0; 0; 0]), cov0. eexists _, _.
  split; [apply (initiate_ok Hz)|].
  split; [apply (predict_ok Hm Hc)|].
  rewrite motion_mat_spec, process_noise_spec.
  split.
  - intros i Hi.
    rewrite (vec_mat_transpose HA Hm) by lia.
    rewrite predict_mean_entry by lia.
    below i Hi; cbn [Nat.ltb Nat.leb Nat.add vget nth app]; lra.
  - intros i Hi.
    assert (HAt : is_mat 8 8 (transpose spec_transition))
      by (apply (is_mat_transpose HA); lia).
    assert (HAPA : is_mat 8 8 (mat_mul spec_transition
                                 (mat_mul cov0 (transpose spec_transition)))).
    { apply (is_mat_mat_mul HA); try lia. apply (is_mat_mat_mul Hc HAt); lia. }
    rewrite (mat_map2_eq Rplus _ HAPA) by lia.
    rewrite mget_mk_mat by assumption.
    rewrite <- (mat_mul_assoc HA Hc HAt) by lia.
    rewrite (predict_cov_entry Hc Hi Hi).
    unfold spec_process_noise. rewrite mget_mk_mat by assumption.
    rewrite Nat.eqb_refl. unfold cov0.
    below i Hi;
      cbv [np.diag np.square initiate_std mget mk_mat mk_vec map seq length nth vget app
           Nat.eqb Nat.ltb Nat.leb Nat.add];
      lra.
Qed.

(** ** Batches *)

Lemma mapM_ok (A B : Type) (f : A -> result B) (g : A -> B) (l : list A) :
  (forall a, In a l -> f a = Ok (g a)) -> mapM f l = Ok (map g l).
Proof.
  induction l as [|a l IH]; intros H; [reflexivity|].
  cbn [mapM map]. rewrite (H a (or_introl eq_refl)). cbn [bind].
  rewrite IH by (intros b Hb; apply H; right; exact Hb). reflexivity.
Qed.


Lemma map_seq_nth (A : Type) (d : A) (l : list A) :
  map (fun i => nth i l d) (seq 0 (length l)) = l.
Proof.
  apply (nth_ext _ _ d d).
  - rewrite length_map, length_seq. reflexivity.
  - intros i Hi. rewrite length_map, length_seq in Hi.
    rewrite (nth_indep _ d (nth 0 l d)) by (rewrite length_map, length_seq; exact Hi).
    rewrite (map_nth (fun i => nth i l d)), seq_nth by exact Hi. reflexivity.
Qed.

Lemma map_as_seq (A B : Type) (d : A) (f : A -> B) (l : list A) :
  map f l = map (fun k => f (nth k l d)) (seq 0 (length l)).
Proof. rewrite <- (map_map (fun k => nth k l d) f), map_seq_nth. reflexivity. Qed.

Lemma nth_map_seq (A : Type) (d : A) (f : nat -> A) (n i : nat) :
  (i < n)%nat -> nth i (map f (seq 0 n)) d = f i.
Proof.
  intros Hi.
  rewrite (nth_indep _ d (f 0%nat)) by (rewrite length_map, length_seq; exact Hi).
  rewrite map_nth, seq_nth by exact Hi. reflexivity.
Qed.

Lemma nth_map_in (A B : Type) (dA : A) (dB : B) (f : A -> B) (l : list A) (i : nat) :
  (i < length l)%nat -> nth i (map f l) dB = f (nth i l dA).
Proof.
  intros Hi. rewrite (nth_indep _ dB (f dA)) by (rewrite length_map; exact Hi).
  apply map_nth.
Qed.

Lemma is_mat_In (n m : nat) (M : matrix) (row : list R) :
  is_mat n m M -> In row M -> length row = m.
Proof. intros [_ H] Hin. rewrite Forall_forall in H. apply H, Hin. Qed.

(** [np.dot(A, covariance).transpose((1, 0, 2))] is the stack of the
    products A.covariance[k]. *)
Lemma dot_m3_transposed (n m : nat) (A : matrix) (C : list matrix) :
  is_mat n m A -> (0 < n)%nat -> (0 < length C)%nat ->
  (forall Ck, In Ck C -> nrows Ck = m) ->
  exists y, np.dot_m3 A C = Ok y
            /\ np.transpose102 y = map (fun Ck => mat_mul A Ck) C.
Proof.
  intros HA Hn HN HC. unfold np.dot_m3.
  rewrite (ncols_is_mat HA Hn), (nrows_is_mat HA).
  assert (Hall : forallb (fun Ck => (m =? nrows Ck)%nat) C = true).
  { apply forallb_forall. intros Ck Hin. rewrite (HC Ck Hin). apply Nat.eqb_refl. }
  rewrite Hall. eexists. split; [reflexivity|].
  unfold np.transpose102. rewrite length_map, length_seq.
  set (F := fun i : nat => map _ C).
  assert (Hhd : length (hd [] (map F (seq 0 n))) = length C).
  { destruct n as [|n']; [lia|]. cbn [seq map hd]. unfold F. apply length_map. }
  rewrite Hhd.
  transitivity (map (fun k => mat_mul A (nth k C [])) (seq 0 (length C))).
  2:{ rewrite <- (map_map (fun k => nth k C []) (mat_mul A)), map_seq_nth. reflexivity. }
  apply map_ext_in. intros k Hk. apply in_seq in Hk.
  unfold mat_mul, mk_mat. rewrite (nrows_is_mat HA), (ncols_is_mat HA) by lia.
  apply map_ext_in. intros i Hi. apply in_seq in Hi.
  rewrite (nth_map_seq [] F) by lia. unfold F.
  rewrite (@nth_map_in matrix vector [] []) by lia. reflexivity.
Qed.

Lemma vget_map (f : R -> R) (v : vector) (i : nat) :
  (i < length v)%nat -> vget (map f v) i = f (vget v i).
Proof. intros Hi. apply (@nth_map_in R R 0 0 f v i Hi). Qed.

Lemma vget_scale (c : R) (v : vector) (i : nat) :
  (i < length v)%nat -> vget (scale c v) i = c * vget v i.
Proof. apply vget_map. Qed.

Lemma vget_square (v : vector) (i : nat) :
  (i < length v)%nat -> vget (np.square v) i = vget v i * vget v i.
Proof. apply (vget_map (fun x => x * x)). Qed.

Lemma vget_ones_like (v : vector) (i : nat) :
  (i < length v)%nat -> vget (np.ones_like v) i = 1.
Proof. apply (vget_map (fun _ => 1)). Qed.

Lemma length_scale (c : R) (v : vector) : length (scale c v) = length v.
Proof. apply length_map. Qed.

Lemma length_square (v : vector) : length (np.square v) = length v.
Proof. apply length_map. Qed.

Lemma length_ones_like (v : vector) : length (np.ones_like v) = length v.
Proof. apply length_map. Qed.

(** The noise [multi_predict] adds to track i is the noise [predict]
    adds to a state of the same height. *)
Lemma multi_predict_noise (self : KalmanFilter) (h : vector) (i : nat) :
  (i < length h)%nat ->
  np.diag (nth i (np.T (map np.square (np.r_
      [scale (_std_weight_position self) h; scale (_std_weight_position self) h;
       scale 1e-2 (np.ones_like h); scale (_std_weight_position self) h]
      [scale (_std_weight_velocity self) h; scale (_std_weight_velocity self) h;
       scale 1e-5 (np.ones_like h); scale (_std_weight_velocity self) h]))) [])
  = process_noise self (vget h i).
Proof.
  intros Hi. set (X := map np.square _).
  assert (HX : is_mat 8 (length h) X).
  { split; [reflexivity|]. unfold X. cbn [np.r_ app map].
    repeat constructor;
      rewrite length_square, length_scale, ?length_ones_like; reflexivity. }
  unfold np.T. rewrite (transpose_eq HX) by lia. rewrite nth_mk_mat by exact Hi.
  unfold process_noise. f_equal.
  cbn [mk_vec seq map np.r_ app np.square].
  unfold X, mget. cbn [np.r_ app map nth].
  repeat (apply (f_equal2 (@cons R));
          [fold (vget (np.square (scale (_std_weight_position self) h)) i)
           || fold (vget (np.square (scale (_std_weight_velocity self) h)) i)
           || fold (vget (np.square (scale 1e-2 (np.ones_like h))) i)
           || fold (vget (np.square (scale 1e-5 (np.ones_like h))) i);
           rewrite vget_square, vget_scale, ?vget_ones_like
             by (rewrite ?length_scale, ?length_ones_like; exact Hi);
           lra |]).
  reflexivity.
Qed.


(** *** The prediction on binary64 arrays *)











(** ** Triangular solves *)

Lemma rsum_low_row (L : matrix) (n i : nat) (f : nat -> R) :
  (i < n)%nat ->
  rsum n (fun j => low L i j * f j) = rsum (S i) (fun j => mget L i j * f j).
Proof.
  intros Hi. rewrite (@rsum_extend (S i) n).
  2: lia.
  2:{ intros k Hk. unfold low. destruct (Nat.leb_spec k i); [lia|ring]. }
  apply rsum_ext. intros k Hk. unfold low.
  destruct (Nat.leb_spec k i); [reflexivity|lia].
Qed.

Lemma length_forward_subst (L : matrix) (b : vector) (i : nat) :
  length (lapack.forward_subst L b i) = i.
Proof.
  induction i as [|i IH]; [reflexivity|].
  cbn [lapack.forward_subst]. rewrite length_app, IH. cbn [length]. lia.
Qed.

(** Entry k of the solution is fixed once it is computed. *)
Lemma forward_subst_stable (L : matrix) (b : vector) (i k : nat) :
  (k < i)%nat ->
  vget (lapack.forward_subst L b i) k = vget (lapack.forward_subst L b (S k)) k.
Proof.
  induction i as [|i IH]; intros Hk; [lia|].
  destruct (Nat.eq_dec k i) as [->|Hne]; [reflexivity|].
  rewrite <- IH by lia. cbn [lapack.forward_subst]. unfold vget.
  apply app_nth1. rewrite length_forward_subst. lia.
Qed.

Lemma forward_subst_last (L : matrix) (b : vector) (k : nat) :
  vget (lapack.forward_subst L b (S k)) k
  = (vget b k - rsum k (fun j => mget L k j * vget (lapack.forward_subst L b k) j))
    / mget L k k.
Proof.
  cbn [lapack.forward_subst]. unfold vget at 1.
  rewrite app_nth2 by (rewrite length_forward_subst; lia).
  rewrite length_forward_subst, Nat.sub_diag. reflexivity.
Qed.

(** Forward substitution solves the lower-triangular system. *)
Lemma forward_subst_correct (L : matrix) (b : vector) (n k : nat) :
  (k < n)%nat -> mget L k k <> 0 ->
  rsum n (fun j => low L k j * vget (lapack.forward_subst L b n) j) = vget b k.
Proof.
  intros Hk Hd. rewrite rsum_low_row by exact Hk. cbn [rsum].
  rewrite (forward_subst_stable L b Hk), forward_subst_last.
  rewrite (rsum_ext _ (fun j => mget L k j * vget (lapack.forward_subst L b k) j)).
  2:{ intros j Hj. rewrite (@forward_subst_stable L b n j) by lia.
      rewrite (@forward_subst_stable L b k j) by lia. reflexivity. }
  field. exact Hd.
Qed.

Lemma length_backward_subst (L : matrix) (y : vector) (n t : nat) :
  length (lapack.backward_subst L y n t) = t.
Proof.
  induction t as [|t IH]; [reflexivity|].
  cbn [lapack.backward_subst length]. rewrite IH. reflexivity.
Qed.

(** After t steps the list holds the entries n-t, ..., n-1 of the
    solution. *)
Lemma backward_subst_stable (L : matrix) (y : vector) (n t i : nat) :
  (t <= n)%nat -> (n - t <= i < n)%nat ->
  vget (lapack.backward_subst L y n t) (i - (n - t))
  = vget (lapack.backward_subst L y n n) i.
Proof.
  intros Ht Hi.
  assert (G : forall t' , (t <= t' <= n)%nat ->
            vget (lapack.backward_subst L y n t') (i - (n - t'))
            = vget (lapack.backward_subst L y n t) (i - (n - t))).
  { intros t' Ht'. induction t' as [|t' IH].
    - replace t with 0%nat by lia. reflexivity.
    - destruct (Nat.eq_dec t (S t')) as [->|Hne]; [reflexivity|].
      rewrite <- IH by lia. cbn [lapack.backward_subst]. unfold vget.
      replace (i - (n - S t'))%nat with (S (i - (n - t'))) by lia. reflexivity. }
  rewrite <- (G n) by lia. rewrite Nat.sub_diag, Nat.sub_0_r. reflexivity.
Qed.

Lemma backward_subst_head (L : matrix) (y : vector) (n i : nat) :
  (i < n)%nat ->
  vget (lapack.backward_subst L y n n) i
  = (vget y i
     - rsum (n - S i) (fun s => mget L (i + 1 + s) i
                                * vget (lapack.backward_subst L y n n) (i + 1 + s)))
    / mget L i i.
Proof.
  intros Hi.
  rewrite <- (@backward_subst_stable L y n (S (n - S i)) i) by lia.
  replace (i - (n - S (n - S i)))%nat with 0%nat by lia.
  cbn [lapack.backward_subst]. unfold vget at 1. cbn [nth].
  replace (n - S (n - S i))%nat with i by lia.
  f_equal. f_equal. apply rsum_ext. intros s Hs. f_equal.
  rewrite <- (@backward_subst_stable L y n (n - S i) (i + 1 + s)) by lia.
  f_equal. lia.
Qed.

Lemma rsum_shift (n i : nat) (g : nat -> R) :
  (i < n)%nat ->
  rsum n (fun j => if (i <? j)%nat then g j else 0)
  = rsum (n - S i) (fun s => g (i + 1 + s)%nat).
Proof.
  intros Hi. induction n as [|n IH]; [lia|].
  destruct (Nat.eq_dec i n) as [->|Hne].
  - rewrite Nat.sub_diag. cbn [rsum]. rewrite Nat.ltb_irrefl.
    rewrite rsum_zero; [lra|]. intros k Hk.
    destruct (Nat.ltb_spec n k); [lia|reflexivity].
  - cbn [rsum]. rewrite IH by lia.
    replace (S n - S i)%nat with (S (n - S i)) by lia. cbn [rsum].
    destruct (Nat.ltb_spec i n); [|lia].
    replace (i + 1 + (n - S i))%nat with n by lia. reflexivity.
Qed.

(** Backward substitution solves the transposed system. *)
Lemma backward_subst_correct (L : matrix) (y : vector) (n i : nat) :
  (i < n)%nat -> mget L i i <> 0 ->
  rsum n (fun j => low L j i * vget (lapack.backward_subst L y n n) j) = vget y i.
Proof.
  intros Hi Hd. set (z := lapack.backward_subst L y n n).
  rewrite (rsum_ext _ (fun j => (if (j =? i)%nat then mget L j i * vget z j else 0)
                               + (if (i <? j)%nat then mget L j i * vget z j else 0))).
  2:{ intros j Hj. unfold low.
      destruct (Nat.leb_spec i j), (Nat.eqb_spec j i), (Nat.ltb_spec i j); try lia; lra. }
  rewrite rsum_plus, rsum_delta by exact Hi.
  rewrite (rsum_shift (fun j => mget L j i * vget z j) Hi).
  unfold z at 1. rewrite (backward_subst_head L y Hi). fold z.
  field. exact Hd.
Qed.

(** ** Symmetric and definite matrices *)

Lemma quad_form_fun (n : nat) (M : matrix) (x : nat -> R) :
  quad_form n M (mk_vec n x) = rsum n (fun i => rsum n (fun j => x i * mget M i j * x j)).
Proof.
  unfold quad_form. apply rsum_ext. intros i Hi. apply rsum_ext. intros j Hj.
  rewrite !vget_mk_vec by assumption. reflexivity.
Qed.

Lemma positive_definite_fun (n : nat) (M : matrix) (x : nat -> R) :
  positive_definite n M -> (exists i, (i < n)%nat /\ x i <> 0) ->
  0 < rsum n (fun i => rsum n (fun j => x i * mget M i j * x j)).
Proof.
  intros HM [i [Hi Hx]]. rewrite <- quad_form_fun. apply HM.
  - apply length_mk_vec.
  - exists i. split; [exact Hi|]. rewrite vget_mk_vec by exact Hi. exact Hx.
Qed.

Lemma positive_semidefinite_fun (n : nat) (M : matrix) (x : nat -> R) :
  positive_semidefinite n M ->
  0 <= rsum n (fun i => rsum n (fun j => x i * mget M i j * x j)).
Proof. intros HM. rewrite <- quad_form_fun. apply HM, length_mk_vec. Qed.

(** ** The Cholesky factorisation *)

(** The rows computed so far reproduce the leading block of a. *)
Lemma cholesky_rows_gram (a : matrix) (n i : nat) (Ls : matrix) (r c : nat) :
  symmetric n a -> cholesky_rows a n i Ls -> (i <= n)%nat ->
  (r < i)%nat -> (c < i)%nat ->
  rsum i (fun l => low Ls r l * low Ls c l) = mget a r c.
Proof.
  intros Hsym [_ [_ Hprod]] Hin Hr Hc.
  assert (G : forall r c, (r < i)%nat -> (c <= r)%nat ->
            rsum i (fun l => low Ls r l * low Ls c l) = mget a r c).
  { clear r c Hr Hc. intros r c Hr Hc. rewrite <- (Hprod r c Hr Hc).
    rewrite (@rsum_extend (S c) i).
    2: lia.
    2:{ intros l Hl. unfold low at 2. destruct (Nat.leb_spec l c); [lia|ring]. }
    apply rsum_ext. intros l Hl. unfold low.
    destruct (Nat.leb_spec l r), (Nat.leb_spec l c); try lia. reflexivity. }
  destruct (Nat.le_gt_cases c r) as [Hle|Hlt].
  - apply G; assumption.
  - rewrite (Hsym r c) by lia. rewrite <- (G c r) by lia.
    apply rsum_ext. intros l Hl. ring.
Qed.

(** The quadratic form at the vector (-z_0, ..., -z_(k-1), 1, 0, ..., 0). *)
Lemma quad_form_border (n k : nat) (f : nat -> nat -> R) (z : nat -> R) :
  (k < n)%nat ->
  let x := fun r => if (r <? k)%nat then - z r else if (r =? k)%nat then 1 else 0 in
  rsum n (fun i => rsum n (fun j => x i * f i j * x j))
  = rsum k (fun i => rsum k (fun j => z i * f i j * z j))
    - rsum k (fun i => z i * f i k) - rsum k (fun j => f k j * z j) + f k k.
Proof.
  intros Hk x.
  assert (Hx0 : forall r, (k < r)%nat -> x r = 0).
  { intros r Hr. unfold x. destruct (Nat.ltb_spec r k), (Nat.eqb_spec r k); try lia.
    reflexivity. }
  assert (Hxk : x k = 1).
  { unfold x. rewrite Nat.ltb_irrefl, Nat.eqb_refl. reflexivity. }
  assert (Hxz : forall r, (r < k)%nat -> x r = - z r).
  { intros r Hr. unfold x. destruct (Nat.ltb_spec r k); [reflexivity|lia]. }
  assert (Hin : forall i, rsum n (fun j => x i * f i j * x j)
                          = rsum (S k) (fun j => x i * f i j * x j)).
  { intros i. apply rsum_extend; [lia|]. intros j Hj. rewrite (Hx0 j) by lia. ring. }
  rewrite (@rsum_extend (S k) n).
  2: lia.
  2:{ intros i Hi. apply rsum_zero. intros j Hj. rewrite (Hx0 i) by lia. ring. }
  rewrite (rsum_ext _ (fun i => rsum (S k) (fun j => x i * f i j * x j)))
    by (intros; apply Hin).
  cbn [rsum]. rewrite Hxk.
  rewrite (@rsum_ext k _ (fun i => rsum k (fun j => z i * f i j * z j) - z i * f i k)).
  2:{ intros i Hi. rewrite (Hxz i Hi).
      rewrite (@rsum_ext k _ (fun j => z i * f i j * z j)).
      - ring.
      - intros j Hj. rewrite (Hxz j Hj). ring. }
  rewrite rsum_minus.
  rewrite (@rsum_ext k (fun j => 1 * f k j * x j) (fun j => -1 * (f k j * z j))).
  2:{ intros j Hj. rewrite (Hxz j Hj). ring. }
  rewrite rsum_mult_l. ring.
Qed.

(** Sum of G[i, l].u[i] over i, then against v: the two orders agree. *)
Lemma rsum_exchange (n m : nat) (G : nat -> nat -> R) (u v : nat -> R) :
  rsum n (fun i => u i * rsum m (fun l => G i l * v l))
  = rsum m (fun l => v l * rsum n (fun i => G i l * u i)).
Proof.
  rewrite (@rsum_ext n _ (fun i => rsum m (fun l => u i * G i l * v l))).
  2:{ intros i Hi. rewrite <- rsum_mult_l. apply rsum_ext. intros; ring. }
  rewrite rsum_swap. apply rsum_ext. intros l Hl.
  rewrite <- rsum_mult_l. apply rsum_ext. intros; ring.
Qed.

(** The pivot of row k is the quadratic form of a at a nonzero vector,
    hence positive. *)
Lemma cholesky_pivot_positive (a : matrix) (n k : nat) (Ls : matrix) :
  symmetric n a -> positive_definite n a -> cholesky_rows a n k Ls -> (k < n)%nat ->
  let y := lapack.forward_subst Ls (nth k a []) k in
  0 < mget a k k - rsum k (fun j => vget y j * vget y j).
Proof.
  intros Hsym Hpd Hinv Hk y.
  set (z := lapack.backward_subst Ls y k k).
  assert (Hdiag : forall r, (r < k)%nat -> mget Ls r r <> 0).
  { intros r Hr. destruct Hinv as [_ [Hpos _]]. specialize (Hpos r Hr). lra. }
  assert (HY : forall c, (c < k)%nat ->
             rsum k (fun l => low Ls c l * vget y l) = mget a k c).
  { intros c Hc. unfold y. rewrite forward_subst_correct by auto. reflexivity. }
  assert (HZ : forall l, (l < k)%nat ->
             rsum k (fun r => low Ls r l * vget z r) = vget y l).
  { intros l Hl. unfold z. apply backward_subst_correct; auto. }
  set (x := fun r => if (r <? k)%nat then - vget z r else if (r =? k)%nat then 1 else 0).
  assert (HQ : 0 < rsum n (fun i => rsum n (fun j => x i * mget a i j * x j))).
  { apply (positive_definite_fun x Hpd). exists k. split; [exact Hk|].
    unfold x. rewrite Nat.ltb_irrefl, Nat.eqb_refl. lra. }
  unfold x in HQ. rewrite (quad_form_border (mget a) (vget z) Hk) in HQ.
  set (Y2 := rsum k (fun j => vget y j * vget y j)).
  assert (S3 : rsum k (fun j => mget a k j * vget z j) = Y2).
  { rewrite (@rsum_ext k _ (fun j => vget z j * rsum k (fun l => low Ls j l * vget y l))).
    2:{ intros j Hj. rewrite (HY j Hj). ring. }
    rewrite rsum_exchange. apply rsum_ext. intros l Hl. rewrite (HZ l Hl). reflexivity. }
  assert (S2 : rsum k (fun i => vget z i * mget a i k) = Y2).
  { rewrite <- S3. apply rsum_ext. intros i Hi. rewrite (Hsym i k) by lia. ring. }
  assert (Hrow : forall i, (i < k)%nat ->
             rsum k (fun j => mget a i j * vget z j)
             = rsum k (fun l => low Ls i l * vget y l)).
  { intros i Hi.
    rewrite (@rsum_ext k _
               (fun j => vget z j * rsum k (fun l => low Ls j l * low Ls i l))).
    2:{ intros j Hj. rewrite (@cholesky_rows_gram a n k Ls j i Hsym Hinv) by lia.
        rewrite (Hsym j i) by lia. ring. }
    rewrite rsum_exchange. apply rsum_ext. intros l Hl. rewrite (HZ l Hl). ring. }
  assert (S1 : rsum k (fun i => rsum k (fun j => vget z i * mget a i j * vget z j)) = Y2).
  { rewrite (@rsum_ext k _
               (fun i => vget z i * rsum k (fun l => low Ls i l * vget y l))).
    2:{ intros i Hi. rewrite <- (Hrow i Hi), <- rsum_mult_l.
        apply rsum_ext. intros; ring. }
    rewrite rsum_exchange. apply rsum_ext. intros l Hl. rewrite (HZ l Hl). reflexivity. }
  rewrite S1, S2, S3 in HQ. lra.
Qed.

(** On a symmetric positive definite matrix the factorisation goes
    through: every pivot is positive and the rows computed reproduce a. *)
Lemma potrf_succeeds (a : matrix) (n : nat) :
  is_mat n n a -> symmetric n a -> positive_definite n a ->
  forall i, (i <= n)%nat ->
  exists Ls, lapack.potrf a i = Some Ls /\ cholesky_rows a n i Ls.
Proof.
  intros Ha Hsym Hpd. induction i as [|i IH]; intros Hi.
  - exists []. split; [reflexivity|].
    split; [split; [reflexivity|constructor]|]. split; intros; lia.
  - destruct IH as [Ls [HLs Hinv]]; [lia|].
    cbn [lapack.potrf]. rewrite HLs.
    assert (Hi' : (i < n)%nat) by lia.
    pose proof (cholesky_pivot_positive Hsym Hpd Hinv Hi') as Hd. cbv zeta in Hd.
    set (y := lapack.forward_subst Ls (nth i a []) i) in *.
    set (d := mget a i i - rsum i (fun j => vget y j * vget y j)) in *.
    destruct (Rlt_dec 0 d) as [_|Hn]; [|contradiction].
    eexists. split; [reflexivity|].
    set (row := y ++ sqrt d :: skipn (S i) (nth i a [])).
    destruct Hinv as [HLsm [Hpos Hprod]].
    assert (Hylen : length y = i) by apply length_forward_subst.
    assert (Hrowlen : length row = n).
    { unfold row. rewrite length_app, Hylen. cbn [length].
      rewrite length_skipn, (is_mat_row Ha Hi'). lia. }
    assert (Hold : forall r j, (r < i)%nat -> mget (Ls ++ [row]) r j = mget Ls r j).
    { intros r j Hr. unfold mget. rewrite app_nth1 by (rewrite (proj1 HLsm); exact Hr).
      reflexivity. }
    assert (Hrow : nth i (Ls ++ [row]) [] = row).
    { rewrite app_nth2 by (rewrite (proj1 HLsm); lia).
      rewrite (proj1 HLsm), Nat.sub_diag. reflexivity. }
    assert (Hnew : forall j, (j < i)%nat -> mget (Ls ++ [row]) i j = vget y j).
    { intros j Hj. unfold mget. rewrite Hrow. unfold row, vget.
      apply app_nth1. lia. }
    assert (Hnewd : mget (Ls ++ [row]) i i = sqrt d).
    { unfold mget. rewrite Hrow. unfold row.
      rewrite app_nth2 by lia. rewrite Hylen, Nat.sub_diag. reflexivity. }
    split; [|split].
    + split.
      * rewrite length_app, (proj1 HLsm). cbn [length]. lia.
      * apply Forall_app. split; [exact (proj2 HLsm)|]. constructor; [exact Hrowlen|constructor].
    + intros r Hr. destruct (Nat.eq_dec r i) as [->|Hne].
      * rewrite Hnewd. apply sqrt_lt_R0. exact Hd.
      * rewrite Hold by lia. apply Hpos. lia.
    + intros r c Hr Hc. destruct (Nat.eq_dec r i) as [->|Hne].
      * destruct (Nat.eq_dec c i) as [->|Hnc].
        -- cbn [rsum]. rewrite Hnewd.
           rewrite (@rsum_ext i _ (fun j => vget y j * vget y j))
             by (intros j Hj; rewrite (Hnew j Hj); reflexivity).
           rewrite sqrt_sqrt by lra. unfold d. ring.
        -- assert (Hci : (c < i)%nat) by lia.
           rewrite (@rsum_ext (S c) _ (fun j => mget Ls c j * vget y j)).
           2:{ intros j Hj. rewrite Hnew, Hold by lia. ring. }
           rewrite <- (rsum_low_row Ls (vget y) Hci).
           unfold y. rewrite forward_subst_correct; [reflexivity|exact Hci|].
           specialize (Hpos c Hci). lra.
      * rewrite (@rsum_ext (S c) _ (fun j => mget Ls r j * mget Ls c j)).
        2:{ intros j Hj. rewrite !Hold by lia. reflexivity. }
        apply Hprod; lia.
Qed.

(** The factor solves the system it was computed for: with L the
    complete factor of a, forward then backward substitution gives x
    with a x = b. *)
Lemma cho_solve_correct (a : matrix) (n : nat) (L : matrix) (b : vector) (i : nat) :
  symmetric n a -> cholesky_rows a n n L -> (i < n)%nat ->
  let x := lapack.backward_subst L (lapack.forward_subst L b n) n n in
  rsum n (fun j => mget a i j * vget x j) = vget b i.
Proof.
  intros Hsym Hinv Hi x.
  assert (Hdiag : forall r, (r < n)%nat -> mget L r r <> 0).
  { intros r Hr. destruct Hinv as [_ [Hpos _]]. specialize (Hpos r Hr). lra. }
  set (y := lapack.forward_subst L b n) in *.
  rewrite (@rsum_ext n _ (fun j => vget x j * rsum n (fun l => low L j l * low L i l))).
  2:{ intros j Hj. rewrite (@cholesky_rows_gram a n n L j i Hsym Hinv) by lia.
      rewrite (Hsym j i) by lia. ring. }
  rewrite rsum_exchange.
  rewrite (@rsum_ext n _ (fun l => low L i l * vget y l)).
  2:{ intros l Hl. unfold x. rewrite backward_subst_correct by auto. reflexivity. }
  unfold y. apply forward_subst_correct; auto.
Qed.

(** ** Projection to measurement space *)

Lemma project_ok (mean : vector) (covariance : matrix) :
  is_vec 8 mean -> is_mat 8 8 covariance ->
  project __init__ mean covariance
  = Ok (mat_vec (_update_mat __init__) mean,
        mat_map2 Rplus
          (mat_mul (_update_mat __init__)
             (mat_mul covariance (transpose (_update_mat __init__))))
          (innovation_cov __init__ (vget mean 3))).
Proof.
  intros Hm Hc. unfold project.
  pose proof is_mat_update_mat as HH.
  assert (HHt : is_mat 8 4 (transpose (_update_mat __init__)))
    by (apply (is_mat_transpose HH); lia).
  rewrite (getitem_ok Hm) by lia. cbn [bind].
  rewrite (np_dot_mv_ok HH Hm) by lia. cbn [bind].
  unfold np.T. rewrite (multi_dot_ok HH Hc HHt) by lia. cbn [bind].
  unfold np.add2. rewrite (@elementwise2_ok Rplus 4 4); try lia.
  - reflexivity.
  - apply (is_mat_mat_mul HH); try lia. apply (is_mat_mat_mul Hc HHt); lia.
  - apply is_mat_diag. reflexivity.
Qed.

(** A row of the observation matrix against any column picks entry i. *)
Lemma update_row_sum (f : nat -> R) (i : nat) :
  (i < 4)%nat -> rsum 8 (fun k => mget (_update_mat __init__) i k * f k) = f i.
Proof.
  intros Hi.
  rewrite (@rsum_ext 8 _ (fun k => if (k =? i)%nat then f k else 0)).
  2:{ intros k Hk. rewrite mget_update_mat by lia.
      destruct (Nat.eqb_spec i k), (Nat.eqb_spec k i); try lia; ring. }
  apply rsum_delta. lia.
Qed.

Lemma is_mat_projected (mean : vector) (covariance : matrix) :
  is_mat 8 8 covariance ->
  is_mat 4 4 (mat_map2 Rplus
                (mat_mul (_update_mat __init__)
                   (mat_mul covariance (transpose (_update_mat __init__))))
                (innovation_cov __init__ (vget mean 3))).
Proof.
  intros Hc. pose proof is_mat_update_mat as HH.
  assert (HHt : is_mat 8 4 (transpose (_update_mat __init__)))
    by (apply (is_mat_transpose HH); lia).
  rewrite (@mat_map2_eq Rplus 4 4); try lia; [apply is_mat_mk_mat|].
  apply (is_mat_mat_mul HH); try lia. apply (is_mat_mat_mul Hc HHt); lia.
Qed.

(** The projected covariance is the leading 4 x 4 block of the
    covariance plus the observation noise. *)
Lemma projected_cov_entry (mean : vector) (covariance : matrix) (i j : nat) :
  is_mat 8 8 covariance -> (i < 4)%nat -> (j < 4)%nat ->
  mget (mat_map2 Rplus
          (mat_mul (_update_mat __init__)
             (mat_mul covariance (transpose (_update_mat __init__))))
          (innovation_cov __init__ (vget mean 3))) i j
  = mget covariance i j + mget (innovation_cov __init__ (vget mean 3)) i j.
Proof.
  intros Hc Hi Hj. pose proof is_mat_update_mat as HH.
  assert (HHt : is_mat 8 4 (transpose (_update_mat __init__)))
    by (apply (is_mat_transpose HH); lia).
  assert (HcHt : is_mat 8 4 (mat_mul covariance (transpose (_update_mat __init__))))
    by (apply (is_mat_mat_mul Hc HHt); lia).
  rewrite (@mat_map2_eq Rplus 4 4); try lia.
  2:{ apply (is_mat_mat_mul HH HcHt); lia. }
  rewrite mget_mk_mat by assumption. f_equal.
  rewrite (mget_mat_mul HH HcHt) by lia.
  rewrite (update_row_sum (fun k => mget (mat_mul covariance _) k j) Hi).
  rewrite (mget_mat_mul Hc HHt) by lia.
  rewrite (@rsum_ext 8 _ (fun k => mget (_update_mat __init__) j k * mget covariance i k)).
  2:{ intros k Hk. rewrite (mget_transpose HH Hk Hj). ring. }
  apply (update_row_sum (fun k => mget covariance i k) Hj).
Qed.

(** ** The correction step *)

Lemma is_mat_gain_of (c covariance : matrix) :
  is_mat 8 8 covariance -> is_mat 8 4 (gain_of c covariance).
Proof.
  intros Hc. pose proof is_mat_update_mat as HH.
  assert (HHt : is_mat 8 4 (transpose (_update_mat __init__)))
    by (apply (is_mat_transpose HH); lia).
  pose proof (is_mat_mat_mul Hc HHt ltac:(lia) ltac:(lia)) as [Hl _].
  split.
  - unfold gain_of. rewrite length_map. exact Hl.
  - apply Forall_forall. intros row Hrow. unfold gain_of in Hrow.
    apply in_map_iff in Hrow. destruct Hrow as [col [<- _]].
    apply length_backward_subst.
Qed.

Lemma broadcast1_ok (f : R -> R -> R) (n : nat) (u v : vector) :
  is_vec n u -> is_vec n v ->
  broadcast1 f u v = Ok (map (fun p => f (fst p) (snd p)) (combine u v))
  /\ is_vec n (map (fun p => f (fst p) (snd p)) (combine u v)).
Proof.
  intros Hu Hv. unfold broadcast1. rewrite Hu, Hv, Nat.eqb_refl. split; [reflexivity|].
  unfold is_vec. rewrite length_map, length_combine, Hu, Hv. apply Nat.min_id.
Qed.

(** The rows of the factor have the length of the rows of a. *)
Lemma potrf_shape (a : matrix) (n : nat) :
  is_mat n n a ->
  forall i Ls, (i <= n)%nat -> lapack.potrf a i = Some Ls -> is_mat i n Ls.
Proof.
  intros Ha. induction i as [|i IH]; intros Ls Hi Hp.
  - injection Hp as <-. split; [reflexivity|constructor].
  - cbn [lapack.potrf] in Hp.
    destruct (lapack.potrf a i) as [Ls0|] eqn:E; [|discriminate].
    destruct (Rlt_dec 0 _) as [_|_]; [|discriminate].
    injection Hp as <-. destruct (IH Ls0 ltac:(lia) eq_refl) as [Hl Hrows].
    split.
    + rewrite length_app, Hl. cbn [length]. lia.
    + apply Forall_app. split; [exact Hrows|]. constructor; [|constructor].
      rewrite length_app, length_forward_subst. cbn [length].
      change (match nth i a [] with [] => [] | _ :: l => skipn i l end)
        with (skipn (S i) (nth i a [])).
      rewrite length_skipn, (@is_mat_row n n a i Ha) by lia. lia.
Qed.

(** [update] when the factorisation of the projected covariance goes
    through. *)
Lemma update_with_factor (mean : vector) (covariance : matrix) (measurement pm : vector)
  (S c : matrix) :
  is_vec 8 mean -> is_mat 8 8 covariance -> is_vec 4 measurement ->
  project __init__ mean covariance = Ok (pm, S) ->
  lapack.potrf S 4 = Some c ->
  exists new_mean,
    is_vec 8 new_mean
    /\ update __init__ mean covariance measurement
       = Ok (new_mean,
             mat_map2 Rminus covariance
               (mat_mul (gain_of c covariance)
                  (mat_mul S (transpose (gain_of c covariance))))).
Proof.
  intros Hm Hc Hz Hproj Hpotrf.
  pose proof is_mat_update_mat as HH.
  assert (HHt : is_mat 8 4 (transpose (_update_mat __init__)))
    by (apply (is_mat_transpose HH); lia).
  assert (HS : is_mat 4 4 S).
  { rewrite (project_ok Hm Hc) in Hproj. injection Hproj as _ <-.
    apply is_mat_projected, Hc. }
  assert (Hpm : is_vec 4 pm).
  { assert (Epm : pm = mat_vec (_update_mat __init__) mean)
      by (rewrite (project_ok Hm Hc) in Hproj; congruence).
    rewrite Epm, (mat_vec_eq mean HH) by lia. apply length_mk_vec. }
  pose proof (potrf_shape HS (le_n 4) Hpotrf) as Hcm.
  pose proof (is_mat_gain_of c Hc) as HK.
  assert (HKt : is_mat 4 8 (transpose (gain_of c covariance)))
    by (apply (is_mat_transpose HK); lia).
  pose proof (is_mat_mat_mul Hc HHt ltac:(lia) ltac:(lia)) as Hb.
  destruct (@broadcast1_ok Rminus 4 measurement pm Hz Hpm) as [Hsub Hinn].
  set (innovation := map _ (combine measurement pm)) in *.
  assert (Hd : is_vec 8 (vec_mat innovation (transpose (gain_of c covariance)))).
  { rewrite (vec_mat_eq Hinn HKt) by lia. apply length_mk_vec. }
  destruct (@broadcast1_ok Rplus 8 mean _ Hm Hd) as [Hadd Hnew].
  eexists. split; [exact Hnew|].
  unfold update. rewrite Hproj. cbn [bind].
  unfold scipy.linalg.cho_factor.
  rewrite (nrows_is_mat HS), (ncols_is_mat HS) by lia. cbn [Nat.eqb negb].
  rewrite Hpotrf. cbn [bind]. unfold np.T.
  rewrite (np_dot_ok Hc HHt) by lia. cbn [bind].
  unfold scipy.linalg.cho_solve.
  rewrite (nrows_is_mat Hcm), (ncols_is_mat Hcm) by lia. cbn [Nat.eqb negb].
  rewrite (nrows_is_mat (is_mat_transpose Hb ltac:(lia))). cbn [Nat.eqb negb bind].
  unfold np.T. rewrite (transpose_involutive Hb) by lia.
  fold (gain_of c covariance).
  rewrite (transpose_involutive HK) by lia.
  unfold np.subtract. rewrite Hsub. cbn [bind].
  rewrite (np_dot_vm_ok Hinn HKt). cbn [bind].
  unfold np.add. rewrite Hadd. cbn [bind].
  rewrite (multi_dot_ok HK HS HKt) by lia. cbn [bind].
  unfold np.subtract2. rewrite (@elementwise2_ok Rminus 8 8); try lia.
  - reflexivity.
  - exact Hc.
  - apply (is_mat_mat_mul HK); try lia. apply (is_mat_mat_mul HS HKt); lia.
Qed.

(** [update] when a pivot of the projected covariance is not positive:
    the failure of the factorisation is what the caller sees. *)
Lemma update_without_factor (mean : vector) (covariance : matrix) (measurement pm : vector)
  (S : matrix) :
  is_vec 8 mean -> is_mat 8 8 covariance ->
  project __init__ mean covariance = Ok (pm, S) ->
  lapack.potrf S 4 = None ->
  update __init__ mean covariance measurement
  = Raise (LinAlgError "leading minor of the array is not positive definite").
Proof.
  intros Hm Hc Hproj Hpotrf.
  assert (HS : is_mat 4 4 S).
  { rewrite (project_ok Hm Hc) in Hproj. injection Hproj as _ <-.
    apply is_mat_projected, Hc. }
  unfold update. rewrite Hproj. cbn [bind].
  unfold scipy.linalg.cho_factor.
  rewrite (nrows_is_mat HS), (ncols_is_mat HS) by lia. cbn [Nat.eqb negb].
  rewrite Hpotrf. reflexivity.
Qed.


(** ** Bilinear forms *)

Lemma quad_form_bil (n : nat) (M : matrix) (x : vector) :
  quad_form n M x = bil n (mget M) (vget x) (vget x).
Proof. reflexivity. Qed.

Lemma bil_ext (n : nat) (M N : nat -> nat -> R) (u u' v v' : nat -> R) :
  (forall i j, (i < n)%nat -> (j < n)%nat -> M i j = N i j) ->
  (forall i, (i < n)%nat -> u i = u' i) ->
  (forall i, (i < n)%nat -> v i = v' i) ->
  bil n M u v = bil n N u' v'.
Proof.
  intros HM Hu Hv. unfold bil. apply rsum_ext. intros i Hi. apply rsum_ext. intros j Hj.
  rewrite (HM i j Hi Hj), (Hu i Hi), (Hv j Hj). reflexivity.
Qed.



Lemma bil_plus_M (n : nat) (M N : nat -> nat -> R) (u v : nat -> R) :
  bil n (fun i j => M i j + N i j) u v = bil n M u v + bil n N u v.
Proof.
  unfold bil. rewrite <- rsum_plus. apply rsum_ext. intros i Hi.
  rewrite <- rsum_plus. apply rsum_ext. intros j Hj. ring.
Qed.



(** Vectors that vanish from index m on: the form only sees the leading
    block. *)
Lemma bil_leading (n m : nat) (M : nat -> nat -> R) (u v : nat -> R) :
  (m <= n)%nat ->
  (forall j, (m <= j < n)%nat -> v j = 0) ->
  bil n M u v = rsum n (fun i => rsum m (fun j => u i * M i j * v j)).
Proof.
  intros Hmn Hv. unfold bil. apply rsum_ext. intros i Hi.
  apply rsum_extend; [exact Hmn|]. intros j Hj. rewrite (Hv j Hj). ring.
Qed.

Lemma rsum_prod (n m : nat) (f g : nat -> R) (c : R) :
  rsum n f * c * rsum m g = rsum n (fun i => rsum m (fun j => f i * c * g j)).
Proof.
  rewrite Rmult_assoc, <- rsum_mult_r. apply rsum_ext. intros i Hi.
  rewrite <- Rmult_assoc, <- rsum_mult_l. reflexivity.
Qed.

(** The form of A.M.A^T at x is the form of M at A^T x. *)
Lemma bil_congruence (n m : nat) (A M : nat -> nat -> R) (x y : nat -> R) :
  bil n (fun i j => rsum m (fun k => A i k * rsum m (fun l => M k l * A j l))) x y
  = bil m M (fun k => rsum n (fun i => x i * A i k)) (fun l => rsum n (fun j => A j l * y j)).
Proof.
  unfold bil.
  transitivity (rsum m (fun k => rsum m (fun l => rsum n (fun i => rsum n (fun j =>
                  (x i * A i k) * M k l * (A j l * y j)))))).
  - rewrite (@rsum_ext n _ (fun i => rsum m (fun k => rsum n (fun j => rsum m (fun l =>
               (x i * A i k) * M k l * (A j l * y j)))))).
    2:{ intros i Hi. rewrite rsum_swap. apply rsum_ext. intros j Hj.
        rewrite <- rsum_mult_l, <- rsum_mult_r. apply rsum_ext. intros k Hk.
        replace (x i * (A i k * rsum m (fun l => M k l * A j l)) * y j)
          with ((x i * A i k * y j) * rsum m (fun l => M k l * A j l)) by ring.
        rewrite <- rsum_mult_l. apply rsum_ext. intros l Hl. ring. }
    rewrite rsum_swap. apply rsum_ext. intros k Hk.
    rewrite (@rsum_ext n _ (fun i => rsum m (fun l => rsum n (fun j =>
               (x i * A i k) * M k l * (A j l * y j))))).
    2:{ intros i Hi. apply rsum_swap. }
    apply rsum_swap.
  - apply rsum_ext. intros k Hk. apply rsum_ext. intros l Hl.
    symmetry. apply rsum_prod.
Qed.

Lemma bil_diag_nonneg (n : nat) (d : nat -> R) (x : nat -> R) :
  (forall i, (i < n)%nat -> 0 <= d i) ->
  0 <= bil n (fun i j => if (i =? j)%nat then d i else 0) x x.
Proof.
  intros Hd. unfold bil. apply rsum_nonneg. intros i Hi.
  rewrite (@rsum_ext n _ (fun j => if (j =? i)%nat then x j * d j * x j else 0)).
  2:{ intros j Hj. destruct (Nat.eqb_spec i j), (Nat.eqb_spec j i); subst; try lia; ring. }
  rewrite rsum_delta by exact Hi. specialize (Hd i Hi). nra.
Qed.


(** ** Symmetry and definiteness of the matrices of the filter *)



Lemma sandwich_entry (n m : nat) (A P : matrix) (i j : nat) :
  is_mat n m A -> is_mat m m P -> (0 < m)%nat -> (i < n)%nat -> (j < n)%nat ->
  mget (mat_mul A (mat_mul P (transpose A))) i j
  = rsum m (fun k => mget A i k * rsum m (fun l => mget P k l * mget A j l)).
Proof.
  intros HA HP Hm Hi Hj.
  assert (HAt : is_mat m n (transpose A)) by (apply (is_mat_transpose HA); lia).
  assert (HPAt : is_mat m n (mat_mul P (transpose A)))
    by (apply (is_mat_mat_mul HP HAt); lia).
  rewrite (mget_mat_mul HA HPAt) by lia. apply rsum_ext. intros k Hk.
  rewrite (mget_mat_mul HP HAt) by lia. f_equal. apply rsum_ext. intros l Hl.
  rewrite (mget_transpose HA Hl Hj). reflexivity.
Qed.

Lemma sandwich_symmetric (n m : nat) (A P : matrix) :
  is_mat n m A -> is_mat m m P -> (0 < m)%nat -> symmetric m P ->
  symmetric n (mat_mul A (mat_mul P (transpose A))).
Proof.
  intros HA HP Hm Hsym i j Hi Hj.
  rewrite (sandwich_entry HA HP Hm Hi Hj), (sandwich_entry HA HP Hm Hj Hi).
  rewrite (@rsum_ext m _ (fun k => rsum m (fun l => mget A i k * mget P k l * mget A j l))).
  2:{ intros k Hk. rewrite <- rsum_mult_l. apply rsum_ext. intros; ring. }
  rewrite rsum_swap. apply rsum_ext. intros l Hl.
  rewrite <- rsum_mult_l. apply rsum_ext. intros k Hk.
  rewrite (Hsym k l Hk Hl). ring.
Qed.

Lemma sandwich_semidefinite (n m : nat) (A P : matrix) :
  is_mat n m A -> is_mat m m P -> (0 < m)%nat -> positive_semidefinite m P ->
  positive_semidefinite n (mat_mul A (mat_mul P (transpose A))).
Proof.
  intros HA HP Hm Hpsd x Hx. rewrite quad_form_bil.
  rewrite (@bil_ext n _ (fun i j => rsum m (fun k => mget A i k
                                     * rsum m (fun l => mget P k l * mget A j l)))
             (vget x) (vget x) (vget x) (vget x)); auto.
  2:{ intros i j Hi Hj. apply (sandwich_entry HA HP Hm Hi Hj). }
  rewrite bil_congruence.
  rewrite (@bil_ext m (mget P) (mget P) _ (fun k => rsum n (fun i => vget x i * mget A i k))
             _ (fun k => rsum n (fun i => vget x i * mget A i k))); auto.
  2:{ intros l Hl. apply rsum_ext. intros; ring. }
  apply (positive_semidefinite_fun _ Hpsd).
Qed.

Lemma diag_square_symmetric (n : nat) (v : vector) :
  is_vec n v -> symmetric n (np.diag (np.square v)).
Proof.
  intros Hv i j Hi Hj.
  rewrite !mget_diag by (rewrite length_square, Hv; assumption).
  destruct (Nat.eqb_spec i j), (Nat.eqb_spec j i); subst; try lia; reflexivity.
Qed.

Lemma bil_diag_square_nonneg (n : nat) (v : vector) (x : nat -> R) :
  is_vec n v -> 0 <= bil n (mget (np.diag (np.square v))) x x.
Proof.
  intros Hv.
  rewrite (@bil_ext n _ (fun i j => if (i =? j)%nat then vget v i * vget v i else 0)
             x x x x); auto.
  - apply bil_diag_nonneg. intros i Hi. nra.
  - intros i j Hi Hj. rewrite mget_diag by (rewrite length_square, Hv; assumption).
    destruct (i =? j)%nat; [|reflexivity]. apply vget_square. rewrite Hv. exact Hi.
Qed.

Lemma diag_square_semidefinite (n : nat) (v : vector) :
  is_vec n v -> positive_semidefinite n (np.diag (np.square v)).
Proof. intros Hv x Hx. rewrite quad_form_bil. apply bil_diag_square_nonneg, Hv. Qed.

Lemma mget_mat_map2 (f : R -> R -> R) (n m : nat) (A B : matrix) (i j : nat) :
  is_mat n m A -> (i < n)%nat -> (j < m)%nat ->
  mget (mat_map2 f A B) i j = f (mget A i j) (mget B i j).
Proof.
  intros HA Hi Hj. rewrite (mat_map2_eq f B HA) by lia.
  rewrite mget_mk_mat by assumption. reflexivity.
Qed.

Lemma plus_symmetric (n : nat) (A B : matrix) :
  is_mat n n A -> symmetric n A -> symmetric n B -> symmetric n (mat_map2 Rplus A B).
Proof.
  intros HA HsA HsB i j Hi Hj.
  rewrite !(mget_mat_map2 Rplus B HA) by assumption.
  rewrite (HsA i j Hi Hj), (HsB i j Hi Hj). reflexivity.
Qed.

Lemma plus_semidefinite (n : nat) (A B : matrix) :
  is_mat n n A -> positive_semidefinite n A -> positive_semidefinite n B ->
  positive_semidefinite n (mat_map2 Rplus A B).
Proof.
  intros HA HpA HpB x Hx. rewrite quad_form_bil.
  rewrite (@bil_ext n _ (fun i j => mget A i j + mget B i j)
             (vget x) (vget x) (vget x) (vget x)); auto.
  2:{ intros i j Hi Hj. apply (mget_mat_map2 Rplus B HA Hi Hj). }
  rewrite bil_plus_M. rewrite <- !quad_form_bil.
  specialize (HpA x Hx). specialize (HpB x Hx). lra.
Qed.

(** ** What each operation does to the covariance *)


Lemma predict_covariance (mean : vector) (covariance : matrix) :
  is_vec 8 mean -> is_mat 8 8 covariance ->
  symmetric 8 covariance -> positive_semidefinite 8 covariance ->
  exists mean' covariance',
    predict __init__ mean covariance = Ok (mean', covariance')
    /\ is_vec 8 mean' /\ is_mat 8 8 covariance'
    /\ symmetric 8 covariance' /\ positive_semidefinite 8 covariance'.
Proof.
  intros Hm Hc Hsym Hpsd. rewrite (predict_ok Hm Hc).
  pose proof is_mat_motion_mat as HA.
  assert (HAt : is_mat 8 8 (transpose (_motion_mat __init__)))
    by (apply (is_mat_transpose HA); lia).
  assert (HAPA : is_mat 8 8 (mat_mul (_motion_mat __init__)
                               (mat_mul covariance (transpose (_motion_mat __init__))))).
  { apply (is_mat_mat_mul HA); try lia. apply (is_mat_mat_mul Hc HAt); lia. }
  eexists _, _. split; [reflexivity|].
  split; [rewrite (vec_mat_eq Hm HAt) by lia; apply length_mk_vec|].
  split; [rewrite (mat_map2_eq Rplus _ HAPA) by lia; apply is_mat_mk_mat|].
  split.
  - apply (plus_symmetric HAPA).
    + apply (sandwich_symmetric HA Hc); [lia|exact Hsym].
    + apply diag_square_symmetric. reflexivity.
  - apply (plus_semidefinite HAPA).
    + apply (sandwich_semidefinite HA Hc); [lia|exact Hpsd].
    + apply diag_square_semidefinite. reflexivity.
Qed.

Lemma projected_symmetric (mean pm : vector) (covariance S : matrix) :
  is_vec 8 mean -> is_mat 8 8 covariance -> symmetric 8 covariance ->
  project __init__ mean covariance = Ok (pm, S) -> symmetric 4 S.
Proof.
  intros Hm Hc Hsym Hproj.
  assert (ES : S = mat_map2 Rplus
                     (mat_mul (_update_mat __init__)
                        (mat_mul covariance (transpose (_update_mat __init__))))
                     (innovation_cov __init__ (vget mean 3)))
    by (rewrite (project_ok Hm Hc) in Hproj; congruence).
  intros i j Hi Hj. rewrite ES, !projected_cov_entry by assumption.
  rewrite (Hsym i j) by lia. f_equal.
  apply (@diag_square_symmetric 4); [reflexivity|assumption|assumption].
Qed.

(** The gain solves K.S = P.H^T; the entries of P.H^T are those of the
    first four columns of P. *)
Lemma gain_equation (covariance S c : matrix) (i j : nat) :
  is_mat 8 8 covariance -> symmetric 4 S -> cholesky_rows S 4 4 c ->
  (i < 8)%nat -> (j < 4)%nat ->
  rsum 4 (fun l => mget (gain_of c covariance) i l * mget S l j) = mget covariance i j.
Proof.
  intros Hc Hsym Hinv Hi Hj.
  pose proof is_mat_update_mat as HH.
  assert (HHt : is_mat 8 4 (transpose (_update_mat __init__)))
    by (apply (is_mat_transpose HH); lia).
  pose proof (is_mat_mat_mul Hc HHt ltac:(lia) ltac:(lia)) as Hb.
  set (b := nth i (mat_mul covariance (transpose (_update_mat __init__))) []).
  assert (Hrow : nth i (gain_of c covariance) []
                 = lapack.backward_subst c (lapack.forward_subst c b 4) 4 4).
  { unfold gain_of. rewrite (@nth_map_in vector vector [] [])
      by (destruct Hb as [Hl _]; unfold matrix, vector in *; lia).
    reflexivity. }
  rewrite (@rsum_ext 4 _ (fun l => mget S j l * vget (nth i (gain_of c covariance) []) l)).
  2:{ intros l Hl. rewrite (Hsym l j Hl Hj). unfold mget at 1. unfold vget. ring. }
  rewrite Hrow. rewrite (cho_solve_correct b Hsym Hinv Hj).
  change (vget b j) with (mget (mat_mul covariance (transpose (_update_mat __init__))) i j).
  rewrite (mget_mat_mul Hc HHt) by lia.
  rewrite (@rsum_ext 8 _ (fun k => mget (_update_mat __init__) j k * mget covariance i k)).
  2:{ intros k Hk. rewrite (mget_transpose HH Hk Hj). ring. }
  apply (update_row_sum (fun k => mget covariance i k) Hj).
Qed.


Lemma rsum_pos (n : nat) (f : nat -> R) :
  (forall k, (k < n)%nat -> 0 <= f k) -> (exists k, (k < n)%nat /\ 0 < f k) ->
  0 < rsum n f.
Proof.
  induction n as [|n IH]; intros Hf [k [Hk Hpos]]; [lia|]. cbn [rsum].
  assert (0 <= f n) by (apply Hf; lia).
  assert (0 <= rsum n f) by (apply rsum_nonneg; intros; apply Hf; lia).
  destruct (Nat.eq_dec k n) as [->|Hne]; [lra|].
  assert (0 < rsum n f).
  { apply IH; [intros; apply Hf; lia|]. exists k. split; [lia|exact Hpos]. }
  lra.
Qed.

Lemma bil_diag_pos (n : nat) (d : nat -> R) (x : nat -> R) :
  (forall i, (i < n)%nat -> 0 < d i) -> (exists i, (i < n)%nat /\ x i <> 0) ->
  0 < bil n (fun i j => if (i =? j)%nat then d i else 0) x x.
Proof.
  intros Hd [k [Hk Hx]]. unfold bil.
  rewrite (@rsum_ext n _ (fun i => x i * d i * x i)).
  2:{ intros i Hi.
      rewrite (@rsum_ext n _ (fun j => if (j =? i)%nat then x j * d j * x j else 0)).
      2:{ intros j Hj. destruct (Nat.eqb_spec i j), (Nat.eqb_spec j i); subst; try lia; ring. }
      apply rsum_delta. exact Hi. }
  apply rsum_pos.
  - intros i Hi. specialize (Hd i Hi). nra.
  - exists k. split; [exact Hk|]. specialize (Hd k Hk).
    assert (0 < x k * x k) by nra. nra.
Qed.

(** In exact arithmetic the projected covariance of a state of nonzero
    height and positive semi-definite covariance is positive definite.
    (Not so on binary64 arrays, where the noise can underflow or be
    absorbed: the statements about [update] take the conclusion of this
    lemma as their hypothesis, and the lemma serves the examples.) *)
Lemma projected_positive_definite (mean pm : vector) (covariance S : matrix) :
  is_vec 8 mean -> is_mat 8 8 covariance -> positive_semidefinite 8 covariance ->
  vget mean 3 <> 0 ->
  project __init__ mean covariance = Ok (pm, S) -> positive_definite 4 S.
Proof.
  intros Hm Hc Hpsd Hh Hproj.
  assert (ES : S = mat_map2 Rplus
                     (mat_mul (_update_mat __init__)
                        (mat_mul covariance (transpose (_update_mat __init__))))
                     (innovation_cov __init__ (vget mean 3)))
    by (rewrite (project_ok Hm Hc) in Hproj; congruence).
  intros u Hu Hnz. rewrite quad_form_bil.
  pose (h := vget mean 3).
  assert (Hh' : h <> 0) by exact Hh.
  set (d := fun i : nat => vget [1 / 20 * h * (1 / 20 * h); 1 / 20 * h * (1 / 20 * h);
                                 1e-1 * 1e-1; 1 / 20 * h * (1 / 20 * h)] i).
  rewrite (@bil_ext 4 _ (fun i j => mget covariance i j
                                    + (if (i =? j)%nat then d i else 0))
             (vget u) (vget u) (vget u) (vget u)); auto.
  2:{ intros i j Hi Hj. rewrite ES, projected_cov_entry by assumption. f_equal.
      unfold innovation_cov. rewrite mget_diag by assumption.
      destruct (i =? j)%nat; [|reflexivity].
      unfold d, h. below i Hi;
        cbn [vget nth np.square map __init__ _std_weight_position]; lra. }
  rewrite bil_plus_M.
  assert (H1 : 0 <= bil 4 (mget covariance) (vget u) (vget u)).
  { set (w := fun i => if (i <? 4)%nat then vget u i else 0).
    assert (Hw0 : forall j, (4 <= j < 8)%nat -> w j = 0).
    { intros j Hj. unfold w. destruct (Nat.ltb_spec j 4); [lia|reflexivity]. }
    assert (Hwu : forall j, (j < 4)%nat -> w j = vget u j).
    { intros j Hj. unfold w. destruct (Nat.ltb_spec j 4); [reflexivity|lia]. }
    assert (E : bil 8 (mget covariance) w w = bil 4 (mget covariance) (vget u) (vget u)).
    { rewrite (@bil_leading 8 4 _ w w) by (try lia; exact Hw0).
      unfold bil. rewrite (@rsum_extend 4 8).
      2: lia.
      2:{ intros i Hi. apply rsum_zero. intros j Hj. rewrite (Hw0 i Hi). ring. }
      apply rsum_ext. intros i Hi. apply rsum_ext. intros j Hj.
      rewrite (Hwu i Hi), (Hwu j Hj). reflexivity. }
    rewrite <- E. apply (positive_semidefinite_fun w Hpsd). }
  assert (H2 : 0 < bil 4 (fun i j => if (i =? j)%nat then d i else 0) (vget u) (vget u)).
  { apply bil_diag_pos; [|exact Hnz]. intros i Hi. unfold d.
    assert (0 < h * h) by nra.
    below i Hi; cbn [vget nth]; nra. }
  lra.
Qed.

Lemma sample_shapes : is_vec 8 sample_mean /\ is_mat 8 8 sample_covariance.
Proof. split; [reflexivity|]. apply is_mat_diag. reflexivity. Qed.

Lemma sample_symmetric : symmetric 8 sample_covariance.
Proof. apply diag_square_symmetric. reflexivity. Qed.

Lemma sample_semidefinite : positive_semidefinite 8 sample_covariance.
Proof. apply diag_square_semidefinite. reflexivity. Qed.

Lemma sample_project :
  project __init__ sample_mean sample_covariance
  = Ok (fst sample_projection, snd sample_projection).
Proof. apply project_ok; apply sample_shapes. Qed.

Lemma sample_projection_definite : positive_definite 4 (snd sample_projection).
Proof.
  apply (@projected_positive_definite sample_mean (fst sample_projection)
           sample_covariance).
  - apply sample_shapes.
  - apply sample_shapes.
  - apply sample_semidefinite.
  - cbn. lra.
  - apply sample_project.
Qed.








(** C10.  The covariance [update] returns does not depend on the
    measurement: two calls on the same state end the same way, either
    both with the same covariance or both with the same exception, and
    when the projected covariance is positive definite both return. *)
Theorem update_covariance_ignores_measurement (mean : vector) (covariance : matrix)
  (m1 m2 pm : vector) (S : matrix) :
  is_vec 8 mean -> is_mat 8 8 covariance -> is_vec 4 m1 -> is_vec 4 m2 ->
  project __init__ mean covariance = Ok (pm, S) ->
  match update __init__ mean covariance m1, update __init__ mean covariance m2 with
  | Ok (_, P1), Ok (_, P2) => P1 = P2
  | Raise e1, Raise e2 => e1 = e2
  | _, _ => False
  end
  /\ (symmetric 4 S -> positive_definite 4 S ->
      exists mean1 mean2 new_covariance,
        update __init__ mean covariance m1 = Ok (mean1, new_covariance)
        /\ update __init__ mean covariance m2 = Ok (mean2, new_covariance)).
Proof.
  intros Hm Hc H1 H2 Hproj.
  assert (HS : is_mat 4 4 S).
  { rewrite (project_ok Hm Hc) in Hproj. injection Hproj as _ <-.
    apply is_mat_projected, Hc. }
  split.
  - destruct (lapack.potrf S 4) as [c|] eqn:Hpotrf.
    + destruct (update_with_factor Hm Hc H1 Hproj Hpotrf) as [mean1 [_ E1]].
      destruct (update_with_factor Hm Hc H2 Hproj Hpotrf) as [mean2 [_ E2]].
      rewrite E1, E2. reflexivity.
    + rewrite (update_without_factor m1 Hm Hc Hproj Hpotrf).
      rewrite (update_without_factor m2 Hm Hc Hproj Hpotrf). reflexivity.
  - intros Hsym Hpd.
    destruct (@potrf_succeeds S 4 HS Hsym Hpd 4 (le_n 4)) as [c [Hpotrf _]].
    destruct (update_with_factor Hm Hc H1 Hproj Hpotrf) as [mean1 [_ E1]].
    destruct (update_with_factor Hm Hc H2 Hproj Hpotrf) as [mean2 [_ E2]].
    exists mean1, mean2. eexists. split; [exact E1|exact E2].
Qed.

Lemma update_covariance_ignores_measurement_witness :
  match update __init__ sample_mean sample_covariance [102; 49; 0.5; 198],
        update __init__ sample_mean sample_covariance [90; 60; 0.4; 210] with
  | Ok (_, P1), Ok (_, P2) => P1 = P2
  | Raise e1, Raise e2 => e1 = e2
  | _, _ => False
  end
  /\ (symmetric 4 (snd sample_projection) -> positive_definite 4 (snd sample_projection) ->
      exists mean1 mean2 new_covariance,
        update __init__ sample_mean sample_covariance [102; 49; 0.5; 198]
        = Ok (mean1, new_covariance)
        /\ update __init__ sample_mean sample_covariance [90; 60; 0.4; 210]
           = Ok (mean2, new_covariance)).
Proof.
  apply (@update_covariance_ignores_measurement sample_mean sample_covariance
           [102; 49; 0.5; 198] [90; 60; 0.4; 210]
           (fst sample_projection) (snd sample_projection)).
  - apply sample_shapes.
  - apply sample_shapes.
  - reflexivity.
  - reflexivity.
  - apply sample_project.
Defined.

(** ** Gating *)

Lemma subtract_rows_ok (n : nat) (M : matrix) (v : vector) :
  (forall row, In row M -> is_vec n row) -> is_vec n v ->
  np.subtract_rows M v = Ok (map (diff v) M).
Proof.
  intros HM Hv. unfold np.subtract_rows. apply mapM_ok.
  intros row Hrow. unfold np.subtract.
  apply (proj1 (broadcast1_ok Rminus (HM row Hrow) Hv)).
Qed.

Lemma length_firstn_row (n k : nat) (row : vector) :
  is_vec n row -> (k <= n)%nat -> is_vec k (firstn k row).
Proof. intros Hr Hk. unfold is_vec in *. rewrite length_firstn. lia. Qed.

Lemma projected_mean_shape (mean pm : vector) (covariance S : matrix) :
  is_vec 8 mean -> is_mat 8 8 covariance ->
  project __init__ mean covariance = Ok (pm, S) ->
  is_vec 4 pm /\ is_mat 4 4 S.
Proof.
  intros Hm Hc Hproj. rewrite (project_ok Hm Hc) in Hproj.
  assert (Epm : pm = mat_vec (_update_mat __init__) mean) by congruence.
  assert (ES : S = mat_map2 Rplus
                     (mat_mul (_update_mat __init__)
                        (mat_mul covariance (transpose (_update_mat __init__))))
                     (innovation_cov __init__ (vget mean 3))) by congruence.
  split.
  - rewrite Epm, (mat_vec_eq mean is_mat_update_mat) by lia. apply length_mk_vec.
  - rewrite ES. apply is_mat_projected, Hc.
Qed.

Lemma gating_distance_ok (N : nat) (mean : vector) (covariance measurements : matrix)
  (only_position : bool) (metric : string) (pm : vector) (S : matrix) :
  is_vec 8 mean -> is_mat 8 8 covariance -> is_mat N 4 measurements ->
  project __init__ mean covariance = Ok (pm, S) ->
  gating_distance __init__ mean covariance measurements only_position metric
  = if only_position
    then gating_kernel (firstn 2 pm) (map (firstn 2) (firstn 2 S))
           (map (firstn 2) measurements) metric
    else gating_kernel pm S measurements metric.
Proof.
  intros Hm Hc Hz Hproj.
  destruct (projected_mean_shape Hm Hc Hproj) as [Hpm HS].
  unfold gating_distance. rewrite Hproj. cbn [bind].
  destruct only_position.
  - rewrite (@subtract_rows_ok 2).
    + reflexivity.
    + intros row Hrow. apply in_map_iff in Hrow. destruct Hrow as [z [<- Hin]].
      apply (@length_firstn_row 4); [|lia]. apply (is_mat_In z Hz Hin).
    + apply (length_firstn_row Hpm). lia.
  - rewrite (@subtract_rows_ok 4).
    + reflexivity.
    + intros row Hrow. apply (is_mat_In row Hz Hrow).
    + exact Hpm.
Qed.

(** C6, as worded, fails: the metric is looked at after the projection,
    so with a mean of two entries the call ends in the IndexError of
    [mean[3]], whatever the metric. *)
Lemma gating_projects_before_checking_metric :
  gating_distance __init__ [1; 2] (np.eye 8 8) [[1; 2; 3; 4]] false "euclidean"
  = Raise IndexError
  /\ ~ gating_rejects_metric_before_anything_else.
Proof.
  split; [reflexivity|].
  intros H.
  specialize (H [1; 2] (np.eye 8 8) [[1; 2; 3; 4]] false "euclidean"%string).
  assert (E : gating_distance __init__ [1; 2] (np.eye 8 8) [[1; 2; 3; 4]] false "euclidean"
              = Raise IndexError) by reflexivity.
  rewrite E in H.
  assert (Raise IndexError = Raise (ValueError "Invalid distance metric.")
          :> result vector) by (apply H; discriminate).
  discriminate.
Qed.

(** C6, amended.  On an 8-vector mean, an 8 x 8 covariance and an
    N x 4 batch, a metric other than "gaussian" and "maha" makes
    [gating_distance] raise the invalid-metric error and return nothing.
    The metric is examined after the projection: on any arguments on
    which [project] raises, that exception is the outcome, whatever the
    metric. *)
Theorem gating_distance_unknown_metric (N : nat) (mean : vector)
  (covariance measurements : matrix) (only_position : bool) (metric : string) :
  is_vec 8 mean -> is_mat 8 8 covariance -> is_mat N 4 measurements ->
  metric <> "gaussian"%string -> metric <> "maha"%string ->
  gating_distance __init__ mean covariance measurements only_position metric
  = Raise (ValueError "Invalid distance metric.")
  /\ (forall mean' covariance' e,
        project __init__ mean' covariance' = Raise e ->
        gating_distance __init__ mean' covariance' measurements only_position metric
        = Raise e).
Proof.
  intros Hm Hc Hz Hg Hmaha. split.
  - rewrite (@gating_distance_ok N mean covariance measurements only_position metric
               _ _ Hm Hc Hz (project_ok Hm Hc)).
    apply String.eqb_neq in Hg. apply String.eqb_neq in Hmaha.
    unfold gating_kernel. rewrite Hg, Hmaha. destruct only_position; reflexivity.
  - intros mean' covariance' e He. unfold gating_distance. rewrite He. reflexivity.
Qed.

Lemma gating_distance_unknown_metric_witness :
  gating_distance __init__ sample_mean sample_covariance
    [[102; 49; 0.5; 198]; [90; 60; 0.4; 210]] true "euclidean"
  = Raise (ValueError "Invalid distance metric.")
  /\ (forall mean' covariance' e,
        project __init__ mean' covariance' = Raise e ->
        gating_distance __init__ mean' covariance'
          [[102; 49; 0.5; 198]; [90; 60; 0.4; 210]] true "euclidean"
        = Raise e).
Proof.
  apply (@gating_distance_unknown_metric 2).
  - apply sample_shapes.
  - apply sample_shapes.
  - split; [reflexivity|]. repeat constructor.
  - discriminate.
  - discriminate.
Defined.

Lemma length_diff (n : nat) (mean z : vector) :
  is_vec n mean -> is_vec n z -> is_vec n (diff mean z).
Proof.
  intros Hm Hz. unfold diff, is_vec in *.
  rewrite length_map, length_combine, Hm, Hz. apply Nat.min_id.
Qed.

Lemma is_mat_map_rows (n m m' : nat) (f : vector -> vector) (M : matrix) :
  is_mat n m M -> (forall row, In row M -> is_vec m' (f row)) -> is_mat n m' (map f M).
Proof.
  intros [Hl Hrows] Hf. split; [rewrite length_map; exact Hl|].
  apply Forall_forall. intros row Hrow. apply in_map_iff in Hrow.
  destruct Hrow as [r [<- Hin]]. apply Hf, Hin.
Qed.

(** Every pivot the factorisation accepts is positive. *)
Lemma potrf_diagonal (a : matrix) (n : nat) :
  is_mat n n a ->
  forall i Ls, (i <= n)%nat -> lapack.potrf a i = Some Ls ->
  forall r, (r < i)%nat -> 0 < mget Ls r r.
Proof.
  intros Ha. induction i as [|i IH]; intros Ls Hi Hp r Hr; [lia|].
  cbn [lapack.potrf] in Hp.
  destruct (lapack.potrf a i) as [Ls0|] eqn:E; [|discriminate].
  destruct (Rlt_dec 0 _) as [Hd|_]; [|discriminate].
  injection Hp as <-.
  assert (Hin : (i <= n)%nat) by lia.
  pose proof (potrf_shape Ha Hin E) as [Hl _].
  unfold mget. destruct (Nat.eq_dec r i) as [->|Hne].
  - rewrite app_nth2 by lia. rewrite Hl, Nat.sub_diag. cbn [nth].
    rewrite app_nth2 by (rewrite length_forward_subst; lia).
    rewrite length_forward_subst, Nat.sub_diag. cbn [nth].
    apply sqrt_lt_R0. exact Hd.
  - rewrite app_nth1 by lia. apply (IH Ls0 Hin eq_refl r). lia.
Qed.

Lemma cholesky_ok (a : matrix) (n : nat) (L : matrix) :
  is_mat n n a -> (0 < n)%nat -> np.linalg.cholesky a = Ok L ->
  is_mat n n L /\ forall r, (r < n)%nat -> mget L r r <> 0.
Proof.
  intros Ha Hn. unfold np.linalg.cholesky.
  rewrite (nrows_is_mat Ha), (ncols_is_mat Ha Hn), Nat.eqb_refl. cbn [negb].
  destruct (lapack.potrf a n) as [c|] eqn:E; [|discriminate].
  intros HL. injection HL as <-.
  pose proof (potrf_shape Ha (le_n n) E) as Hc.
  unfold lapack.tril. rewrite (nrows_is_mat Hc), (ncols_is_mat Hc Hn).
  split; [apply is_mat_mk_mat|].
  intros r Hr. rewrite mget_mk_mat by assumption. rewrite Nat.leb_refl.
  pose proof (potrf_diagonal Ha (le_n n) E Hr). lra.
Qed.

Lemma no_zero_on_diagonal (L : matrix) (n : nat) :
  (forall r, (r < n)%nat -> mget L r r <> 0) ->
  existsb (fun i => if Req_dec_T (mget L i i) 0 then true else false) (seq 0 n) = false.
Proof.
  intros Hd. apply not_true_is_false. intros H.
  apply existsb_exists in H. destruct H as [i [Hin Hi]]. apply in_seq in Hin.
  destruct (Req_dec_T (mget L i i) 0) as [E|_]; [|discriminate].
  apply (Hd i); [lia|exact E].
Qed.

Lemma multiply2_self (n m : nat) (A : matrix) :
  is_mat n m A -> (0 < n)%nat ->
  np.multiply2 A A = Ok (mk_mat n m (fun i j => mget A i j * mget A i j)).
Proof.
  intros HA Hn. unfold np.multiply2. rewrite (elementwise2_ok Rmult HA HA Hn).
  rewrite (mat_map2_eq Rmult A HA Hn). reflexivity.
Qed.

Lemma T_of_width_rows (N d m : nat) (M : matrix) :
  is_mat N d M -> (1 <= N)%nat -> np.T_of_width m M = transpose M.
Proof.
  intros [Hl _] HN. destruct M as [|row M]; [simpl in Hl; lia|reflexivity].
Qed.

Lemma gating_kernel_spec_rows (d N : nat) (mean : vector) (covariance measurements : matrix)
  (metric : string) :
  (1 <= d)%nat -> (1 <= N)%nat ->
  is_vec d mean -> is_mat d d covariance -> is_mat N d measurements ->
  gating_kernel mean covariance measurements metric
  = spec_squared_distances mean covariance measurements metric.
Proof.
  intros Hd HN Hm Hc Hz. unfold gating_kernel, spec_squared_distances. rewrite Hm.
  assert (Hdist : is_mat N d (map (diff mean) measurements)).
  { apply (is_mat_map_rows _ Hz). intros row Hrow.
    apply (length_diff Hm). apply (is_mat_In row Hz Hrow). }
  assert (HlenN : length measurements = N) by apply Hz.
  assert (Hnth : forall i k, (i < N)%nat ->
            mget (map (diff mean) measurements) i k
            = vget (diff mean (nth i measurements [])) k).
  { intros i k Hi. unfold mget.
    rewrite (@nth_map_in vector vector [] [])
      by (unfold matrix, vector in *; lia).
    reflexivity. }
  destruct (metric =? "gaussian")%string.
  - rewrite (multiply2_self Hdist) by lia. cbn [bind]. f_equal.
    rewrite (@map_as_seq (list R) R [] _ measurements), HlenN.
    unfold np.sum_axis1, mk_mat. rewrite map_map.
    apply map_ext_in. intros i Hi. apply in_seq in Hi.
    rewrite length_mk_vec. apply rsum_ext. intros k Hk.
    rewrite vget_mk_vec by exact Hk. rewrite Hnth by lia. reflexivity.
  - destruct (metric =? "maha")%string; [|reflexivity].
    destruct (np.linalg.cholesky covariance) as [L|e] eqn:EL; [|reflexivity].
    cbn [bind].
    destruct (cholesky_ok Hc ltac:(lia) EL) as [HL Hdiag].
    rewrite (T_of_width_rows _ Hdist HN).
    unfold scipy.linalg.solve_triangular, np.T.
    rewrite (nrows_is_mat HL), (ncols_is_mat HL) by lia.
    rewrite (nrows_is_mat (is_mat_transpose Hdist ltac:(lia))).
    rewrite Nat.eqb_refl. cbn [negb].
    rewrite (no_zero_on_diagonal L Hdiag).
    rewrite (transpose_involutive Hdist) by lia.
    set (Y := map (fun col => lapack.forward_subst L col d) (map (diff mean) measurements)).
    assert (HY : is_mat N d Y).
    { apply (is_mat_map_rows _ Hdist). intros row _. apply length_forward_subst. }
    rewrite (T_of_width_rows _ HY HN).
    cbn [bind].
    rewrite (multiply2_self (is_mat_transpose HY ltac:(lia))) by lia. cbn [bind].
    f_equal. unfold np.sum_axis0.
    rewrite (nrows_is_mat (is_mat_mk_mat d N _)).
    rewrite (ncols_is_mat (is_mat_mk_mat d N _)) by lia.
    rewrite (@map_as_seq (list R) R [] _ measurements), HlenN.
    unfold mk_vec. apply map_ext_in. intros j Hj. apply in_seq in Hj.
    apply rsum_ext. intros k Hk.
    rewrite mget_mk_mat by lia.
    rewrite (mget_transpose HY) by lia.
    unfold Y, mget. rewrite map_map.
    rewrite (@nth_map_in vector vector [] [])
      by (unfold matrix, vector in *; lia).
    reflexivity.
Qed.

Lemma gating_kernel_spec_empty (d : nat) (mean : vector) (covariance : matrix)
  (metric : string) :
  (1 <= d)%nat -> is_vec d mean -> is_mat d d covariance ->
  gating_kernel mean covariance [] metric
  = spec_squared_distances mean covariance [] metric.
Proof.
  intros Hd Hm Hc. unfold gating_kernel, spec_squared_distances. rewrite Hm.
  destruct (metric =? "gaussian")%string; [reflexivity|].
  destruct (metric =? "maha")%string; [|reflexivity].
  destruct (np.linalg.cholesky covariance) as [L|e] eqn:EL; [|reflexivity].
  cbn [bind map].
  destruct (cholesky_ok Hc ltac:(lia) EL) as [HL Hdiag].
  assert (Hb : is_mat d 0 (np.T_of_width d (@nil vector))).
  { cbn [np.T_of_width]. split; [apply repeat_length|].
    apply Forall_forall. intros row Hrow. apply repeat_spec in Hrow. subst. reflexivity. }
  unfold scipy.linalg.solve_triangular.
  rewrite (nrows_is_mat HL), (ncols_is_mat HL), (nrows_is_mat Hb) by lia.
  rewrite Nat.eqb_refl. cbn [negb].
  rewrite (no_zero_on_diagonal L Hdiag).
  unfold np.T. rewrite (transpose_eq Hb) by lia.
  cbn [mk_mat seq map]. cbn [bind].
  unfold np.multiply2. rewrite (elementwise2_ok Rmult Hb Hb) by lia. cbn [bind].
  rewrite (mat_map2_eq Rmult _ Hb) by lia.
  unfold np.sum_axis0. rewrite (ncols_is_mat (is_mat_mk_mat d 0 _)) by lia.
  reflexivity.
Qed.

(** The batched computation of [gating_distance] is the per-measurement
    computation of the specification, for a batch of any size. *)
Lemma gating_kernel_spec (d N : nat) (mean : vector) (covariance measurements : matrix)
  (metric : string) :
  (1 <= d)%nat ->
  is_vec d mean -> is_mat d d covariance -> is_mat N d measurements ->
  gating_kernel mean covariance measurements metric
  = spec_squared_distances mean covariance measurements metric.
Proof.
  intros Hd Hm Hc Hz. destruct N as [|N].
  - destruct Hz as [Hl _]. apply length_zero_iff_nil in Hl. subst measurements.
    apply (gating_kernel_spec_empty metric Hd Hm Hc).
  - apply (gating_kernel_spec_rows metric Hd (le_n_S 0 N (Nat.le_0_l N)) Hm Hc Hz).
Qed.

Lemma In_firstn (A : Type) (n : nat) (l : list A) (x : A) :
  In x (firstn n l) -> In x l.
Proof.
  intros H. rewrite <- (firstn_skipn n l). apply in_or_app. left. exact H.
Qed.

Lemma leading_block_shape (S : matrix) :
  is_mat 4 4 S -> is_mat 2 2 (map (firstn 2) (firstn 2 S)).
Proof.
  intros [Hl Hrows]. split.
  - rewrite length_map, length_firstn, Hl. reflexivity.
  - apply Forall_forall. intros row Hrow. apply in_map_iff in Hrow.
    destruct Hrow as [r [<- Hin]]. apply (@length_firstn_row 4); [|lia].
    rewrite Forall_forall in Hrows. apply Hrows. apply (In_firstn _ _ _ Hin).
Qed.

Lemma spec_squared_distances_length (mean : vector) (covariance measurements : matrix)
  (metric : string) (dists : vector) :
  spec_squared_distances mean covariance measurements metric = Ok dists ->
  length dists = length measurements
  /\ forall i, (i < length measurements)%nat -> 0 <= vget dists i.
Proof.
  unfold spec_squared_distances.
  assert (Hsq : forall (n : nat) (y : vector), 0 <= rsum n (fun k => vget y k * vget y k)).
  { intros n y. apply rsum_nonneg. intros k _. nra. }
  destruct (metric =? "gaussian")%string.
  - intros H. injection H as <-. split; [apply length_map|].
    intros i Hi. unfold vget at 1.
    rewrite (@nth_map_in vector R [] 0) by exact Hi. apply Hsq.
  - destruct (metric =? "maha")%string; [|discriminate].
    destruct (np.linalg.cholesky covariance) as [L|e]; [|discriminate].
    cbn [bind]. intros H. injection H as <-. split; [apply length_map|].
    intros i Hi. unfold vget at 1.
    rewrite (@nth_map_in vector R [] 0) by exact Hi. apply Hsq.
Qed.

(** C9.  With [only_position] set, [gating_distance] is the distance
    computation of the specification on the first two components of the
    projected mean, the leading 2 x 2 block of the projected covariance
    and the first two components of every measurement, for a batch of
    any number N of measurements, none included; so it depends on
    nothing else, and what it returns has one entry, a sum of squares,
    per measurement. *)
Theorem gating_only_position (N : nat) (mean : vector) (covariance measurements : matrix)
  (metric : string) (pm : vector) (S : matrix) :
  is_vec 8 mean -> is_mat 8 8 covariance -> is_mat N 4 measurements ->
  project __init__ mean covariance = Ok (pm, S) ->
  gating_distance __init__ mean covariance measurements true metric
  = spec_squared_distances (firstn 2 pm) (map (firstn 2) (firstn 2 S))
      (map (firstn 2) measurements) metric
  /\ (forall dists,
        gating_distance __init__ mean covariance measurements true metric = Ok dists ->
        length dists = N /\ forall i, (i < N)%nat -> 0 <= vget dists i)
  /\ (metric = "gaussian"%string ->
      exists dists,
        gating_distance __init__ mean covariance measurements true metric = Ok dists)
  /\ (metric = "maha"%string ->
      symmetric 2 (map (firstn 2) (firstn 2 S)) ->
      positive_definite 2 (map (firstn 2) (firstn 2 S)) ->
      exists dists,
        gating_distance __init__ mean covariance measurements true metric = Ok dists)
  /\ (forall mean2 covariance2 measurements2 pm2 S2,
        is_vec 8 mean2 -> is_mat 8 8 covariance2 -> is_mat N 4 measurements2 ->
        project __init__ mean2 covariance2 = Ok (pm2, S2) ->
        firstn 2 pm2 = firstn 2 pm ->
        map (firstn 2) (firstn 2 S2) = map (firstn 2) (firstn 2 S) ->
        map (firstn 2) measurements2 = map (firstn 2) measurements ->
        gating_distance __init__ mean2 covariance2 measurements2 true metric
        = gating_distance __init__ mean covariance measurements true metric).
Proof.
  intros Hm Hc Hz Hproj.
  destruct (projected_mean_shape Hm Hc Hproj) as [Hpm HS].
  assert (Hblock := leading_block_shape HS).
  assert (Hpm2 : is_vec 2 (firstn 2 pm)) by (apply (length_firstn_row Hpm); lia).
  assert (Hz2 : is_mat N 2 (map (firstn 2) measurements)).
  { apply (is_mat_map_rows _ Hz). intros row Hrow.
    apply (@length_firstn_row 4); [|lia]. apply (is_mat_In row Hz Hrow). }
  assert (E : gating_distance __init__ mean covariance measurements true metric
              = spec_squared_distances (firstn 2 pm) (map (firstn 2) (firstn 2 S))
                  (map (firstn 2) measurements) metric).
  { rewrite (@gating_distance_ok N mean covariance measurements true metric
               pm S Hm Hc Hz Hproj).
    apply (@gating_kernel_spec 2 N); try lia; assumption. }
  split; [exact E|]. split; [|split; [|split]].
  - intros dists Hd. rewrite E in Hd.
    destruct (spec_squared_distances_length _ _ _ _ Hd) as [Hl Hpos].
    rewrite length_map, (proj1 Hz) in Hl, Hpos. auto.
  - intros ->. rewrite E. unfold spec_squared_distances. cbn [String.eqb Ascii.eqb Bool.eqb].
    eexists. reflexivity.
  - intros -> Hsym Hpd. rewrite E. unfold spec_squared_distances.
    cbn [String.eqb Ascii.eqb Bool.eqb].
    destruct (@potrf_succeeds _ 2 Hblock Hsym Hpd 2 (le_n 2)) as [c [Hpotrf _]].
    unfold np.linalg.cholesky.
    rewrite (nrows_is_mat Hblock), (ncols_is_mat Hblock) by lia. cbn [Nat.eqb negb].
    rewrite Hpotrf. cbn [bind]. eexists. reflexivity.
  - intros mean2 covariance2 measurements2 pm2 S2 Hm2 Hc2 Hz2' Hproj2 Epm ES Ez.
    rewrite (@gating_distance_ok N mean2 covariance2 measurements2 true metric
               pm2 S2 Hm2 Hc2 Hz2' Hproj2).
    rewrite (@gating_distance_ok N mean covariance measurements true metric
               pm S Hm Hc Hz Hproj).
    rewrite Epm, ES, Ez. reflexivity.
Qed.

Lemma gating_only_position_witness :
  let measurements := [[102; 49; 0.5; 198]; [90; 60; 0.4; 210]] in
  let pm := fst sample_projection in
  let S := snd sample_projection in
  gating_distance __init__ sample_mean sample_covariance measurements true "maha"
  = spec_squared_distances (firstn 2 pm) (map (firstn 2) (firstn 2 S))
      (map (firstn 2) measurements) "maha"
  /\ (forall dists,
        gating_distance __init__ sample_mean sample_covariance measurements true "maha"
        = Ok dists ->
        length dists = 2%nat /\ forall i, (i < 2)%nat -> 0 <= vget dists i)
  /\ ("maha"%string = "gaussian"%string ->
      exists dists,
        gating_distance __init__ sample_mean sample_covariance measurements true "maha"
        = Ok dists)
  /\ ("maha"%string = "maha"%string ->
      symmetric 2 (map (firstn 2) (firstn 2 S)) ->
      positive_definite 2 (map (firstn 2) (firstn 2 S)) ->
      exists dists,
        gating_distance __init__ sample_mean sample_covariance measurements true "maha"
        = Ok dists)
  /\ (forall mean2 covariance2 measurements2 pm2 S2,
        is_vec 8 mean2 -> is_mat 8 8 covariance2 -> is_mat 2 4 measurements2 ->
        project __init__ mean2 covariance2 = Ok (pm2, S2) ->
        firstn 2 pm2 = firstn 2 pm ->
        map (firstn 2) (firstn 2 S2) = map (firstn 2) (firstn 2 S) ->
        map (firstn 2) measurements2 = map (firstn 2) measurements ->
        gating_distance __init__ mean2 covariance2 measurements2 true "maha"
        = gating_distance __init__ sample_mean sample_covariance measurements true "maha").
Proof.
  apply (@gating_only_position 2).
  - apply sample_shapes.
  - apply sample_shapes.
  - split; [reflexivity|]. repeat constructor.
  - apply sample_project.
Defined.

(* ================================================================= *)
(** * Further properties of the filter *)

(** ** Index and shape errors *)

Lemma getitem_short (v : vector) (i : nat) :
  (length v <= i)%nat -> getitem v i = Raise IndexError.
Proof.
  intros H. unfold getitem. apply nth_error_None in H. rewrite H. reflexivity.
Qed.

Lemma getitem_long (v : vector) (i : nat) :
  (i < length v)%nat -> getitem v i = Ok (vget v i).
Proof. intros H. apply (@getitem_ok (length v)); [reflexivity|exact H]. Qed.

(** X1.  [initiate] checks nothing but the index 3: with fewer than four
    entries it raises IndexError, and with four or more it returns the
    measurement followed by as many zeros, and the 8 x 8 diagonal
    covariance built from entry 3. *)
Theorem initiate_total (measurement : vector) :
  initiate __init__ measurement
  = if (length measurement <? 4)%nat
    then Raise IndexError
    else Ok (measurement ++ map (fun _ => 0) measurement,
             np.diag (np.square (initiate_std (vget measurement 3)))).
Proof.
  unfold initiate. destruct (Nat.ltb_spec (length measurement) 4) as [Hlt|Hge].
  - rewrite getitem_short by lia. reflexivity.
  - rewrite getitem_long by lia. cbn [bind]. unfold np.r_, np.zeros_like.
    do 2 f_equal.
    cbn [__init__ _std_weight_position _std_weight_velocity initiate_std np.square map].
    repeat (f_equal; try lra).
Qed.

(** X2.  A mean that is not an 8-vector stops [predict], [project],
    [update] and [gating_distance] before the covariance or the
    measurements are looked at: IndexError from [mean[3]] when it has
    fewer than four entries, the ValueError of [np.dot] otherwise. *)
Theorem mean_of_wrong_length (mean : vector) (covariance measurements : matrix)
  (measurement : vector) (only_position : bool) (metric : string) :
  length mean <> 8%nat ->
  let e := if (length mean <? 4)%nat then IndexError
           else ValueError "shapes not aligned" in
  predict __init__ mean covariance = Raise e
  /\ project __init__ mean covariance = Raise e
  /\ update __init__ mean covariance measurement = Raise e
  /\ gating_distance __init__ mean covariance measurements only_position metric = Raise e.
Proof.
  intros Hne e.
  assert (Hproj : project __init__ mean covariance = Raise e).
  { unfold project, e. destruct (Nat.ltb_spec (length mean) 4) as [Hlt|Hge].
    - rewrite getitem_short by lia. reflexivity.
    - rewrite getitem_long by lia. cbn [bind]. unfold np.dot_mv.
      rewrite (ncols_is_mat is_mat_update_mat) by lia.
      destruct (Nat.eqb_spec 8 (length mean)) as [E|_]; [congruence|]. reflexivity. }
  split; [|split; [exact Hproj|split]].
  - unfold predict, e. destruct (Nat.ltb_spec (length mean) 4) as [Hlt|Hge].
    + rewrite getitem_short by lia. reflexivity.
    + rewrite getitem_long by lia. cbn [bind]. unfold np.dot_vm, np.T.
      rewrite (nrows_is_mat (is_mat_transpose is_mat_motion_mat ltac:(lia))).
      destruct (Nat.eqb_spec (length mean) 8) as [E|_]; [congruence|]. reflexivity.
  - unfold update. rewrite Hproj. reflexivity.
  - unfold gating_distance. rewrite Hproj. reflexivity.
Qed.

Lemma mean_of_wrong_length_witness :
  let e := if (length [1; 2; 3; 4; 5] <? 4)%nat then IndexError
           else ValueError "shapes not aligned" in
  predict __init__ [1; 2; 3; 4; 5] (np.eye 8 8) = Raise e
  /\ project __init__ [1; 2; 3; 4; 5] (np.eye 8 8) = Raise e
  /\ update __init__ [1; 2; 3; 4; 5] (np.eye 8 8) [1; 2; 3; 4] = Raise e
  /\ gating_distance __init__ [1; 2; 3; 4; 5] (np.eye 8 8) [[1; 2; 3; 4]] false "maha"
     = Raise e.
Proof.
  apply (@mean_of_wrong_length [1; 2; 3; 4; 5] (np.eye 8 8) [[1; 2; 3; 4]] [1; 2; 3; 4]
           false "maha"%string).
  cbn. discriminate.
Defined.

(** ** The projection and the prediction, entry by entry *)

Lemma projected_mean_entry (mean : vector) (i : nat) :
  (i < 4)%nat -> vget (mat_vec (_update_mat __init__) mean) i = vget mean i.
Proof.
  intros Hi. rewrite (mat_vec_eq mean is_mat_update_mat) by lia.
  rewrite vget_mk_vec by exact Hi. apply (update_row_sum (vget mean) Hi).
Qed.

(** X3.  [project] returns the first four components of the mean, and
    the leading 4 x 4 block of the covariance with the squares of
    (h/20, h/20, 1e-1, h/20) added on the diagonal, h the height
    [mean[3]]. *)
Theorem project_entries (mean : vector) (covariance : matrix) :
  is_vec 8 mean -> is_mat 8 8 covariance ->
  exists pm S,
    project __init__ mean covariance = Ok (pm, S)
    /\ is_vec 4 pm /\ is_mat 4 4 S
    /\ (forall i, (i < 4)%nat -> vget pm i = vget mean i)
    /\ (forall i j, (i < 4)%nat -> (j < 4)%nat ->
          mget S i j
          = mget covariance i j
            + (if (i =? j)%nat
               then let h := vget mean 3 in
                    nth i [(h / 20) ^ 2; (h / 20) ^ 2; 1e-1 ^ 2; (h / 20) ^ 2] 0
               else 0)).
Proof.
  intros Hm Hc. eexists _, _. split; [apply (project_ok Hm Hc)|].
  destruct (projected_mean_shape Hm Hc (project_ok Hm Hc)) as [Hpm HS].
  split; [exact Hpm|]. split; [exact HS|]. split.
  - intros i Hi. apply projected_mean_entry, Hi.
  - intros i j Hi Hj. rewrite projected_cov_entry by assumption. f_equal.
    unfold innovation_cov. rewrite mget_diag by assumption.
    destruct (i =? j)%nat; [|reflexivity].
    below i Hi; cbn [vget nth np.square map __init__ _std_weight_position]; lra.
Qed.

Lemma project_entries_witness :
  exists pm S,
    project __init__ sample_mean sample_covariance = Ok (pm, S)
    /\ is_vec 4 pm /\ is_mat 4 4 S
    /\ (forall i, (i < 4)%nat -> vget pm i = vget sample_mean i)
    /\ (forall i j, (i < 4)%nat -> (j < 4)%nat ->
          mget S i j
          = mget sample_covariance i j
            + (if (i =? j)%nat
               then let h := vget sample_mean 3 in
                    nth i [(h / 20) ^ 2; (h / 20) ^ 2; 1e-1 ^ 2; (h / 20) ^ 2] 0
               else 0)).
Proof. apply project_entries; apply sample_shapes. Defined.

Lemma predict_result (mean : vector) (covariance : matrix) :
  is_vec 8 mean -> is_mat 8 8 covariance ->
  exists mean' covariance',
    predict __init__ mean covariance = Ok (mean', covariance')
    /\ is_vec 8 mean' /\ is_mat 8 8 covariance'
    /\ (forall i, (i < 8)%nat ->
          vget mean' i = vget mean i + (if (i <? 4)%nat then vget mean (4 + i) else 0))
    /\ (forall i j, (i < 8)%nat -> (j < 8)%nat ->
          mget covariance' i j
          = mget covariance i j
            + (if (i <? 4)%nat then mget covariance (4 + i) j else 0)
            + (if (j <? 4)%nat
               then mget covariance i (4 + j)
                    + (if (i <? 4)%nat then mget covariance (4 + i) (4 + j) else 0)
               else 0)
            + mget (process_noise __init__ (vget mean 3)) i j).
Proof.
  intros Hm Hc.
  pose proof is_mat_spec_transition as HA.
  assert (HAt : is_mat 8 8 (transpose spec_transition))
    by (apply (is_mat_transpose HA); lia).
  assert (HAPA : is_mat 8 8 (mat_mul spec_transition
                               (mat_mul covariance (transpose spec_transition)))).
  { apply (is_mat_mat_mul HA); try lia. apply (is_mat_mat_mul Hc HAt); lia. }
  eexists _, _. split; [apply (predict_ok Hm Hc)|].
  rewrite motion_mat_spec.
  rewrite (vec_mat_transpose HA Hm) by lia.
  split; [rewrite (mat_vec_eq mean HA) by lia; apply length_mk_vec|].
  split; [rewrite (mat_map2_eq Rplus _ HAPA) by lia; apply is_mat_mk_mat|].
  split.
  - intros i Hi. apply predict_mean_entry, Hi.
  - intros i j Hi Hj. rewrite (mget_mat_map2 Rplus _ HAPA Hi Hj).
    rewrite <- (mat_mul_assoc HA Hc HAt) by lia.
    rewrite (predict_cov_entry Hc Hi Hj). reflexivity.
Qed.

(** X4.  [predict] is the constant-velocity step: every position
    component takes up its velocity and the velocities stay; in the
    covariance the velocity block only gains the process noise, and the
    position block gains the cross and velocity blocks too. *)
Theorem predict_constant_velocity (mean : vector) (covariance : matrix) :
  is_vec 8 mean -> is_mat 8 8 covariance ->
  exists mean' covariance',
    predict __init__ mean covariance = Ok (mean', covariance')
    /\ (forall i, (i < 4)%nat ->
          vget mean' i = vget mean i + vget mean (4 + i)
          /\ vget mean' (4 + i) = vget mean (4 + i))
    /\ (forall i j, (i < 4)%nat -> (j < 4)%nat ->
          mget covariance' (4 + i) (4 + j)
          = mget covariance (4 + i) (4 + j) + mget (process_noise __init__ (vget mean 3)) (4 + i) (4 + j)
          /\ mget covariance' i j
             = mget covariance i j + mget covariance (4 + i) j + mget covariance i (4 + j)
               + mget covariance (4 + i) (4 + j) + mget (process_noise __init__ (vget mean 3)) i j).
Proof.
  intros Hm Hc.
  destruct (predict_result Hm Hc) as [mean' [cov' [Hp [_ [_ [Hmean Hcov]]]]]].
  exists mean', cov'. split; [exact Hp|]. split.
  - intros i Hi. split.
    + rewrite (Hmean i) by lia. destruct (Nat.ltb_spec i 4); [reflexivity|lia].
    + rewrite (Hmean (4 + i)%nat) by lia.
      destruct (Nat.ltb_spec (4 + i) 4); [lia|]. lra.
  - intros i j Hi Hj. split.
    + rewrite (Hcov (4 + i)%nat (4 + j)%nat) by lia.
      destruct (Nat.ltb_spec (4 + i) 4); [lia|].
      destruct (Nat.ltb_spec (4 + j) 4); [lia|]. lra.
    + rewrite (Hcov i j) by lia.
      destruct (Nat.ltb_spec i 4); [|lia].
      destruct (Nat.ltb_spec j 4); [|lia]. lra.
Qed.

Lemma predict_constant_velocity_witness :
  exists mean' covariance',
    predict __init__ sample_mean sample_covariance = Ok (mean', covariance')
    /\ (forall i, (i < 4)%nat ->
          vget mean' i = vget sample_mean i + vget sample_mean (4 + i)
          /\ vget mean' (4 + i) = vget sample_mean (4 + i))
    /\ (forall i j, (i < 4)%nat -> (j < 4)%nat ->
          mget covariance' (4 + i) (4 + j)
          = mget sample_covariance (4 + i) (4 + j)
            + mget (process_noise __init__ (vget sample_mean 3)) (4 + i) (4 + j)
          /\ mget covariance' i j
             = mget sample_covariance i j + mget sample_covariance (4 + i) j
               + mget sample_covariance i (4 + j)
               + mget sample_covariance (4 + i) (4 + j)
               + mget (process_noise __init__ (vget sample_mean 3)) i j).
Proof. apply predict_constant_velocity; apply sample_shapes. Defined.

(** ** A track without measurements *)

(** X5.  n predictions in a row never raise on a well-shaped state and
    return a well-shaped state; as a formula, every position component
    is the one before plus n times its velocity, and the velocities are
    those before. *)
Theorem coast_linear_motion (n : nat) (mean : vector) (covariance : matrix) :
  is_vec 8 mean -> is_mat 8 8 covariance ->
  exists mean' covariance',
    coast __init__ n mean covariance = Ok (mean', covariance')
    /\ is_vec 8 mean' /\ is_mat 8 8 covariance'
    /\ (forall i, (i < 4)%nat ->
          vget mean' i = vget mean i + INR n * vget mean (4 + i)
          /\ vget mean' (4 + i) = vget mean (4 + i)).
Proof.
  intros Hm Hc. induction n as [|n IH].
  - exists mean, covariance. split; [reflexivity|].
    split; [exact Hm|]. split; [exact Hc|].
    intros i Hi. cbn [INR]. split; lra.
  - destruct IH as [m [c [Hcoast [Hm' [Hc' Hpos]]]]].
    destruct (predict_result Hm' Hc') as [m2 [c2 [Hp [Hm2 [Hc2 [Hmean _]]]]]].
    exists m2, c2. cbn [coast]. rewrite Hcoast. cbn [bind].
    split; [exact Hp|]. split; [exact Hm2|]. split; [exact Hc2|].
    intros i Hi. destruct (Hpos i Hi) as [E1 E2]. rewrite S_INR. split.
    + rewrite (Hmean i) by lia. destruct (Nat.ltb_spec i 4); [|lia].
      rewrite E1, E2. ring.
    + rewrite (Hmean (4 + i)%nat) by lia.
      destruct (Nat.ltb_spec (4 + i) 4); [lia|]. rewrite E2. ring.
Qed.

Lemma coast_linear_motion_witness :
  exists mean' covariance',
    coast __init__ 3 [10; 20; 1; 40; 1; 2; 0; 0] sample_covariance = Ok (mean', covariance')
    /\ is_vec 8 mean' /\ is_mat 8 8 covariance'
    /\ (forall i, (i < 4)%nat ->
          vget mean' i
          = vget [10; 20; 1; 40; 1; 2; 0; 0] i
            + INR 3 * vget [10; 20; 1; 40; 1; 2; 0; 0] (4 + i)
          /\ vget mean' (4 + i) = vget [10; 20; 1; 40; 1; 2; 0; 0] (4 + i)).
Proof.
  apply coast_linear_motion.
  - reflexivity.
  - apply sample_shapes.
Defined.

(** ** The correction step in closed form *)

Lemma vget_combine_map (f : R -> R -> R) (n : nat) (u v : vector) (i : nat) :
  is_vec n u -> is_vec n v -> (i < n)%nat ->
  vget (map (fun p => f (fst p) (snd p)) (combine u v)) i = f (vget u i) (vget v i).
Proof.
  intros Hu Hv Hi. unfold vget.
  rewrite (@nth_map_in (R * R) R (0, 0) 0)
    by (rewrite length_combine; unfold is_vec in *; lia).
  rewrite combine_nth by (unfold is_vec in *; lia). reflexivity.
Qed.

(** [update] with the corrected mean written out. *)
Lemma update_with_factor_explicit (mean : vector) (covariance : matrix)
  (measurement pm : vector) (S c : matrix) :
  is_vec 8 mean -> is_mat 8 8 covariance -> is_vec 4 measurement ->
  project __init__ mean covariance = Ok (pm, S) ->
  lapack.potrf S 4 = Some c ->
  update __init__ mean covariance measurement
  = Ok (map (fun p => fst p + snd p)
          (combine mean (vec_mat (diff pm measurement) (transpose (gain_of c covariance)))),
        mat_map2 Rminus covariance
          (mat_mul (gain_of c covariance)
             (mat_mul S (transpose (gain_of c covariance))))).
Proof.
  intros Hm Hc Hz Hproj Hpotrf.
  pose proof is_mat_update_mat as HH.
  assert (HHt : is_mat 8 4 (transpose (_update_mat __init__)))
    by (apply (is_mat_transpose HH); lia).
  destruct (projected_mean_shape Hm Hc Hproj) as [Hpm HS].
  pose proof (potrf_shape HS (le_n 4) Hpotrf) as Hcm.
  pose proof (is_mat_gain_of c Hc) as HK.
  assert (HKt : is_mat 4 8 (transpose (gain_of c covariance)))
    by (apply (is_mat_transpose HK); lia).
  pose proof (is_mat_mat_mul Hc HHt ltac:(lia) ltac:(lia)) as Hb.
  destruct (@broadcast1_ok Rminus 4 measurement pm Hz Hpm) as [Hsub Hinn].
  fold (diff pm measurement) in Hsub, Hinn.
  assert (Hd : is_vec 8 (vec_mat (diff pm measurement)
                           (transpose (gain_of c covariance)))).
  { rewrite (vec_mat_eq Hinn HKt) by lia. apply length_mk_vec. }
  destruct (@broadcast1_ok Rplus 8 mean _ Hm Hd) as [Hadd _].
  unfold update. rewrite Hproj. cbn [bind].
  unfold scipy.linalg.cho_factor.
  rewrite (nrows_is_mat HS), (ncols_is_mat HS) by lia. cbn [Nat.eqb negb].
  rewrite Hpotrf. cbn [bind]. unfold np.T.
  rewrite (np_dot_ok Hc HHt) by lia. cbn [bind].
  unfold scipy.linalg.cho_solve.
  rewrite (nrows_is_mat Hcm), (ncols_is_mat Hcm) by lia. cbn [Nat.eqb negb].
  rewrite (nrows_is_mat (is_mat_transpose Hb ltac:(lia))). cbn [Nat.eqb negb bind].
  unfold np.T. rewrite (transpose_involutive Hb) by lia.
  fold (gain_of c covariance).
  rewrite (transpose_involutive HK) by lia.
  unfold np.subtract. rewrite Hsub. cbn [bind].
  rewrite (np_dot_vm_ok Hinn HKt). cbn [bind].
  unfold np.add. rewrite Hadd. cbn [bind].
  rewrite (multi_dot_ok HK HS HKt) by lia. cbn [bind].
  unfold np.subtract2. rewrite (@elementwise2_ok Rminus 8 8); try lia.
  - reflexivity.
  - exact Hc.
  - apply (is_mat_mat_mul HK); try lia. apply (is_mat_mat_mul HS HKt); lia.
Qed.

(** The corrected state on a symmetric covariance whose projection S
    is positive definite, with the gain K that solves K.S = P.H^T. *)
Lemma update_closed_form (mean : vector) (covariance : matrix) (measurement pm : vector)
  (S : matrix) :
  is_vec 8 mean -> is_mat 8 8 covariance -> is_vec 4 measurement ->
  symmetric 8 covariance ->
  project __init__ mean covariance = Ok (pm, S) -> positive_definite 4 S ->
  exists K new_mean new_covariance,
    update __init__ mean covariance measurement = Ok (new_mean, new_covariance)
    /\ is_vec 8 new_mean /\ is_mat 8 8 new_covariance
    /\ (forall i j, (i < 8)%nat -> (j < 4)%nat ->
          rsum 4 (fun l => K i l * mget S l j) = mget covariance i j)
    /\ (forall i, (i < 8)%nat ->
          vget new_mean i
          = vget mean i + rsum 4 (fun l => K i l * (vget measurement l - vget mean l)))
    /\ (forall i j, (i < 8)%nat -> (j < 8)%nat ->
          mget new_covariance i j
          = mget covariance i j - rsum 4 (fun l => K i l * mget covariance l j)).
Proof.
  intros Hm Hc Hz Hsym Hproj Hpd.
  assert (Epm : pm = mat_vec (_update_mat __init__) mean)
    by (rewrite (project_ok Hm Hc) in Hproj; congruence).
  destruct (projected_mean_shape Hm Hc Hproj) as [Hpm HS].
  pose proof (projected_symmetric Hm Hc Hsym Hproj) as HsymS.
  destruct (@potrf_succeeds S 4 HS HsymS Hpd 4 (le_n 4)) as [c [Hpotrf Hinv]].
  pose proof (update_with_factor_explicit Hm Hc Hz Hproj Hpotrf) as Hupd.
  pose proof (is_mat_gain_of c Hc) as HK.
  assert (HKt : is_mat 4 8 (transpose (gain_of c covariance)))
    by (apply (is_mat_transpose HK); lia).
  assert (Hinn : is_vec 4 (diff pm measurement)) by (apply (length_diff Hpm Hz)).
  assert (Hd : is_vec 8 (vec_mat (diff pm measurement)
                           (transpose (gain_of c covariance)))).
  { rewrite (vec_mat_eq Hinn HKt) by lia. apply length_mk_vec. }
  assert (Hgain : forall i j, (i < 8)%nat -> (j < 4)%nat ->
            rsum 4 (fun l => mget (gain_of c covariance) i l * mget S l j)
            = mget covariance i j).
  { intros i j Hi Hj. apply (gain_equation Hc HsymS Hinv Hi Hj). }
  exists (mget (gain_of c covariance)). eexists _, _.
  split; [exact Hupd|].
  split; [apply (proj2 (broadcast1_ok Rplus Hm Hd))|].
  split; [rewrite (mat_map2_eq Rminus _ Hc) by lia; apply is_mat_mk_mat|].
  split; [exact Hgain|]. split.
  - intros i Hi. rewrite (vget_combine_map Rplus Hm Hd Hi). f_equal.
    rewrite (vec_mat_eq Hinn HKt) by lia. rewrite vget_mk_vec by exact Hi.
    apply rsum_ext. intros l Hl.
    rewrite (mget_transpose HK Hl Hi).
    unfold diff. rewrite (vget_combine_map Rminus Hz Hpm Hl).
    rewrite Epm, (projected_mean_entry mean Hl). ring.
  - intros i j Hi Hj. rewrite (mget_mat_map2 Rminus _ Hc Hi Hj).
    rewrite (sandwich_entry HK HS) by lia. f_equal.
    apply rsum_ext. intros k Hk. f_equal.
    rewrite <- (Hsym j k) by lia. rewrite <- (Hgain j k Hj Hk).
    apply rsum_ext. intros l Hl. rewrite (HsymS k l Hk Hl). ring.
Qed.


(** Why the condition is put on the covariance [project] returns and
    not on the height: in exact arithmetic a height that is not zero
    makes that covariance positive definite, but on the binary64 arrays
    the noise (h/20)^2 of a fresh track of height 1e-200 is zero, and so
    is the first entry of the projected covariance. *)
Lemma fresh_track_projection_underflows_in_binary64 :
  exists (mean : b64.vector) (covariance S : b64.matrix),
    b64.initiate b64.__init__ [0; 0; 1; 1e-200]%float = Ok (mean, covariance)
    /\ b64.project b64.__init__ mean covariance = Ok ([0; 0; 1; 1e-200]%float, S)
    /\ b64.mget S 0 0 = 0%float.
Proof.
  eexists _, _, _. split; [vm_compute; reflexivity|].
  split; vm_compute; reflexivity.
Qed.








(** ** The gating distances in closed form *)

Lemma vget_firstn (n : nat) (v : vector) (k : nat) :
  (k < n)%nat -> vget (firstn n v) k = vget v k.
Proof.
  intros Hk. unfold vget. rewrite nth_firstn.
  destruct (Nat.ltb_spec k n); [reflexivity|lia].
Qed.

Lemma mget_leading_block (n : nat) (M : matrix) (i j : nat) :
  (i < n)%nat -> (j < n)%nat -> mget (map (firstn n) (firstn n M)) i j = mget M i j.
Proof.
  intros Hi Hj. unfold mget.
  destruct (Nat.lt_ge_cases i (length (firstn n M))) as [Hlt|Hge].
  - rewrite (@nth_map_in vector vector [] []) by exact Hlt.
    rewrite nth_firstn. destruct (Nat.ltb_spec j n); [|lia].
    rewrite nth_firstn. destruct (Nat.ltb_spec i n); [reflexivity|lia].
  - rewrite (nth_overflow (map _ _)) by (rewrite length_map; exact Hge).
    rewrite length_firstn in Hge.
    rewrite (nth_overflow M) by lia. destruct j; reflexivity.
Qed.

Lemma map_ext_index (A : Type) (d : A) (f g : A -> R) (l l' : list A) :
  length l = length l' ->
  (forall i, (i < length l)%nat -> f (nth i l d) = g (nth i l' d)) ->
  map f l = map g l'.
Proof.
  intros Hl H. apply (nth_ext _ _ 0 0).
  - rewrite !length_map. exact Hl.
  - intros i Hi. rewrite length_map in Hi.
    rewrite (@nth_map_in A R d 0) by exact Hi.
    rewrite (@nth_map_in A R d 0) by lia. apply H, Hi.
Qed.

Lemma gating_distance_kernel (N : nat) (mean : vector) (covariance measurements : matrix)
  (only_position : bool) (metric : string) (pm : vector) (S : matrix) :
  is_vec 8 mean -> is_mat 8 8 covariance -> is_mat N 4 measurements ->
  project __init__ mean covariance = Ok (pm, S) ->
  let d := gating_dim only_position in
  exists pm' S' measurements',
    gating_distance __init__ mean covariance measurements only_position metric
    = gating_kernel pm' S' measurements' metric
    /\ is_vec d pm' /\ is_mat d d S' /\ is_mat N d measurements'
    /\ (forall k, (k < d)%nat -> vget pm' k = vget mean k)
    /\ (forall i j, (i < d)%nat -> (j < d)%nat -> mget S' i j = mget S i j)
    /\ (forall i k, (i < N)%nat -> (k < d)%nat ->
          mget measurements' i k = mget measurements i k).
Proof.
  intros Hm Hc Hz Hproj d.
  destruct (projected_mean_shape Hm Hc Hproj) as [Hpm HS].
  assert (Epm : forall k, (k < 4)%nat -> vget pm k = vget mean k).
  { intros k Hk.
    assert (E : pm = mat_vec (_update_mat __init__) mean)
      by (rewrite (project_ok Hm Hc) in Hproj; congruence).
    rewrite E. apply projected_mean_entry, Hk. }
  rewrite (@gating_distance_ok N mean covariance measurements only_position metric
             pm S Hm Hc Hz Hproj).
  unfold d, gating_dim. destruct only_position.
  - exists (firstn 2 pm), (map (firstn 2) (firstn 2 S)), (map (firstn 2) measurements).
    split; [reflexivity|].
    split; [apply (length_firstn_row Hpm); lia|].
    split; [apply (leading_block_shape HS)|].
    split.
    { apply (is_mat_map_rows _ Hz). intros row Hrow.
      apply (@length_firstn_row 4); [|lia]. apply (is_mat_In row Hz Hrow). }
    split; [intros k Hk; rewrite vget_firstn by exact Hk; apply Epm; lia|].
    split; [intros i j Hi Hj; apply mget_leading_block; assumption|].
    intros i k Hi Hk. unfold mget.
    rewrite (@nth_map_in vector vector [] [])
      by (destruct Hz as [Hl _]; unfold matrix, vector in *; lia).
    apply (vget_firstn (nth i measurements []) Hk).
  - exists pm, S, measurements. split; [reflexivity|].
    split; [exact Hpm|]. split; [exact HS|]. split; [exact Hz|].
    split; [exact Epm|]. split; reflexivity.
Qed.

Lemma vget_diff (n : nat) (mean z : vector) (k : nat) :
  is_vec n mean -> is_vec n z -> (k < n)%nat ->
  vget (diff mean z) k = vget z k - vget mean k.
Proof. intros Hm Hz Hk. apply (vget_combine_map Rminus Hz Hm Hk). Qed.

Lemma gating_kernel_gaussian (d N : nat) (mean : vector) (covariance measurements : matrix) :
  (1 <= d)%nat -> is_vec d mean -> is_mat N d measurements ->
  gating_kernel mean covariance measurements "gaussian"
  = Ok (map (fun z => rsum d (fun k => (vget z k - vget mean k) ^ 2)) measurements).
Proof.
  intros Hd Hm Hz. destruct N as [|N].
  - destruct Hz as [Hl _]. apply length_zero_iff_nil in Hl. subst measurements.
    reflexivity.
  - unfold gating_kernel. cbn [String.eqb Ascii.eqb Bool.eqb].
    assert (Hdist : is_mat (S N) d (map (diff mean) measurements)).
    { apply (is_mat_map_rows _ Hz). intros row Hrow.
      apply (length_diff Hm). apply (is_mat_In row Hz Hrow). }
    rewrite (multiply2_self Hdist) by lia. cbn [bind]. f_equal.
    rewrite (@map_as_seq (list R) R [] _ measurements), (proj1 Hz).
    unfold np.sum_axis1, mk_mat. rewrite map_map.
    apply map_ext_in. intros i Hi. apply in_seq in Hi.
    rewrite length_mk_vec. apply rsum_ext. intros k Hk.
    rewrite vget_mk_vec by exact Hk. unfold mget.
    rewrite (@nth_map_in vector vector [] [])
      by (destruct Hz as [Hl _]; unfold matrix, vector in *; lia).
    assert (Hrow : is_vec d (nth i measurements [])) by (apply (is_mat_row Hz); lia).
    pose proof (vget_diff Hm Hrow Hk) as E.
    match goal with
    | |- ?a * ?a = _ =>
        replace a with (vget (nth i measurements []) k - vget mean k)
          by (symmetry; exact E)
    end.
    ring.
Qed.

(** X9.  With the metric "gaussian", [gating_distance] returns for every
    measurement the sum of the squared differences between its first
    four (two, with [only_position]) components and those of the mean;
    the covariance plays no part and the call never raises on
    well-shaped arguments, an empty batch included. *)
Theorem gating_gaussian_squared_euclidean (N : nat) (mean : vector)
  (covariance measurements : matrix) (only_position : bool) :
  is_vec 8 mean -> is_mat 8 8 covariance -> is_mat N 4 measurements ->
  gating_distance __init__ mean covariance measurements only_position "gaussian"
  = Ok (map (fun z => rsum (gating_dim only_position)
                        (fun k => (vget z k - vget mean k) ^ 2))
            measurements).
Proof.
  intros Hm Hc Hz.
  destruct (@gating_distance_kernel N mean covariance measurements only_position
              "gaussian" _ _ Hm Hc Hz (project_ok Hm Hc))
    as [pm' [S' [z' [E [Hpm' [_ [Hz' [Epm [_ Ez]]]]]]]]].
  rewrite E.
  rewrite (@gating_kernel_gaussian (gating_dim only_position) N pm' S' z');
    [|destruct only_position; cbn; lia|exact Hpm'|exact Hz'].
  f_equal. apply (@map_ext_index vector []).
  - destruct Hz' as [Hl' _], Hz as [Hl _]. unfold matrix, vector in *. lia.
  - intros i Hi.
    assert (HiN : (i < N)%nat)
      by (destruct Hz' as [Hl' _]; unfold matrix, vector in *; lia).
    apply rsum_ext. intros k Hk.
    change (vget (nth i z' []) k) with (mget z' i k).
    rewrite (Ez i k HiN Hk), (Epm k Hk). reflexivity.
Qed.

Lemma gating_gaussian_squared_euclidean_witness :
  gating_distance __init__ sample_mean sample_covariance
    [[102; 49; 0.5; 198]; [90; 60; 0.4; 210]] true "gaussian"
  = Ok (map (fun z => rsum (gating_dim true)
                        (fun k => (vget z k - vget sample_mean k) ^ 2))
            [[102; 49; 0.5; 198]; [90; 60; 0.4; 210]]).
Proof.
  apply (@gating_gaussian_squared_euclidean 2).
  - apply sample_shapes.
  - apply sample_shapes.
  - split; [reflexivity|]. repeat constructor.
Defined.

(** ** The Mahalanobis distance *)

Lemma forward_subst_ext (L L' : matrix) (b : vector) (i : nat) :
  (forall k j, (k < i)%nat -> (j <= k)%nat -> mget L k j = mget L' k j) ->
  lapack.forward_subst L b i = lapack.forward_subst L' b i.
Proof.
  induction i as [|i IH]; intros H; [reflexivity|].
  cbn [lapack.forward_subst]. rewrite IH by (intros; apply H; lia).
  f_equal. f_equal. rewrite (H i i) by lia. f_equal. f_equal.
  apply rsum_ext. intros j Hj. rewrite (H i j) by lia. reflexivity.
Qed.

Lemma mget_tril (n : nat) (c : matrix) (i j : nat) :
  is_mat n n c -> (i < n)%nat -> (j < n)%nat -> mget (lapack.tril c) i j = low c i j.
Proof.
  intros Hc Hi Hj. unfold lapack.tril.
  rewrite (nrows_is_mat Hc), (ncols_is_mat Hc) by lia.
  rewrite mget_mk_mat by assumption. reflexivity.
Qed.

(** On a symmetric positive definite matrix [np.linalg.cholesky] returns
    the lower triangle of the factor LAPACK computes. *)
Lemma cholesky_factor (d : nat) (S : matrix) :
  (1 <= d)%nat -> is_mat d d S -> symmetric d S -> positive_definite d S ->
  exists c, cholesky_rows S d d c /\ np.linalg.cholesky S = Ok (lapack.tril c).
Proof.
  intros Hd HS Hsym Hpd.
  destruct (potrf_succeeds HS Hsym Hpd (Nat.le_refl d)) as [c [Ec Hrows]].
  exists c. split; [exact Hrows|].
  unfold np.linalg.cholesky.
  rewrite (nrows_is_mat HS), (ncols_is_mat HS) by lia.
  rewrite Nat.eqb_refl. cbn [negb]. rewrite Ec. reflexivity.
Qed.

(** A lower-triangular matrix without a zero on its diagonal is
    injective. *)
Lemma lower_triangular_injective (L : matrix) (n : nat) (u v : nat -> R) :
  (forall k, (k < n)%nat -> mget L k k <> 0) ->
  (forall k, (k < n)%nat ->
     rsum n (fun j => low L k j * u j) = rsum n (fun j => low L k j * v j)) ->
  forall k, (k < n)%nat -> u k = v k.
Proof.
  intros Hdiag H k. induction k as [k IH] using lt_wf_ind. intros Hk.
  pose proof (H k Hk) as E.
  rewrite !(rsum_low_row L _ Hk) in E. cbn [rsum] in E.
  rewrite (@rsum_ext k _ (fun j => mget L k j * v j)) in E
    by (intros j Hj; rewrite (IH j Hj) by lia; reflexivity).
  apply (Rmult_eq_reg_l (mget L k k)); [lra|apply Hdiag, Hk].
Qed.

Lemma rsum_squares_zero (n : nat) (f : nat -> R) :
  rsum n (fun k => f k ^ 2) = 0 -> forall k, (k < n)%nat -> f k = 0.
Proof.
  intros H k Hk. destruct (Req_dec (f k) 0) as [E|E]; [exact E|exfalso].
  assert (0 < rsum n (fun k => f k ^ 2)); [|lra].
  apply rsum_pos.
  - intros j _. apply pow2_ge_0.
  - exists k. split; [exact Hk|].
    pose proof (pow_nonzero (f k) 2 E). pose proof (pow2_ge_0 (f k)). lra.
Qed.

Lemma factor_diagonal (d : nat) (S c : matrix) (k : nat) :
  cholesky_rows S d d c -> (k < d)%nat -> mget c k k <> 0.
Proof.
  intros Hrows Hk. destruct Hrows as [_ [Hpos _]]. pose proof (Hpos k Hk). lra.
Qed.





Lemma mahalanobis_zero (d : nat) (S c : matrix) (b : vector) :
  cholesky_rows S d d c ->
  rsum d (fun k => vget (lapack.forward_subst c b d) k ^ 2) = 0
  <-> forall k, (k < d)%nat -> vget b k = 0.
Proof.
  intros Hrows.
  assert (Hdiag : forall k, (k < d)%nat -> mget c k k <> 0)
    by (intros k Hk; apply (factor_diagonal Hrows Hk)).
  split.
  - intros H k Hk.
    rewrite <- (forward_subst_correct c b Hk (Hdiag k Hk)).
    apply rsum_zero. intros j Hj.
    rewrite (rsum_squares_zero (vget (lapack.forward_subst c b d)) H Hj). ring.
  - intros H. apply rsum_zero. intros k Hk.
    replace (vget (lapack.forward_subst c b d) k) with 0; [ring|]. symmetry.
    apply (@lower_triangular_injective c d (vget (lapack.forward_subst c b d))
             (fun _ => 0)); [exact Hdiag| |exact Hk].
    intros r Hr.
    rewrite (forward_subst_correct c b Hr (Hdiag r Hr)), (H r Hr).
    symmetry. apply rsum_zero. intros; ring.
Qed.

(** A leading block of a positive definite matrix is positive definite. *)
Lemma leading_block_positive_definite (n d : nat) (S S' : matrix) :
  (d <= n)%nat ->
  (forall i j, (i < d)%nat -> (j < d)%nat -> mget S' i j = mget S i j) ->
  positive_definite n S -> positive_definite d S'.
Proof.
  intros Hd HS Hpd x Hx [i [Hi Hne]].
  pose (x' := fun k => if (k <? d)%nat then vget x k else 0).
  assert (Hpos : 0 < rsum n (fun i => rsum n (fun j => x' i * mget S i j * x' j))).
  { apply (@positive_definite_fun n S x' Hpd). exists i. split; [lia|].
    unfold x'. destruct (Nat.ltb_spec i d); [exact Hne|lia]. }
  unfold quad_form.
  rewrite (@rsum_extend d n) in Hpos; [|exact Hd|].
  2:{ intros k Hk. apply rsum_zero. intros j _. unfold x'.
      destruct (Nat.ltb_spec k d); [lia|ring]. }
  rewrite (@rsum_ext d _ (fun i => rsum d (fun j => vget x i * mget S' i j * vget x j)))
    in Hpos; [exact Hpos|].
  intros k Hk. rewrite (@rsum_extend d n); [|exact Hd|].
  2:{ intros j Hj. unfold x'. destruct (Nat.ltb_spec j d); [lia|ring]. }
  apply rsum_ext. intros j Hj. unfold x'.
  destruct (Nat.ltb_spec k d); [|lia]. destruct (Nat.ltb_spec j d); [|lia].
  rewrite (HS k j Hk Hj). reflexivity.
Qed.

(** The metric "maha" on a symmetric positive definite covariance: the
    sum of the squares of the solution of the triangular system. *)
Lemma gating_kernel_maha (d N : nat) (mean : vector) (covariance measurements : matrix) :
  (1 <= d)%nat ->
  is_vec d mean -> is_mat d d covariance -> is_mat N d measurements ->
  symmetric d covariance -> positive_definite d covariance ->
  exists c,
    cholesky_rows covariance d d c
    /\ gating_kernel mean covariance measurements "maha"
       = Ok (map (fun z => rsum d (fun k =>
                    vget (lapack.forward_subst c (diff mean z) d) k ^ 2))
               measurements).
Proof.
  intros Hd Hm Hc Hz Hsym Hpd.
  destruct (cholesky_factor Hd Hc Hsym Hpd) as [c [Hrows EL]].
  exists c. split; [exact Hrows|].
  rewrite (gating_kernel_spec "maha" Hd Hm Hc Hz).
  unfold spec_squared_distances. cbn [String.eqb Ascii.eqb Bool.eqb].
  rewrite EL. cbn [bind]. rewrite Hm. f_equal.
  apply map_ext. intros z.
  rewrite (@forward_subst_ext (lapack.tril c) c).
  - apply rsum_ext. intros k _. ring.
  - intros k j Hk Hj. rewrite (mget_tril (proj1 Hrows)) by lia.
    unfold low. destruct (Nat.leb_spec j k); [reflexivity|lia].
Qed.

(** What the call with the metric "maha" returns on a symmetric
    covariance whose projection is positive definite. *)
Lemma gating_maha_result (N : nat) (mean : vector) (covariance measurements : matrix)
  (only_position : bool) (pm : vector) (S : matrix) :
  is_vec 8 mean -> is_mat 8 8 covariance -> symmetric 8 covariance ->
  project __init__ mean covariance = Ok (pm, S) -> positive_definite 4 S ->
  is_mat N 4 measurements ->
  let d := gating_dim only_position in
  exists S' c B dists,
    gating_distance __init__ mean covariance measurements only_position "maha"
    = Ok dists
    /\ is_vec N dists
    /\ symmetric d S' /\ cholesky_rows S' d d c
    /\ (forall i j, (i < d)%nat -> (j < d)%nat -> mget S' i j = mget S i j)
    /\ (forall i k, (i < N)%nat -> (k < d)%nat ->
          vget (B i) k = mget measurements i k - vget mean k)
    /\ (forall i, (i < N)%nat ->
          vget dists i
          = rsum d (fun k => vget (lapack.forward_subst c (B i) d) k ^ 2)).
Proof.
  intros Hm Hc Hsym Hproj Hpd Hz d.
  destruct (@gating_distance_kernel N mean covariance measurements only_position
              "maha" _ _ Hm Hc Hz Hproj)
    as [pm' [S' [z' [E [Hpm' [HS' [Hz' [Epm [ES Ez]]]]]]]]].
  fold d in E, Hpm', HS', Hz', Epm, ES, Ez.
  assert (Hd : (1 <= d <= 4)%nat) by (unfold d; destruct only_position; cbn; lia).
  assert (Hsym' : symmetric d S').
  { intros i j Hi Hj. rewrite (ES i j Hi Hj), (ES j i Hj Hi).
    apply (projected_symmetric Hm Hc Hsym Hproj); lia. }
  assert (Hpd' : positive_definite d S').
  { eapply (@leading_block_positive_definite 4 d); [lia|exact ES|exact Hpd]. }
  destruct (@gating_kernel_maha d N pm' S' z' (proj1 Hd) Hpm' HS' Hz' Hsym' Hpd')
    as [c [Hrows Ek]].
  eexists S', c, (fun i => diff pm' (nth i z' [])), _.
  split; [rewrite E; exact Ek|].
  split.
  { unfold is_vec. rewrite length_map.
    destruct Hz' as [Hl _]. unfold matrix, vector in *. lia. }
  split; [exact Hsym'|]. split; [exact Hrows|]. split; [exact ES|]. split.
  - intros i k Hi Hk.
    rewrite (@vget_diff d pm' (nth i z' []) k Hpm' (is_mat_row Hz' Hi) Hk).
    change (vget (nth i z' []) k) with (mget z' i k).
    rewrite (Ez i k Hi Hk), (Epm k Hk). reflexivity.
  - intros i Hi. unfold vget at 1.
    rewrite (@nth_map_in vector R [] 0)
      by (destruct Hz' as [Hl _]; unfold matrix, vector in *; lia).
    reflexivity.
Qed.





(** ** A track and the measurement that opened it *)

Lemma vec4_eta (z : vector) :
  is_vec 4 z -> z = [vget z 0; vget z 1; vget z 2; vget z 3].
Proof.
  intros H. destruct z as [|a [|b [|c [|h [|e z]]]]]; try discriminate H. reflexivity.
Qed.

Lemma initiate_mean_entry (z : vector) (i : nat) :
  is_vec 4 z -> (i < 4)%nat ->
  vget (z ++ [0; 0; 0; 0]) i = vget z i /\ vget (z ++ [0; 0; 0; 0]) (4 + i) = 0.
Proof.
  intros Hz Hi. rewrite (vec4_eta Hz). below i Hi; split; reflexivity.
Qed.

Lemma initiate_state (z : vector) :
  is_vec 4 z ->
  let m := z ++ [0; 0; 0; 0] in
  let P := np.diag (np.square (initiate_std (vget z 3))) in
  initiate __init__ z = Ok (m, P)
  /\ is_vec 8 m /\ is_mat 8 8 P /\ symmetric 8 P /\ positive_semidefinite 8 P
  /\ vget m 3 = vget z 3.
Proof.
  intros Hz m P.
  split; [apply (initiate_ok Hz)|].
  split; [unfold m, is_vec; rewrite length_app, Hz; reflexivity|].
  split; [apply is_mat_diag; reflexivity|].
  split; [apply diag_square_symmetric; reflexivity|].
  split; [apply diag_square_semidefinite; reflexivity|].
  apply (@initiate_mean_entry z 3 Hz). lia.
Qed.

(** X12.  [project] undoes [initiate] on the mean: the projection of a
    fresh track is the measurement it was opened on, with a diagonal
    covariance, five times the squared twentieth of the height for the
    position and the height. *)
Theorem project_after_initiate (measurement : vector) :
  is_vec 4 measurement ->
  exists mean covariance S,
    initiate __init__ measurement = Ok (mean, covariance)
    /\ project __init__ mean covariance = Ok (measurement, S)
    /\ is_mat 4 4 S
    /\ forall i j, (i < 4)%nat -> (j < 4)%nat ->
         mget S i j
         = if (i =? j)%nat
           then let h := vget measurement 3 in
                nth i [5 * (h / 20) ^ 2; 5 * (h / 20) ^ 2; 1e-2 ^ 2 + 1e-1 ^ 2;
                       5 * (h / 20) ^ 2] 0
           else 0.
Proof.
  intros Hz.
  destruct (initiate_state Hz) as [Ei [Hm [HP [_ [_ Eh]]]]].
  eexists _, _, _. split; [exact Ei|].
  assert (Epm : mat_vec (_update_mat __init__) (measurement ++ [0; 0; 0; 0]) = measurement).
  { apply (@vec_ext 4); [|exact Hz|].
    - rewrite (mat_vec_eq _ is_mat_update_mat) by lia. apply length_mk_vec.
    - intros i Hi. rewrite (projected_mean_entry _ Hi).
      apply (initiate_mean_entry Hz Hi). }
  split; [rewrite (project_ok Hm HP), Epm; reflexivity|].
  split; [apply (is_mat_projected _ HP)|].
  intros i j Hi Hj. rewrite (projected_cov_entry _ HP Hi Hj), Eh.
  unfold innovation_cov. rewrite !mget_diag by (cbn; lia).
  below i Hi; below j Hj; cbn; lra.
Qed.

Lemma project_after_initiate_witness :
  exists mean covariance S,
    initiate __init__ [100; 50; 0.5; 200] = Ok (mean, covariance)
    /\ project __init__ mean covariance = Ok ([100; 50; 0.5; 200], S)
    /\ is_mat 4 4 S
    /\ forall i j, (i < 4)%nat -> (j < 4)%nat ->
         mget S i j
         = if (i =? j)%nat
           then let h := vget [100; 50; 0.5; 200] 3 in
                nth i [5 * (h / 20) ^ 2; 5 * (h / 20) ^ 2; 1e-2 ^ 2 + 1e-1 ^ 2;
                       5 * (h / 20) ^ 2] 0
           else 0.
Proof. apply (@project_after_initiate [100; 50; 0.5; 200]). reflexivity. Defined.

Lemma singleton_of_entry (v : vector) (x : R) :
  is_vec 1 v -> vget v 0 = x -> v = [x].
Proof.
  intros H E. destruct v as [|a [|b v]]; try discriminate H. cbn in E. subst. reflexivity.
Qed.

(** X13.  The measurement a track was opened on is at distance zero
    from the fresh track, position only or not: with the metric
    "gaussian" always, with "maha" when the covariance [project] returns
    for the fresh track is positive definite. *)
Theorem gating_distance_of_initiating_measurement (measurement : vector)
  (only_position : bool) (metric : string) (mean : vector) (covariance : matrix)
  (pm : vector) (S : matrix) :
  is_vec 4 measurement ->
  initiate __init__ measurement = Ok (mean, covariance) ->
  project __init__ mean covariance = Ok (pm, S) ->
  metric = "gaussian"%string \/ (metric = "maha"%string /\ positive_definite 4 S) ->
  gating_distance __init__ mean covariance [measurement] only_position metric = Ok [0].
Proof.
  intros Hz Hinit Hproj Hmetric.
  destruct (initiate_state Hz) as [Ei [Hm [HP [Hsym [_ _]]]]].
  rewrite Ei in Hinit.
  assert (Em : mean = measurement ++ [0; 0; 0; 0]) by congruence.
  assert (Ec : covariance = np.diag (np.square (initiate_std (vget measurement 3))))
    by congruence.
  subst mean covariance. clear Hinit.
  assert (HM : is_mat 1 4 [measurement]).
  { split; [reflexivity|]. constructor; [exact Hz|constructor]. }
  assert (Hd : (gating_dim only_position <= 4)%nat)
    by (destruct only_position; cbn; lia).
  assert (Eagree : forall k, (k < gating_dim only_position)%nat ->
            mget [measurement] 0 k = vget (measurement ++ [0; 0; 0; 0]) k).
  { intros k Hk. symmetry. apply (@initiate_mean_entry measurement k Hz). lia. }
  destruct Hmetric as [->|[-> Hpd]].
  - destruct (@gating_distance_kernel 1 _ _ [measurement] only_position
                "gaussian" _ _ Hm HP HM Hproj)
      as [pm' [S' [z' [E [Hpm' [_ [Hz' [Epm [_ Ez]]]]]]]]].
    rewrite E.
    rewrite (@gating_kernel_gaussian (gating_dim only_position) 1 pm' S' z');
      [|destruct only_position; cbn; lia|exact Hpm'|exact Hz'].
    f_equal. destruct z' as [|row [|row' z']]; try discriminate (proj1 Hz').
    cbn [map]. f_equal. apply rsum_zero. intros k Hk.
    change (vget row k) with (mget [row] 0 k).
    rewrite (Ez 0%nat k (Nat.lt_0_1) Hk), (Epm k Hk), (Eagree k Hk). ring.
  - destruct (@gating_maha_result 1 _ _ [measurement] only_position pm S
                Hm HP Hsym Hproj Hpd HM)
      as [S' [c [B [dists [E [Hlen [_ [Hrows [_ [EB Ed]]]]]]]]]].
    rewrite E. f_equal. apply (singleton_of_entry Hlen).
    rewrite (Ed 0%nat Nat.lt_0_1).
    apply (@mahalanobis_zero _ S' c (B 0%nat) Hrows).
    intros k Hk. rewrite (EB 0%nat k Nat.lt_0_1 Hk), (Eagree k Hk). ring.
Qed.

Lemma gating_distance_of_initiating_measurement_witness :
  gating_distance __init__ sample_mean sample_covariance [[100; 50; 0.5; 200]] false "maha"
  = Ok [0].
Proof.
  apply (@gating_distance_of_initiating_measurement [100; 50; 0.5; 200] false "maha"
           sample_mean sample_covariance (fst sample_projection) (snd sample_projection)).
  - reflexivity.
  - exact (initiate_ok (measurement := [100; 50; 0.5; 200]) eq_refl).
  - apply sample_project.
  - right. split; [reflexivity|]. apply sample_projection_definite.
Defined.

(** ** The first correction of a track *)

(** The state of a fresh track after one prediction: the mean as it
    was, and the covariance entries the correction step reads. *)
Lemma predict_after_initiate (z : vector) :
  is_vec 4 z ->
  let h := vget z 3 in
  exists m P m' P',
    initiate __init__ z = Ok (m, P)
    /\ predict __init__ m P = Ok (m', P')
    /\ is_vec 8 m' /\ is_mat 8 8 P'
    /\ symmetric 8 P' /\ positive_semidefinite 8 P'
    /\ (forall i, (i < 4)%nat -> vget m' i = vget z i /\ vget m' (4 + i) = 0)
    /\ (forall i j, (i < 4)%nat -> (j < 4)%nat ->
          mget P' i j
          = (if (i =? j)%nat
             then nth i [105 / 6400 * h ^ 2; 105 / 6400 * h ^ 2; 2.000001e-4;
                         105 / 6400 * h ^ 2] 0
             else 0)
          /\ mget P' (4 + i) j
             = (if (i =? j)%nat
                then nth i [h ^ 2 / 256; h ^ 2 / 256; 1e-10; h ^ 2 / 256] 0
                else 0)).
Proof.
  intros Hz h.
  destruct (initiate_state Hz) as [Ei [Hm [HP [Hsym [Hpsd Eh]]]]].
  destruct (predict_result Hm HP) as [m' [P' [Ep [Hm' [HP' [Em EP]]]]]].
  destruct (predict_covariance Hm HP Hsym Hpsd)
    as [m2 [P2 [Ep2 [_ [_ [Hsym' Hpsd']]]]]].
  rewrite Ep in Ep2. injection Ep2 as <- <-.
  eexists _, _, m', P'. split; [exact Ei|]. split; [exact Ep|].
  split; [exact Hm'|]. split; [exact HP'|].
  split; [exact Hsym'|]. split; [exact Hpsd'|]. split.
  - intros i Hi. rewrite !Em by lia.
    destruct (Nat.ltb_spec i 4); [|lia]. destruct (Nat.ltb_spec (4 + i) 4); [lia|].
    destruct (initiate_mean_entry Hz Hi) as [E1 E2]. rewrite E1, E2. split; ring.
  - intros i j Hi Hj. rewrite !EP by lia. rewrite Eh. fold h.
    unfold process_noise. rewrite !mget_diag by (cbn; lia).
    below i Hi; below j Hj; cbn; split; lra.
Qed.

(** The gain against a diagonal projected covariance. *)
Lemma gain_against_diagonal (K : nat -> nat -> R) (S P : matrix) (s : nat -> R)
  (i j : nat) :
  (forall l c, (l < 4)%nat -> (c < 4)%nat ->
     mget S l c = if (l =? c)%nat then s l else 0) ->
  rsum 4 (fun l => K i l * mget S l j) = mget P i j ->
  (j < 4)%nat -> K i j * s j = mget P i j.
Proof.
  intros HS E Hj. rewrite <- E.
  rewrite (@rsum_ext 4 _ (fun l => if (l =? j)%nat then K i l * s l else 0)).
  - rewrite (rsum_delta _ Hj). reflexivity.
  - intros l Hl. rewrite (HS l j Hl Hj). destruct (l =? j)%nat; ring.
Qed.

Lemma positive_definite_first_entry (S : matrix) :
  positive_definite 4 S -> 0 < mget S 0 0.
Proof.
  intros Hpd.
  assert (H : 0 < quad_form 4 S [1; 0; 0; 0]).
  { apply Hpd; [reflexivity|]. exists 0%nat. split; [lia|]. cbn. lra. }
  unfold quad_form in H. cbn [rsum vget nth] in H. lra.
Qed.

(** X14.  The first correction of a track, one prediction after
    [initiate], when the covariance [project] returns for the predicted
    state is positive definite: [update] returns, and as a formula it
    moves the centre and the height 105/121 of the way from the opening
    measurement z to the new one z', the aspect ratio
    2000001/102000001 of the way, and sets the velocities to 25/121
    (1/102000001 for the aspect ratio) of the difference, whatever the
    height. *)
Theorem first_update_gain (z z' m : vector) (P : matrix) (m1 : vector) (P1 : matrix)
  (pm : vector) (S : matrix) :
  is_vec 4 z -> is_vec 4 z' ->
  initiate __init__ z = Ok (m, P) ->
  predict __init__ m P = Ok (m1, P1) ->
  project __init__ m1 P1 = Ok (pm, S) -> positive_definite 4 S ->
  exists m2 P2,
    update __init__ m1 P1 z' = Ok (m2, P2)
    /\ forall i, (i < 4)%nat ->
         vget m2 i
         = vget z i
           + (if (i =? 2)%nat then 2000001 / 102000001 else 105 / 121)
             * (vget z' i - vget z i)
         /\ vget m2 (4 + i)
            = (if (i =? 2)%nat then 1 / 102000001 else 25 / 121)
              * (vget z' i - vget z i).
Proof.
  intros Hz Hz' Hinit Hpred Hproj Hpd.
  destruct (predict_after_initiate Hz)
    as [m0 [P0 [m1' [P1' [Ei [Ep [Hm1 [HP1 [Hsym [_ [Em1 EP1]]]]]]]]]]].
  rewrite Hinit in Ei.
  assert (E0 : m0 = m) by congruence. assert (E0' : P0 = P) by congruence.
  subst m0 P0. rewrite Hpred in Ep.
  assert (E1 : m1' = m1) by congruence. assert (E1' : P1' = P1) by congruence.
  subst m1' P1'. clear Ei Ep.
  assert (Eh : vget m1 3 = vget z 3) by (apply (Em1 3%nat); lia).
  destruct (update_closed_form Hm1 HP1 Hz' Hsym Hproj Hpd)
    as [K [m2 [P2 [Hupd [_ [_ [HK [Emean _]]]]]]]].
  exists m2, P2. split; [exact Hupd|].
  set (h := vget z 3) in *.
  pose (s := fun l : nat =>
          nth l [121 / 6400 * h ^ 2; 121 / 6400 * h ^ 2; 1.02000001e-2;
                 121 / 6400 * h ^ 2] 0).
  assert (HS : forall l c, (l < 4)%nat -> (c < 4)%nat ->
            mget S l c = if (l =? c)%nat then s l else 0).
  { intros l c Hl Hc.
    assert (E : S = mat_map2 Rplus
                      (mat_mul (_update_mat __init__)
                         (mat_mul P1 (transpose (_update_mat __init__))))
                      (innovation_cov __init__ (vget m1 3)))
      by (rewrite (project_ok Hm1 HP1) in Hproj; congruence).
    rewrite E, (projected_cov_entry _ HP1 Hl Hc), (proj1 (EP1 l c Hl Hc)), Eh.
    unfold innovation_cov. rewrite !mget_diag by (cbn; lia).
    unfold s. below l Hl; below c Hc; cbn; lra. }
  assert (Hh : h <> 0).
  { pose proof (positive_definite_first_entry Hpd) as H0.
    rewrite (HS 0%nat 0%nat) in H0 by lia. cbn in H0. intros E. rewrite E in H0. lra. }
  assert (Hs : forall l, (l < 4)%nat -> s l <> 0).
  { intros l Hl. pose proof (pow_nonzero h 2 Hh). pose proof (pow2_ge_0 h).
    unfold s. below l Hl; cbn; lra. }
  assert (EK : forall i l, (i < 8)%nat -> (l < 4)%nat -> K i l = mget P1 i l / s l).
  { intros i l Hi Hl.
    pose proof (@gain_against_diagonal K S P1 s i l HS (HK i l Hi Hl) Hl) as E.
    rewrite <- E. field. apply Hs, Hl. }
  assert (Hsum : forall i a, (i < 4)%nat -> (a = i \/ a = 4 + i)%nat ->
            rsum 4 (fun l => K a l * (vget z' l - vget m1 l))
            = mget P1 a i / s i * (vget z' i - vget z i)).
  { intros i a Hi Ha.
    rewrite (@rsum_ext 4 _ (fun l => if (l =? i)%nat
                                      then mget P1 a l / s l * (vget z' l - vget m1 l)
                                      else 0)).
    - rewrite (rsum_delta _ Hi). rewrite (proj1 (Em1 i Hi)). reflexivity.
    - intros l Hl. rewrite (EK a l) by lia.
      destruct (Nat.eqb_spec l i) as [->|Hne]; [reflexivity|].
      replace (mget P1 a l) with 0; [unfold Rdiv; ring|].
      destruct Ha as [->| ->].
      + rewrite (proj1 (EP1 i l Hi Hl)).
        destruct (Nat.eqb_spec i l); [congruence|reflexivity].
      + rewrite (proj2 (EP1 i l Hi Hl)).
        destruct (Nat.eqb_spec i l); [congruence|reflexivity]. }
  intros i Hi. split.
  - rewrite (Emean i) by lia. rewrite (Hsum i i Hi (or_introl eq_refl)).
    rewrite (proj1 (Em1 i Hi)), (proj1 (EP1 i i Hi Hi)), Nat.eqb_refl.
    unfold s. below i Hi; cbn; first [lra | field; exact Hh].
  - rewrite (Emean (4 + i)%nat) by lia. rewrite (Hsum i (4 + i)%nat Hi (or_intror eq_refl)).
    rewrite (proj2 (Em1 i Hi)), (proj2 (EP1 i i Hi Hi)), Nat.eqb_refl.
    unfold s. below i Hi; cbn; first [lra | field; exact Hh].
Qed.

Lemma first_update_gain_witness :
  exists m1 P1 m2 P2,
    predict __init__ sample_mean sample_covariance = Ok (m1, P1)
    /\ update __init__ m1 P1 [102; 49; 0.5; 198] = Ok (m2, P2)
    /\ forall i, (i < 4)%nat ->
         vget m2 i
         = vget [100; 50; 0.5; 200] i
           + (if (i =? 2)%nat then 2000001 / 102000001 else 105 / 121)
             * (vget [102; 49; 0.5; 198] i - vget [100; 50; 0.5; 200] i)
         /\ vget m2 (4 + i)
            = (if (i =? 2)%nat then 1 / 102000001 else 25 / 121)
              * (vget [102; 49; 0.5; 198] i - vget [100; 50; 0.5; 200] i).
Proof.
  pose proof (initiate_ok (measurement := [100; 50; 0.5; 200]) eq_refl) as Hinit.
  change (initiate __init__ [100; 50; 0.5; 200] = Ok (sample_mean, sample_covariance))
    in Hinit.
  destruct (predict_covariance (proj1 sample_shapes) (proj2 sample_shapes)
              sample_symmetric sample_semidefinite)
    as [m1 [P1 [Hpred [Hm1 [HP1 [_ Hpsd1]]]]]].
  destruct (predict_result (proj1 sample_shapes) (proj2 sample_shapes))
    as [m1' [P1' [Hpred' [_ [_ [Emean _]]]]]].
  assert (Hh1 : vget m1 3 <> 0).
  { rewrite Hpred in Hpred'. assert (E : m1' = m1) by congruence. subst m1'.
    rewrite (Emean 3%nat) by lia. cbn. lra. }
  pose proof (project_ok Hm1 HP1) as Hproj.
  pose proof (projected_positive_definite Hm1 HP1 Hpsd1 Hh1 Hproj) as Hpd.
  destruct (@first_update_gain [100; 50; 0.5; 200] [102; 49; 0.5; 198]
              sample_mean sample_covariance m1 P1 _ _
              eq_refl eq_refl Hinit Hpred Hproj Hpd)
    as [m2 [P2 [Hupd Hgain]]].
  exists m1, P1, m2, P2. split; [exact Hpred|]. split; [exact Hupd|exact Hgain].
Defined.

(** ** Arrays of the wrong shape *)

Lemma mapM_raise_first (A B : Type) (f : A -> result B) (a : A) (l : list A) (e : exn) :
  f a = Raise e -> mapM f (a :: l) = Raise e.
Proof. intros H. cbn [mapM]. rewrite H. reflexivity. Qed.

Lemma is_mat_first_row (N w : nat) (M : matrix) :
  (1 <= N)%nat -> is_mat N w M -> exists row rest, M = row :: rest /\ length row = w.
Proof.
  intros HN HM. destruct M as [|row rest].
  - destruct HM as [Hl _]. cbn in Hl. lia.
  - exists row, rest. split; [reflexivity|].
    apply (is_mat_In row HM). left. reflexivity.
Qed.

(** X15.  [multi_predict] on means that are not 8 wide fails as
    [predict] does on one of them, before the covariances are looked
    at: IndexError from [mean[:, 3]] under four columns, the ValueError
    of [np.dot] otherwise. *)
Theorem multi_predict_wrong_width (N w : nat) (mean : matrix) (covariance : list matrix) :
  (1 <= N)%nat -> is_mat N w mean -> w <> 8%nat ->
  multi_predict __init__ mean covariance
  = Raise (if (w <? 4)%nat then IndexError else ValueError "shapes not aligned").
Proof.
  intros HN Hmean Hw. unfold multi_predict.
  destruct (Nat.ltb_spec w 4) as [Hlt|Hge].
  - destruct (is_mat_first_row HN Hmean) as [row [rest [-> Hrow]]].
    rewrite (@mapM_raise_first _ _ _ row rest IndexError); [reflexivity|].
    apply getitem_short. lia.
  - rewrite (mapM_ok (fun row => getitem row 3) (fun row => vget row 3)).
    2:{ intros row Hrow. apply getitem_long.
        rewrite (@is_mat_In N w mean row Hmean Hrow). lia. }
    cbn [bind]. unfold np.dot, np.T.
    rewrite (ncols_is_mat Hmean) by lia.
    rewrite (nrows_is_mat (is_mat_transpose is_mat_motion_mat ltac:(lia))).
    destruct (Nat.eqb_spec w 8) as [E|_]; [congruence|]. reflexivity.
Qed.

Lemma multi_predict_wrong_width_witness :
  multi_predict __init__ [[1; 2; 3; 4; 5]; [6; 7; 8; 9; 10]] [np.eye 8 8; np.eye 8 8]
  = Raise (if (5 <? 4)%nat then IndexError else ValueError "shapes not aligned").
Proof.
  apply (@multi_predict_wrong_width 2 5).
  - lia.
  - split; [reflexivity|]. repeat constructor.
  - discriminate.
Defined.

(** X16.  [multi_predict] with a number of covariances that is neither
    one nor the number of means, of which there are two or more, raises
    the ValueError of the final addition. *)
Theorem multi_predict_count_mismatch (N M : nat) (mean : matrix)
  (covariance : list matrix) :
  is_mat N 8 mean -> length covariance = M ->
  (forall C, In C covariance -> is_mat 8 8 C) ->
  (2 <= N)%nat -> M <> 1%nat -> M <> N ->
  multi_predict __init__ mean covariance
  = Raise (ValueError "operands could not be broadcast together").
Proof.
  intros Hmean Hlen Hcov HN HM1 HMN.
  pose proof is_mat_motion_mat as HA.
  assert (HAt : is_mat 8 8 (transpose (_motion_mat __init__)))
    by (apply (is_mat_transpose HA); lia).
  unfold multi_predict.
  rewrite (mapM_ok (fun row => getitem row 3) (fun row => vget row 3)).
  2:{ intros row Hrow. apply (@getitem_ok 8); [|lia].
      apply (@is_mat_In N 8 mean row Hmean Hrow). }
  cbn [bind].
  change (np.T (_motion_mat __init__)) with (transpose (_motion_mat __init__)).
  rewrite (np_dot_ok Hmean HAt) by lia. cbn [bind].
  destruct covariance as [|C0 covariance'] eqn:Ecov.
  - cbn [length] in Hlen. subst M.
    unfold np.dot_m3. cbn [forallb]. cbn [bind].
    unfold np.transpose102. rewrite (nrows_is_mat HA).
    cbn [seq map hd length]. unfold np.dot_3m. cbn [mapM bind].
    unfold np.add3. rewrite length_map, length_seq, (proj1 Hmean).
    cbn [length]. destruct (Nat.eqb_spec N 0) as [E|_]; [lia|].
    destruct (Nat.eqb_spec 0 N) as [E|_]; [lia|]. cbn [Nat.eqb].
    destruct (Nat.eqb_spec N 1) as [E|_]; [lia|]. reflexivity.
  - rewrite <- Ecov in *.
    destruct (@dot_m3_transposed 8 8 (_motion_mat __init__) covariance HA)
      as [y [Hy Hleft]]; try lia.
    { rewrite Ecov. cbn [length]. lia. }
    { intros Ck HCk. apply (nrows_is_mat (Hcov Ck HCk)). }
    rewrite Hy. cbn [bind]. rewrite Hleft.
    unfold np.dot_3m.
    rewrite (mapM_ok _ (fun Xk => mat_mul Xk (transpose (_motion_mat __init__)))).
    2:{ intros Xk HXk. apply in_map_iff in HXk. destruct HXk as [Ck [<- HCk]].
        apply (@np_dot_ok 8 8 8); try lia; [|exact HAt].
        apply (is_mat_mat_mul HA (Hcov Ck HCk)); lia. }
    cbn [bind]. unfold np.add3.
    rewrite !length_map, length_seq, (proj1 Hmean), Hlen.
    destruct (Nat.eqb_spec N 0) as [E|_]; [lia|].
    destruct (Nat.eqb_spec M N) as [E|_]; [congruence|].
    destruct (Nat.eqb_spec M 1) as [E|_]; [congruence|].
    destruct (Nat.eqb_spec N 1) as [E|_]; [lia|]. reflexivity.
Qed.

Lemma multi_predict_count_mismatch_witness :
  multi_predict __init__ [sample_mean; sample_mean]
    [sample_covariance; sample_covariance; sample_covariance]
  = Raise (ValueError "operands could not be broadcast together").
Proof.
  apply (@multi_predict_count_mismatch 2 3).
  - split; [reflexivity|]. repeat constructor.
  - reflexivity.
  - intros C [<-|[<-|[<-|[]]]]; apply sample_shapes.
  - lia.
  - discriminate.
  - discriminate.
Defined.

(** X17.  [gating_distance] subtracts the mean from the measurements
    before it looks at the metric: measurements whose width, after the
    cut to two columns with [only_position], is neither one nor that of
    the projected mean raise the ValueError of the subtraction,
    whatever the metric. *)
Theorem gating_distance_wrong_width (N w : nat) (mean : vector)
  (covariance measurements : matrix) (only_position : bool) (metric : string) :
  is_vec 8 mean -> is_mat 8 8 covariance ->
  (1 <= N)%nat -> is_mat N w measurements ->
  let width := if only_position then Nat.min 2 w else w in
  width <> gating_dim only_position -> width <> 1%nat ->
  gating_distance __init__ mean covariance measurements only_position metric
  = Raise (ValueError "operands could not be broadcast together").
Proof.
  intros Hm Hc HN Hz width Hw Hw1.
  destruct (is_mat_first_row HN Hz) as [row [rest [-> Hrow]]].
  unfold gating_distance. rewrite (project_ok Hm Hc). cbn [bind].
  assert (Hpm : length (mat_vec (_update_mat __init__) mean) = 4%nat).
  { rewrite (mat_vec_eq _ is_mat_update_mat) by lia. apply length_mk_vec. }
  unfold width, gating_dim in *. destruct only_position; cbv beta iota in Hw, Hw1.
  - cbn [map]. unfold np.subtract_rows.
    rewrite (@mapM_raise_first _ _ _ _ _
               (ValueError "operands could not be broadcast together"));
      [reflexivity|].
    unfold np.subtract, broadcast1. rewrite !length_firstn, Hrow, Hpm.
    destruct (Nat.eqb_spec (Nat.min 2 w) (Nat.min 2 4)) as [E|_]; [lia|].
    destruct (Nat.eqb_spec (Nat.min 2 w) 1) as [E|_]; [lia|].
    reflexivity.
  - unfold np.subtract_rows.
    rewrite (@mapM_raise_first _ _ _ _ _
               (ValueError "operands could not be broadcast together"));
      [reflexivity|].
    unfold np.subtract, broadcast1. rewrite Hrow, Hpm.
    destruct (Nat.eqb_spec w 4) as [E|_]; [lia|].
    destruct (Nat.eqb_spec w 1) as [E|_]; [lia|].
    reflexivity.
Qed.

Lemma gating_distance_wrong_width_witness :
  gating_distance __init__ sample_mean sample_covariance [[102; 49; 0.5]] false "nometric"
  = Raise (ValueError "operands could not be broadcast together").
Proof.
  apply (@gating_distance_wrong_width 1 3).
  - apply sample_shapes.
  - apply sample_shapes.
  - lia.
  - split; [reflexivity|]. repeat constructor.
  - cbn. discriminate.
  - discriminate.
Defined.

Lemma multi_dot_wrong_inner (A B : matrix) (n m : nat) :
  is_mat 8 8 A -> is_mat n m B -> n <> 8%nat \/ m <> 8%nat ->
  np.linalg.multi_dot A B (np.T A) = Raise (ValueError "shapes not aligned")
  /\ forall H : matrix, is_mat 4 8 H ->
       np.linalg.multi_dot H B (np.T H) = Raise (ValueError "shapes not aligned").
Proof.
  intros HA HB Hne.
  assert (Hright : forall (k : nat) (X : matrix), (0 < k)%nat -> is_mat k 8 X ->
            (BC <- np.dot B (transpose X) ;; np.dot X BC)
            = Raise (ValueError "shapes not aligned")).
  { intros k X Hk HX.
    assert (HXt : is_mat 8 k (transpose X)) by (apply (is_mat_transpose HX); lia).
    unfold np.dot at 1. rewrite (nrows_is_mat HXt).
    destruct (Nat.eqb_spec (ncols B) 8) as [E|_]; [|reflexivity].
    cbn [bind]. unfold np.dot.
    rewrite (ncols_is_mat HX) by lia.
    assert (Hn : (0 < n)%nat).
    { destruct n; [|lia]. destruct HB as [Hl _].
      apply length_zero_iff_nil in Hl. subst B. discriminate E. }
    rewrite (ncols_is_mat HB Hn) in E. subst m.
    rewrite (nrows_is_mat (is_mat_mat_mul HB HXt Hn ltac:(lia))).
    destruct (Nat.eqb_spec 8 n) as [E'|_]; [lia|]. reflexivity. }
  split.
  - unfold np.linalg.multi_dot, np.T.
    rewrite (nrows_is_mat HA), (ncols_is_mat HA) by lia.
    rewrite (nrows_is_mat (is_mat_transpose HA ltac:(lia))).
    rewrite (ncols_is_mat (is_mat_transpose HA ltac:(lia))) by lia.
    rewrite Nat.ltb_irrefl. apply (Hright 8%nat); [lia|exact HA].
  - intros H HH. unfold np.linalg.multi_dot, np.T.
    rewrite (nrows_is_mat HH), (ncols_is_mat HH) by lia.
    rewrite (nrows_is_mat (is_mat_transpose HH ltac:(lia))).
    rewrite (ncols_is_mat (is_mat_transpose HH ltac:(lia))) by lia.
    replace ((4 * 8 * (8 + 4) <? 8 * 4 * (4 + 8))%nat) with false
      by (symmetry; apply Nat.ltb_ge; lia).
    apply (Hright 4%nat); [lia|exact HH].
Qed.

(** X18.  A covariance that is not 8 x 8, under a mean that is an
    8-vector, stops [predict], [project], [update] and
    [gating_distance] with the ValueError of the matrix product. *)
Theorem covariance_of_wrong_shape (n m : nat) (mean : vector)
  (covariance measurements : matrix) (measurement : vector) (only_position : bool)
  (metric : string) :
  is_vec 8 mean -> is_mat n m covariance -> n <> 8%nat \/ m <> 8%nat ->
  predict __init__ mean covariance = Raise (ValueError "shapes not aligned")
  /\ project __init__ mean covariance = Raise (ValueError "shapes not aligned")
  /\ update __init__ mean covariance measurement
     = Raise (ValueError "shapes not aligned")
  /\ gating_distance __init__ mean covariance measurements only_position metric
     = Raise (ValueError "shapes not aligned").
Proof.
  intros Hm Hc Hne.
  destruct (multi_dot_wrong_inner is_mat_motion_mat Hc Hne) as [Hpred Hproj'].
  pose proof (Hproj' _ is_mat_update_mat) as Hmd.
  assert (Hproj : project __init__ mean covariance
                  = Raise (ValueError "shapes not aligned")).
  { unfold project. rewrite (@getitem_ok 8 mean 3 Hm) by lia. cbn [bind].
    rewrite (np_dot_mv_ok is_mat_update_mat Hm) by lia. cbn [bind].
    rewrite Hmd. reflexivity. }
  split; [|split; [exact Hproj|split]].
  - unfold predict. rewrite (@getitem_ok 8 mean 3 Hm) by lia. cbn [bind].
    unfold np.T at 1.
    rewrite (np_dot_vm_ok Hm (is_mat_transpose is_mat_motion_mat ltac:(lia))).
    cbn [bind]. rewrite Hpred. reflexivity.
  - unfold update. rewrite Hproj. reflexivity.
  - unfold gating_distance. rewrite Hproj. reflexivity.
Qed.

Lemma covariance_of_wrong_shape_witness :
  predict __init__ sample_mean (np.eye 4 4) = Raise (ValueError "shapes not aligned")
  /\ project __init__ sample_mean (np.eye 4 4) = Raise (ValueError "shapes not aligned")
  /\ update __init__ sample_mean (np.eye 4 4) [1; 2; 3; 4]
     = Raise (ValueError "shapes not aligned")
  /\ gating_distance __init__ sample_mean (np.eye 4 4) [[1; 2; 3; 4]] false "maha"
     = Raise (ValueError "shapes not aligned").
Proof.
  apply (@covariance_of_wrong_shape 4 4).
  - reflexivity.
  - apply is_mat_mk_mat.
  - left. discriminate.
Defined.

(** [update] up to the subtraction of the projected mean. *)
Lemma update_until_innovation (mean : vector) (covariance : matrix)
  (measurement pm : vector) (S c : matrix) (e : exn) :
  is_vec 8 mean -> is_mat 8 8 covariance ->
  project __init__ mean covariance = Ok (pm, S) ->
  lapack.potrf S 4 = Some c ->
  np.subtract measurement pm = Raise e ->
  update __init__ mean covariance measurement = Raise e.
Proof.
  intros Hm Hc Hproj Hpotrf Hsub.
  pose proof is_mat_update_mat as HH.
  assert (HHt : is_mat 8 4 (transpose (_update_mat __init__)))
    by (apply (is_mat_transpose HH); lia).
  destruct (projected_mean_shape Hm Hc Hproj) as [Hpm HS].
  pose proof (potrf_shape HS (le_n 4) Hpotrf) as Hcm.
  pose proof (is_mat_mat_mul Hc HHt ltac:(lia) ltac:(lia)) as Hb.
  unfold update. rewrite Hproj. cbn [bind].
  unfold scipy.linalg.cho_factor.
  rewrite (nrows_is_mat HS), (ncols_is_mat HS) by lia. cbn [Nat.eqb negb].
  rewrite Hpotrf. cbn [bind]. unfold np.T.
  rewrite (np_dot_ok Hc HHt) by lia. cbn [bind].
  unfold scipy.linalg.cho_solve.
  rewrite (nrows_is_mat Hcm), (ncols_is_mat Hcm) by lia. cbn [Nat.eqb negb].
  rewrite (nrows_is_mat (is_mat_transpose Hb ltac:(lia))). cbn [Nat.eqb negb bind].
  rewrite Hsub. reflexivity.
Qed.

(** X19.  On a state whose projected covariance [cho_factor] accepts, a
    measurement with neither four entries nor one raises the ValueError
    of the subtraction of the projected mean. *)
Theorem update_wrong_measurement_length (mean : vector) (covariance : matrix)
  (measurement pm : vector) (S : matrix) (factor : matrix * bool) :
  is_vec 8 mean -> is_mat 8 8 covariance ->
  project __init__ mean covariance = Ok (pm, S) ->
  scipy.linalg.cho_factor S true = Ok factor ->
  length measurement <> 4%nat -> length measurement <> 1%nat ->
  update __init__ mean covariance measurement
  = Raise (ValueError "operands could not be broadcast together").
Proof.
  intros Hm Hc Hproj Hfactor H4 H1.
  destruct (projected_mean_shape Hm Hc Hproj) as [Hpm HS].
  assert (Hpotrf : exists c, lapack.potrf S 4 = Some c).
  { unfold scipy.linalg.cho_factor in Hfactor.
    rewrite (nrows_is_mat HS), (ncols_is_mat HS) in Hfactor by lia.
    cbn [Nat.eqb negb] in Hfactor.
    destruct (lapack.potrf S 4) as [c|]; [exists c; reflexivity|discriminate]. }
  destruct Hpotrf as [c Hpotrf].
  apply (update_until_innovation _ Hm Hc Hproj Hpotrf).
  unfold np.subtract, broadcast1. unfold is_vec in Hpm.
  destruct (Nat.eqb_spec (length measurement) (length pm)) as [E|_]; [congruence|].
  destruct (Nat.eqb_spec (length measurement) 1) as [E|_]; [congruence|].
  destruct (Nat.eqb_spec (length pm) 1) as [E|_]; [congruence|].
  reflexivity.
Qed.

Lemma update_wrong_measurement_length_witness :
  update __init__ sample_mean sample_covariance [102; 49; 0.5]
  = Raise (ValueError "operands could not be broadcast together").
Proof.
  destruct (potrf_succeeds (proj2 (projected_mean_shape (proj1 sample_shapes)
                                     (proj2 sample_shapes) sample_project))
              (projected_symmetric (proj1 sample_shapes) (proj2 sample_shapes)
                 sample_symmetric sample_project)
              sample_projection_definite (le_n 4))
    as [c [Hpotrf _]].
  apply (@update_wrong_measurement_length sample_mean sample_covariance [102; 49; 0.5]
           (fst sample_projection) (snd sample_projection) (c, true)).
  - apply sample_shapes.
  - apply sample_shapes.
  - apply sample_project.
  - unfold scipy.linalg.cho_factor.
    rewrite (nrows_is_mat (proj2 (projected_mean_shape (proj1 sample_shapes)
                                    (proj2 sample_shapes) sample_project))).
    rewrite (ncols_is_mat (proj2 (projected_mean_shape (proj1 sample_shapes)
                                    (proj2 sample_shapes) sample_project)))
      by lia.
    cbn [Nat.eqb negb]. rewrite Hpotrf. reflexivity.
  - discriminate.
  - discriminate.
Defined.

(** ** One covariance for many means, one mean for many covariances *)

(** [multi_predict] up to its last addition. *)
Lemma multi_predict_until_sum (N M : nat) (mean : matrix) (covariance : list matrix) :
  (1 <= N)%nat -> (1 <= M)%nat -> is_mat N 8 mean -> length covariance = M ->
  (forall C, In C covariance -> is_mat 8 8 C) ->
  multi_predict __init__ mean covariance
  = (covariance <- np.add3
                     (map (fun C => mat_mul (mat_mul (_motion_mat __init__) C)
                                      (transpose (_motion_mat __init__)))
                        covariance)
                     (map (fun i => process_noise __init__ (vget (nth i mean []) 3))
                        (seq 0 N)) ;;
     Ok (mat_mul mean (transpose (_motion_mat __init__)), covariance)).
Proof.
  intros HN HM Hmean Hlen Hcov.
  pose proof is_mat_motion_mat as HA.
  assert (HAt : is_mat 8 8 (transpose (_motion_mat __init__)))
    by (apply (is_mat_transpose HA); lia).
  unfold multi_predict.
  rewrite (mapM_ok (fun row => getitem row 3) (fun row => vget row 3)).
  2:{ intros row Hrow. apply (@getitem_ok 8); [|lia].
      apply (@is_mat_In N 8 mean row Hmean Hrow). }
  cbn [bind].
  change (np.T (_motion_mat __init__)) with (transpose (_motion_mat __init__)).
  rewrite (np_dot_ok Hmean HAt) by lia. cbn [bind].
  destruct (@dot_m3_transposed 8 8 (_motion_mat __init__) covariance HA) as [y [Hy Hleft]];
    try lia.
  { intros Ck HCk. apply (nrows_is_mat (Hcov Ck HCk)). }
  rewrite Hy. cbn [bind]. rewrite Hleft.
  unfold np.dot_3m.
  rewrite (mapM_ok _ (fun Xk => mat_mul Xk (transpose (_motion_mat __init__)))).
  2:{ intros Xk HXk. apply in_map_iff in HXk. destruct HXk as [Ck [<- HCk]].
      apply (@np_dot_ok 8 8 8); try lia; [|exact HAt].
      apply (is_mat_mat_mul HA (Hcov Ck HCk)); lia. }
  cbn [bind]. rewrite map_map.
  assert (Hh : length (map (fun row : vector => vget row 3) mean) = N)
    by (rewrite length_map; apply Hmean).
  f_equal. f_equal. rewrite (proj1 Hmean).
  apply map_ext_in. intros i Hi. apply in_seq in Hi.
  rewrite multi_predict_noise by (rewrite Hh; lia). f_equal.
  unfold vget. rewrite (@nth_map_in vector R [] 0)
    by (destruct Hmean as [Hl _]; unfold matrix, vector in *; lia).
  reflexivity.
Qed.

Lemma add2_ok (A B : matrix) :
  is_mat 8 8 A -> is_mat 8 8 B -> np.add2 A B = Ok (mat_map2 Rplus A B).
Proof. intros HA HB. apply (@elementwise2_ok Rplus 8 8); try lia; assumption. Qed.

(** X20.  [multi_predict] broadcasts, as NumPy does in its last
    addition: one covariance is the covariance of every one of
    N >= 1 means, and one mean gives the noise for every one of
    M >= 1 covariances. *)
Theorem multi_predict_broadcasts (N M : nat) (mean : matrix) (covariance : list matrix) :
  (1 <= N)%nat -> (1 <= M)%nat -> N = 1%nat \/ M = 1%nat ->
  is_mat N 8 mean -> length covariance = M ->
  (forall C, In C covariance -> is_mat 8 8 C) ->
  multi_predict __init__ mean covariance
  = Ok (mat_mul mean (transpose (_motion_mat __init__)),
        map (fun k =>
               mat_map2 Rplus
                 (mat_mul (mat_mul (_motion_mat __init__)
                             (nth (if (M =? 1)%nat then 0 else k) covariance []))
                    (transpose (_motion_mat __init__)))
                 (process_noise __init__
                    (vget (nth (if (N =? 1)%nat then 0 else k) mean []) 3)))
            (seq 0 (Nat.max N M))).
Proof.
  intros HN HM H1 Hmean Hlen Hcov.
  pose proof is_mat_motion_mat as HA.
  assert (HAt : is_mat 8 8 (transpose (_motion_mat __init__)))
    by (apply (is_mat_transpose HA); lia).
  assert (HX : forall Cv, In Cv covariance ->
            is_mat 8 8 (mat_mul (mat_mul (_motion_mat __init__) Cv)
                          (transpose (_motion_mat __init__)))).
  { intros Cv HC. apply (@is_mat_mat_mul 8 8 8); try lia; [|exact HAt].
    apply (is_mat_mat_mul HA (Hcov Cv HC)); lia. }
  assert (HQ : forall h, is_mat 8 8 (process_noise __init__ h))
    by (intros h; apply is_mat_diag; reflexivity).
  rewrite (@multi_predict_until_sum N M mean covariance HN HM Hmean Hlen Hcov).
  unfold np.add3. rewrite !length_map, length_seq, Hlen.
  destruct (Nat.eqb_spec N 0) as [E|_]; [lia|].
  destruct (Nat.eqb_spec M N) as [E|Hne].
  - (* one mean and one covariance *)
    assert (EN : N = 1%nat) by lia. assert (EM : M = 1%nat) by lia.
    rewrite EM in Hlen. rewrite EN, EM.
    destruct covariance as [|Cv [|Cv' cs]]; try discriminate Hlen.
    cbn [map seq zipM nth Nat.eqb Nat.max].
    rewrite (add2_ok (HX Cv (or_introl eq_refl)) (HQ _)). reflexivity.
  - destruct (Nat.eqb_spec M 1) as [EM|HM1].
    + (* one covariance, N means *)
      rewrite EM in Hlen.
      destruct covariance as [|Cv [|Cv' cs]]; try discriminate Hlen.
      cbn [map hd nth]. rewrite EM, Nat.max_l by lia.
      rewrite (mapM_ok _ (fun Q => mat_map2 Rplus
                 (mat_mul (mat_mul (_motion_mat __init__) Cv)
                    (transpose (_motion_mat __init__))) Q)).
      2:{ intros Q HQin. apply in_map_iff in HQin. destruct HQin as [i [<- _]].
          apply (add2_ok (HX Cv (or_introl eq_refl)) (HQ _)). }
      cbn [bind]. rewrite map_map. do 2 f_equal.
      apply map_ext_in. intros i Hi.
      destruct (Nat.eqb_spec N 1) as [E|_]; [lia|]. reflexivity.
    + (* one mean, M covariances *)
      assert (EN : N = 1%nat) by lia. rewrite EN.
      cbn [seq map hd Nat.eqb]. rewrite Nat.max_r by lia.
      rewrite (mapM_ok _ (fun X => mat_map2 Rplus X
                 (process_noise __init__ (vget (nth 0 mean []) 3)))).
      2:{ intros X HXin. apply in_map_iff in HXin. destruct HXin as [Cv [<- HC]].
          apply (add2_ok (HX Cv HC) (HQ _)). }
      cbn [bind]. rewrite map_map. do 2 f_equal.
      rewrite (@map_as_seq matrix matrix [] _ covariance), Hlen.
      apply map_ext_in. intros i Hi.
      destruct (Nat.eqb_spec M 1) as [E|_]; [lia|]. reflexivity.
Qed.

Lemma multi_predict_broadcasts_witness :
  multi_predict __init__ [sample_mean; [10; 20; 1; 40; 1; 2; 0; 0]] [sample_covariance]
  = Ok (mat_mul [sample_mean; [10; 20; 1; 40; 1; 2; 0; 0]]
          (transpose (_motion_mat __init__)),
        map (fun k =>
               mat_map2 Rplus
                 (mat_mul (mat_mul (_motion_mat __init__)
                             (nth (if (1 =? 1)%nat then 0 else k) [sample_covariance] []))
                    (transpose (_motion_mat __init__)))
                 (process_noise __init__
                    (vget (nth (if (2 =? 1)%nat then 0 else k)
                             [sample_mean; [10; 20; 1; 40; 1; 2; 0; 0]] []) 3)))
            (seq 0 (Nat.max 2 1))).
Proof.
  apply (@multi_predict_broadcasts 2 1).
  - lia.
  - lia.
  - right. reflexivity.
  - split; [reflexivity|]. repeat constructor.
  - reflexivity.
  - intros Cv [<-|[]]. apply sample_shapes.
Defined.
